(** * Battle mini-game and reward economy: a shallow embedding

    The development follows the TypeScript sources of the application:
    - [LevelSystem]      lib/levelSystem (XP curve, level from XP);
    - [BattleContext]    the battle context of [BattleProvider]
                         ([battleReducer]);
    - [GameContext]      contexts/GameContext.tsx ([gameReducer] and the
                         handlers built on top of it);
    - [UseBattle]        the [useBattle] hook of hooks/useBattleStreak.ts
                         ([handleAnswer]);
    - [BattleService]    services/battleService.ts ([recoverBattleState]).

    JavaScript numbers are modelled by rationals ([Q]) where the code
    computes with fractions (multipliers, XP, coins) and by [Z] where the code
    only counts (indices, seconds, scores).  [Math.round] and [Math.floor]
    go from [Q] to [Z].  In the question score, the coins earned and the
    quest percentage the code rounds or floors the result of a few
    operations on fractions, and the integer depends on the last bits: there
    each operation is rounded to the nearest double as in IEEE 754 binary64
    ([Float64]).  The other computations (the reducer's multipliers and
    balances, and the XP curve of [LevelSystem], whose [Math.pow] an
    implementation only approximates) are over exact numbers, which the
    doubles of the code follow up to the rounding of each operation. *)

From Stdlib Require Import ZArith QArith Qround Qminmax Qpower Qabs.
From Stdlib Require Import List String Bool Lia Lqa DecimalString.
From Equations Require Import Equations.
Import ListNotations.

Open Scope Z_scope.

(* ===================================================================== *)
(** ** JavaScript arithmetic *)
(* ===================================================================== *)

Module JS.

(** [Math.floor]. *)
Definition Math_floor (x : Q) : Z := Qfloor x.

(** [Math.round]: the nearest integer, ties towards plus infinity. *)
Definition Math_round (x : Q) : Z := Qfloor (x + (1 # 2)).

Definition Math_max (x y : Q) : Q := Qmax x y.
Definition Math_min (x y : Q) : Q := Qmin x y.

(** A number that may be [Infinity] (only [calculateXPForLevel] makes one). *)
Inductive xnum : Type :=
| Finite (z : Z)
| Infinity.

Definition xadd (a b : xnum) : xnum :=
  match a, b with
  | Finite x, Finite y => Finite (x + y)
  | _, _ => Infinity
  end.

(** [a <= q] and [a > q] for a possibly infinite [a] and a finite [q]. *)
Definition xleb (a : xnum) (q : Q) : bool :=
  match a with
  | Finite x => Qle_bool (inject_Z x) q
  | Infinity => false
  end.

Definition xgtb (a : xnum) (q : Q) : bool := negb (xleb a q).

Definition Qltb (x y : Q) : bool := negb (Qle_bool y x).

(** Decimal rendering of an integer inside a template string. *)
Definition string_of_Z (z : Z) : string := NilZero.string_of_int (Z.to_int z).

(** The JavaScript idiom [v || d] on an optional number: [undefined] and
    [0] are both falsy. *)
Definition or_default (v : option Q) (d : Q) : Q :=
  match v with
  | Some x => if Qeq_bool x 0 then d else x
  | None => d
  end.

End JS.

(* ===================================================================== *)
(** ** Double-precision arithmetic

    A finite double is a rational [m * 2^e] with [|m| < 2^53] and
    [e >= -1074].  [fl] rounds a rational to the nearest double, ties to the
    even significand, and the four operations round their exact result; an
    operand that is not a double (a decimal literal such as [1.15]) is first
    rounded as the literal is.  Results beyond the largest double
    ([Infinity]) are not represented: the model is that of the code for
    magnitudes below [2^1024]. *)
(* ===================================================================== *)

Module Float64.

Definition pow2 (n : Z) : Q := (2 ^ n)%Q.

(** The nearest integer, ties to even. *)
Definition rne (x : Q) : Z :=
  let f := Qfloor x in
  match Qcompare (x - inject_Z f) (1 # 2) with
  | Lt => f
  | Gt => f + 1
  | Eq => if Z.even f then f else f + 1
  end.

(** The binary exponent of a positive number:
    [2^exponent q <= q < 2^(exponent q + 1)]. *)
Definition exponent (q : Q) : Z :=
  let c := Z.log2 (Qnum q) - Z.log2 (Zpos (Qden q)) in
  if Qle_bool (pow2 c) q then c else c - 1.

(** The exponent of the last place of the significand: 53 bits, and not
    below that of the subnormal numbers. *)
Definition shift (q : Q) : Z := Z.max (exponent q - 52) (-1074).

Definition round_pos (q : Q) : Q :=
  (inject_Z (rne (q / pow2 (shift q))) * pow2 (shift q))%Q.

Definition round (q : Q) : Q :=
  match Qcompare q 0 with
  | Eq => 0
  | Gt => round_pos q
  | Lt => - round_pos (- q)
  end%Q.

(** The double nearest to [q], as a reduced fraction. *)
Definition fl (q : Q) : Q := Qred (round q).

Definition fadd (x y : Q) : Q := fl (fl x + fl y).
Definition fsub (x y : Q) : Q := fl (fl x - fl y).
Definition fmul (x y : Q) : Q := fl (fl x * fl y).
Definition fdiv (x y : Q) : Q := fl (fl x / fl y).

End Float64.

(* ===================================================================== *)
(** ** Configuration objects

    [config/gameConfig] and [config/battleConfig] are read by the code below
    through these fields only; their values are left open. *)
(* ===================================================================== *)

Record LevelConfig : Type := mkLevelConfig {
  baseXP : Q;
  growthFactor : Q;
  maxLevel : Z
}.

Record LevelUpConfig : Type := mkLevelUpConfig {
  xpMultiplier : Q;
  coinMultiplier : Q
}.

Record GameConfigT : Type := mkGameConfig {
  cfg_level : LevelConfig;
  cfg_rewards_levelUp : LevelUpConfig
}.

Record BattleConfigT : Type := mkBattleConfig {
  questionsPerBattle : Z;
  cfg_timePerQuestion : Z;
  readyDelay : Z
}.

(* ===================================================================== *)
(** ** lib/levelSystem: [LevelSystem] *)
(* ===================================================================== *)

Module LevelSystem.
Import JS.

(** [Reward] of [types/rewards]: [value] is a number or a string. *)
Inductive RewardValue : Type :=
| NumValue (q : Q)
| StrValue (s : string).

Record Reward : Type := mkReward {
  reward_id : string;
  reward_type : string;
  reward_value : RewardValue;
  reward_rarity : string
}.

Section WithConfig.
Variable GameConfig : GameConfigT.

Definition BASE_XP : Q := baseXP (cfg_level GameConfig).
Definition GROWTH_FACTOR : Q := growthFactor (cfg_level GameConfig).
Definition MAX_LEVEL : Z := maxLevel (cfg_level GameConfig).

(** [calculateXPForLevel(level)]. *)
Definition calculateXPForLevel (lvl : Z) : xnum :=
  if MAX_LEVEL <? lvl then Infinity
  else Finite (Math_floor (BASE_XP * Qpower GROWTH_FACTOR (lvl - 1))).

(** [calculateTotalXPForLevel(level)]: the loop [for (i = 1; i < level; i++)]. *)
Fixpoint calculateTotalXPForLevel_loop (n : nat) (i : Z) (totalXP : xnum) : xnum :=
  match n with
  | O => totalXP
  | S n' => calculateTotalXPForLevel_loop n' (i + 1)
              (xadd totalXP (calculateXPForLevel i))
  end.

Definition calculateTotalXPForLevel (lvl : Z) : xnum :=
  calculateTotalXPForLevel_loop (Z.to_nat (lvl - 1)) 1 (Finite 0).

(** The [while] loop of [calculateLevel]: one call is one test of the loop
    condition; the loop runs while [level < MAX_LEVEL && totalXP <= xp] and
    leaves early when the new total exceeds [xp]. *)
Equations? calculateLevel_loop (xp : Q) (lvl : Z) (totalXP : xnum) : Z
  by wf (Z.to_nat (MAX_LEVEL - lvl)) lt :=
calculateLevel_loop xp lvl totalXP with Z_lt_dec lvl MAX_LEVEL := {
  | right _ := lvl
  | left Hlt with xleb totalXP xp := {
    | false := lvl
    | true with xgtb (xadd totalXP (calculateXPForLevel lvl)) xp := {
      | true := lvl
      | false := calculateLevel_loop xp (lvl + 1)
                   (xadd totalXP (calculateXPForLevel lvl)) } } }.
Proof. lia. Qed.

(** [calculateLevel(xp)]. *)
Definition calculateLevel (xp : Q) : Z :=
  Z.min (calculateLevel_loop xp 1 (Finite 0)) MAX_LEVEL.

(** [calculateLevelUpRewards(level)]. *)
Definition calculateLevelUpRewards (lvl : Z) : list Reward :=
  let rewards :=
    [ mkReward ("level_" ++ string_of_Z lvl ++ "_xp") "xp"
        (NumValue (inject_Z lvl * xpMultiplier (cfg_rewards_levelUp GameConfig)))
        (if Z.rem lvl 10 =? 0 then "legendary"
         else if Z.rem lvl 5 =? 0 then "epic" else "rare");
      mkReward ("level_" ++ string_of_Z lvl ++ "_coins") "coins"
        (NumValue (inject_Z lvl * coinMultiplier (cfg_rewards_levelUp GameConfig)))
        "common" ] in
  if Z.rem lvl 10 =? 0 then
    rewards ++ [ mkReward ("level_" ++ string_of_Z lvl ++ "_special") "item"
                   (StrValue "Legendary Lootbox") "legendary" ]
  else if Z.rem lvl 5 =? 0 then
    rewards ++ [ mkReward ("level_" ++ string_of_Z lvl ++ "_special") "item"
                   (StrValue "Epic Lootbox") "epic" ]
  else rewards.

End WithConfig.
End LevelSystem.

(* ===================================================================== *)
(** ** contexts/GameContext.tsx: scoring *)
(* ===================================================================== *)

Module Score.
Import JS Float64.

(** [calculateQuestionScore(timeSpent)]. *)
Definition calculateQuestionScore (timeSpent : Q) : Z :=
  let baseScore : Q := 100%Q in
  let timeBonus := Math_max 0%Q (fsub 1 (fdiv timeSpent 30)) in
  Math_round (fmul baseScore (fadd 1 timeBonus)).

(** The score formula as the specification words it, over the rationals:
    [round(100 * (1 + max(0, 1 - timeSpent/30)))]. *)
Definition questionScore_spec (timeSpent : Q) : Z :=
  Qfloor (100 * (1 + Qmax 0 (1 - timeSpent / 30)) + (1 # 2))%Q.

End Score.

(* ===================================================================== *)
(** ** contexts/GameContext.tsx: the state *)
(* ===================================================================== *)

Module GameContext.
Import JS Float64.

(** *** Data *)

Record RewardMultipliers : Type := mkRewardMultipliers {
  rm_xp : Q;      (* rewardMultipliers.xp *)
  rm_coins : Q    (* rewardMultipliers.coins *)
}.

(** An entry of [user.activeEffects], as [useItemEffect] builds it. *)
Record ActiveEffect : Type := mkActiveEffect {
  effect_id : string;
  effect_type : string;
  effect_value : Q;
  effect_startTime : Z;
  effect_duration : Q;
  effect_sourceItem : string * string   (* id, name *)
}.

(** [ItemEffect] of an inventory item: [value] and [duration] may be
    missing (the code reads them through [|| 1.5] and [|| 300]). *)
Record ItemEffect : Type := mkItemEffect {
  ie_type : string;
  ie_value : option Q;
  ie_duration : option Q
}.

Record GameItem : Type := mkGameItem {
  item_id : string;
  item_name : string;
  item_effects : option (list ItemEffect)
}.

Record InventoryItem : Type := mkInventoryItem {
  inv_item : GameItem;
  inv_quantity : Q;
  inv_isEquipped : bool
}.

Inductive QuestStatus : Type :=
| AVAILABLE | IN_PROGRESS | COMPLETED | FAILED | EXPIRED | LOCKED.

Definition QuestStatus_eqb (a b : QuestStatus) : bool :=
  match a, b with
  | AVAILABLE, AVAILABLE | IN_PROGRESS, IN_PROGRESS | COMPLETED, COMPLETED
  | FAILED, FAILED | EXPIRED, EXPIRED | LOCKED, LOCKED => true
  | _, _ => false
  end.

(** [requirement_value: { target: number; current?: number }]. *)
Record RequirementValue : Type := mkRequirementValue {
  target : Q;
  current : option Q
}.

(** The [description] of a requirement: some text, or the template string
    [`Progress: ${current}/${target}`] that [handleQuestProgress] writes. *)
Inductive Description : Type :=
| Text (s : string)
| ProgressText (cur tgt : Q).

Record QuestRequirement : Type := mkQuestRequirement {
  req_id : string;
  req_type : string;
  requirement_value : RequirementValue;
  req_description : option Description
}.

Record Quest : Type := mkQuest {
  quest_id : string;
  quest_title : string;
  quest_status : option QuestStatus;
  requirements : list QuestRequirement;
  xp_reward : Q;
  coin_reward : Q;
  quest_progress : option Q;
  is_active : bool;
  quest_type : string;              (* 'daily', 'weekly', 'story', ... *)
  quest_startedAt : option Z;
  quest_completedAt : option Z
}.

Record TriggerCondition : Type := mkTriggerCondition {
  tc_type : string;
  tc_value : Q;
  tc_comparison : string
}.

Record Achievement : Type := mkAchievement {
  ach_id : string;
  ach_title : string;
  ach_unlocked : bool;
  ach_unlockedAt : option Z;
  ach_triggerConditions : list TriggerCondition;
  ach_progress : option Q;
  ach_completed : bool              (* [completed], set by [UNLOCK_ACHIEVEMENT] *)
}.

(** [state.user.statistics]: the six counters of [initialState], and the
    properties that the reducer adds under other keys. *)
Record Statistics : Type := mkStatistics {
  questsCompleted : Q;
  battlesPlayed : Q;
  achievementsUnlocked : Q;
  itemsCollected : Q;
  coinsEarned : Q;
  xpGained : Q;
  stat_other : list (string * Q)
}.

(** [BattleHistoryEntry] of [types/game.ts]. *)
Record BattleHistoryEntry : Type := mkBattleHistoryEntry {
  bh_id : string;
  bh_score_player : Z;
  bh_score_opponent : Z;
  bh_xp_earned : Q;
  bh_coins_earned : Q
}.

(** The fields of [state.user] that the reducer and the handlers read or
    write.  [activeEffects] is optional: [initialState] does not define it.
    Of [battleStats] the error and the history are kept; [None] for the
    history stands for a [battleStats] or a [battleHistory] that is
    undefined, as in [initialState]. *)
Record User : Type := mkUser {
  id : string;
  level : Z;
  xp : Q;
  coins : Q;
  streak : Q;
  quests : list Quest;
  achievements : list Achievement;
  inventory : list InventoryItem;
  statistics : Statistics;
  rewardMultipliers : RewardMultipliers;
  streakMultiplier : Q;
  activeEffects : option (list ActiveEffect);
  battleStats_error : option (string * option string);
  battleStats_history : option (list BattleHistoryEntry)
}.

Record BattleQuestion : Type := mkBattleQuestion {
  bq_id : string;
  bq_question : string;
  bq_answers : list string;
  bq_correctAnswer : Z
}.

Record BattleScore : Type := mkBattleScore {
  player : Z;
  opponent : Z
}.

Record BattleRewards : Type := mkBattleRewards {
  br_xp : Q;
  br_coins : Q;
  br_streakBonus : option Q;
  br_timeBonus : option Q;
  br_achievements : option (list string)
}.

(** [state.battle].  [status] is a plain string: the code compares it with
    literals that are not all members of [BattleStatus].  The hook reads
    [currentQuestionIndex], a property that the reducer never writes.
    [playerAnswers] is optional: the [initialState] of the provider names
    its properties [player_answers], [current_question], ... and has no
    [playerAnswers]; the other camelCase properties are written by
    [INITIALIZE_BATTLE] and [RESET_BATTLE] together with it. *)
Record BattleState : Type := mkBattleState {
  status : string;
  inProgress : bool;
  questions : list BattleQuestion;
  currentQuestion : Z;
  score : BattleScore;
  timeLeft : Z;
  timePerQuestion : Z;
  playerAnswers : option (list bool);
  battle_rewards : option BattleRewards;
  currentQuestionIndex : option Z
}.

Record GameState : Type := mkGameState {
  user : User;
  battle : BattleState;
  loading : bool;
  error : option string
}.

(** [Partial<User>], the payload of [UPDATE_USER_PROFILE]; only the fields
    that some caller sets. *)
Record PartialUser : Type := mkPartialUser {
  p_coins : option Q;
  p_rewardMultipliers : option RewardMultipliers;
  p_achievements : option (list Achievement)
}.

Record LevelUpRewards : Type := mkLevelUpRewards {
  lur_xp : Q;
  lur_coins : Q;
  lur_items : list InventoryItem
}.

(** [Partial<GameStatistics>], the payload of [UPDATE_STATISTICS]: the six
    counters, where present, and the properties under other keys. *)
Record PartialStatistics : Type := mkPartialStatistics {
  ps_questsCompleted : option Q;
  ps_battlesPlayed : option Q;
  ps_achievementsUnlocked : option Q;
  ps_itemsCollected : option Q;
  ps_coinsEarned : option Q;
  ps_xpGained : option Q;
  ps_other : list (string * Q)
}.

(** The payload of [INITIALIZE_USER].  Of [profile], which is spread over
    the user, the properties that [User] has here and that the case does not
    overwrite. *)
Record Profile : Type := mkProfile {
  pf_id : option string;
  pf_level : option Z;
  pf_xp : option Q;
  pf_coins : option Q;
  pf_streak : option Q
}.

Record Progress : Type := mkProgress {
  reward_multipliers : option RewardMultipliers;
  streak_multiplier : option Q;
  quests_completed : option Q
}.

Record InitializeUser : Type := mkInitializeUser {
  iu_profile : option Profile;
  iu_progress : option Progress;
  iu_achievements : option (list Achievement);
  iu_inventory : option (list InventoryItem);
  iu_quests : option (list Quest);
  iu_total_battles : option Q       (* battleStats?.total_battles *)
}.

Inductive GameAction : Type :=
| SET_LOADING (payload : bool)
| SET_ERROR (payload : option string)
| INITIALIZE_BATTLE (qs : list BattleQuestion) (timePerQuestion : Z)
| ANSWER_QUESTION (isCorrect : bool) (timeSpent : Q)
| END_BATTLE (rewards : BattleRewards)
| RESET_BATTLE
| ADD_XP (amount : Q) (multiplier : option Q)
| ADD_COINS (amount : Q)
| UPDATE_USER_PROFILE (payload : PartialUser)
| LEVEL_UP (lvl : Z) (rewards : LevelUpRewards)
| UPDATE_STREAK_MULTIPLIER
| UPDATE_REWARD_MULTIPLIER (type : string) (value : Q)
| UPDATE_INVENTORY (payload : list InventoryItem)
| UPDATE_QUESTS (active completed : list Quest)
| UPDATE_QUEST_PROGRESS (questId requirementType : string) (progress : Q)
| COMPLETE_QUEST (quest : Quest) (rw_xp rw_coins : Q)
| SET_BATTLE_ERROR (message : string) (code : option string)
| ADD_EFFECT (payload : ActiveEffect)
| REMOVE_EFFECT (effectId effectType : string)
| UNLOCK_ACHIEVEMENT (payload : Achievement)
| UPDATE_ACHIEVEMENT_PROGRESS (achievementId : string) (progress : Q)
| UPDATE_STATISTICS (payload : PartialStatistics)
| START_QUEST (quest : Quest)
| COMPLETE_QUEST_ID (questId : string)   (* [COMPLETE_QUEST] without a payload *)
| FAIL_QUEST (questId : string)
| EXPIRE_QUEST (questId : string)
| RESET_DAILY_QUESTS
| RESET_WEEKLY_QUESTS
| UPDATE_SUBJECT_SCORE (subject : string) (score : Q)
| ADD_BATTLE_HISTORY (payload : BattleHistoryEntry)
| INITIALIZE_USER (payload : InitializeUser)
| ADD_ACTIVITY (type : string)      (* no case in the reducer *)
| UPDATE_BATTLE_TIME (payload : Z). (* no case in the reducer *)

(** *** Copy-and-replace helpers ([{ ...x, field: v }]) *)

Definition set_user (s : GameState) (u : User) : GameState :=
  mkGameState u (battle s) (loading s) (error s).

Definition set_battle (s : GameState) (b : BattleState) : GameState :=
  mkGameState (user s) b (loading s) (error s).

Definition set_xp (u : User) (v : Q) : User :=
  mkUser (id u) (level u) v (coins u) (streak u) (quests u) (achievements u)
    (inventory u) (statistics u) (rewardMultipliers u) (streakMultiplier u)
    (activeEffects u) (battleStats_error u) (battleStats_history u).

Definition set_coins (u : User) (v : Q) : User :=
  mkUser (id u) (level u) (xp u) v (streak u) (quests u) (achievements u)
    (inventory u) (statistics u) (rewardMultipliers u) (streakMultiplier u)
    (activeEffects u) (battleStats_error u) (battleStats_history u).

Definition set_level (u : User) (v : Z) : User :=
  mkUser (id u) v (xp u) (coins u) (streak u) (quests u) (achievements u)
    (inventory u) (statistics u) (rewardMultipliers u) (streakMultiplier u)
    (activeEffects u) (battleStats_error u) (battleStats_history u).

Definition set_quests (u : User) (v : list Quest) : User :=
  mkUser (id u) (level u) (xp u) (coins u) (streak u) v (achievements u)
    (inventory u) (statistics u) (rewardMultipliers u) (streakMultiplier u)
    (activeEffects u) (battleStats_error u) (battleStats_history u).

Definition set_achievements (u : User) (v : list Achievement) : User :=
  mkUser (id u) (level u) (xp u) (coins u) (streak u) (quests u) v
    (inventory u) (statistics u) (rewardMultipliers u) (streakMultiplier u)
    (activeEffects u) (battleStats_error u) (battleStats_history u).

Definition set_inventory (u : User) (v : list InventoryItem) : User :=
  mkUser (id u) (level u) (xp u) (coins u) (streak u) (quests u)
    (achievements u) v (statistics u) (rewardMultipliers u)
    (streakMultiplier u) (activeEffects u) (battleStats_error u) (battleStats_history u).

Definition set_statistics (u : User) (v : Statistics) : User :=
  mkUser (id u) (level u) (xp u) (coins u) (streak u) (quests u)
    (achievements u) (inventory u) v (rewardMultipliers u)
    (streakMultiplier u) (activeEffects u) (battleStats_error u) (battleStats_history u).

Definition set_rewardMultipliers (u : User) (v : RewardMultipliers) : User :=
  mkUser (id u) (level u) (xp u) (coins u) (streak u) (quests u)
    (achievements u) (inventory u) (statistics u) v (streakMultiplier u)
    (activeEffects u) (battleStats_error u) (battleStats_history u).

Definition set_streakMultiplier (u : User) (v : Q) : User :=
  mkUser (id u) (level u) (xp u) (coins u) (streak u) (quests u)
    (achievements u) (inventory u) (statistics u) (rewardMultipliers u) v
    (activeEffects u) (battleStats_error u) (battleStats_history u).

Definition set_activeEffects (u : User) (v : option (list ActiveEffect)) : User :=
  mkUser (id u) (level u) (xp u) (coins u) (streak u) (quests u)
    (achievements u) (inventory u) (statistics u) (rewardMultipliers u)
    (streakMultiplier u) v (battleStats_error u) (battleStats_history u).

Definition set_battleStats_error (u : User) (v : option (string * option string)) : User :=
  mkUser (id u) (level u) (xp u) (coins u) (streak u) (quests u)
    (achievements u) (inventory u) (statistics u) (rewardMultipliers u)
    (streakMultiplier u) (activeEffects u) v (battleStats_history u).

Definition set_battleStats_history (u : User) (v : option (list BattleHistoryEntry))
    : User :=
  mkUser (id u) (level u) (xp u) (coins u) (streak u) (quests u)
    (achievements u) (inventory u) (statistics u) (rewardMultipliers u)
    (streakMultiplier u) (activeEffects u) (battleStats_error u) v.

Definition set_xpGained (st : Statistics) (v : Q) : Statistics :=
  mkStatistics (questsCompleted st) (battlesPlayed st) (achievementsUnlocked st)
    (itemsCollected st) (coinsEarned st) v (stat_other st).

Definition set_coinsEarned (st : Statistics) (v : Q) : Statistics :=
  mkStatistics (questsCompleted st) (battlesPlayed st) (achievementsUnlocked st)
    (itemsCollected st) v (xpGained st) (stat_other st).

Definition set_questsCompleted (st : Statistics) (v : Q) : Statistics :=
  mkStatistics v (battlesPlayed st) (achievementsUnlocked st)
    (itemsCollected st) (coinsEarned st) (xpGained st) (stat_other st).

Definition set_achievementsUnlocked (st : Statistics) (v : Q) : Statistics :=
  mkStatistics (questsCompleted st) (battlesPlayed st) v
    (itemsCollected st) (coinsEarned st) (xpGained st) (stat_other st).

Definition set_stat_other (st : Statistics) (v : list (string * Q)) : Statistics :=
  mkStatistics (questsCompleted st) (battlesPlayed st) (achievementsUnlocked st)
    (itemsCollected st) (coinsEarned st) (xpGained st) v.

(** [{ ...obj, [key]: v }] on the properties kept as a list. *)
Fixpoint assoc_set (key : string) (v : Q) (l : list (string * Q)) : list (string * Q) :=
  match l with
  | [] => [(key, v)]
  | (k, v') :: l' =>
      if String.eqb k key then (key, v) :: l' else (k, v') :: assoc_set key v l'
  end.

Definition assoc_get (key : string) (l : list (string * Q)) : option Q :=
  option_map snd (find (fun kv => String.eqb (fst kv) key) l).

Definition set_requirements_progress (q : Quest) (reqs : list QuestRequirement)
    (p : option Q) : Quest :=
  mkQuest (quest_id q) (quest_title q) (quest_status q) reqs (xp_reward q)
    (coin_reward q) p (is_active q) (quest_type q) (quest_startedAt q)
    (quest_completedAt q).

Definition set_status_progress (q : Quest) (st : option QuestStatus)
    (p : option Q) : Quest :=
  mkQuest (quest_id q) (quest_title q) st (requirements q) (xp_reward q)
    (coin_reward q) p (is_active q) (quest_type q) (quest_startedAt q)
    (quest_completedAt q).

Definition set_quest_status (q : Quest) (st : option QuestStatus) : Quest :=
  set_status_progress q st (quest_progress q).

(** The quest as [RESET_DAILY_QUESTS] and [RESET_WEEKLY_QUESTS] leave it. *)
Definition reset_quest (q : Quest) : Quest :=
  mkQuest (quest_id q) (quest_title q) (Some AVAILABLE)
    (map (fun r =>
            mkQuestRequirement (req_id r) (req_type r)
              (mkRequirementValue (target (requirement_value r)) (Some 0%Q))
              (req_description r))
         (requirements q))
    (xp_reward q) (coin_reward q) (Some 0%Q) (is_active q) (quest_type q)
    None None.

Definition set_current (r : QuestRequirement) (c : option Q) : QuestRequirement :=
  mkQuestRequirement (req_id r) (req_type r)
    (mkRequirementValue (target (requirement_value r)) c) (req_description r).

(** *** The reducer *)

Section Reducer.

(** [new Date()] as the reducer reads it, in milliseconds. *)
Variable now : Z.

(** [calculateQuestProgress] of [utils/questUtils], called by the
    [UPDATE_QUEST_PROGRESS] case. *)
Variable calculateQuestProgress : Quest -> User -> Q.

(** [updateStreakMultiplier(streak)]. *)
Definition updateStreakMultiplier (streak : Q) : Q :=
  Math_min (1 + streak * (15 # 100))%Q 2%Q.

(** [handleBattleStateUpdate(battleState, action)]; [None] when the call
    throws: [[...battleState.playerAnswers, isCorrect]] is a [TypeError] for
    an undefined [playerAnswers]. *)
Definition handleBattleStateUpdate (battleState : BattleState) (action : GameAction)
    : option BattleState :=
  match action with
  | INITIALIZE_BATTLE qs tpq =>
      Some (mkBattleState "battle" true qs 0 (mkBattleScore 0 0) tpq tpq (Some [])
              None None)
  | ANSWER_QUESTION isCorrect timeSpent =>
      let newScore :=
        if isCorrect
        then player (score battleState) + Score.calculateQuestionScore timeSpent
        else player (score battleState) in
      match playerAnswers battleState with
      | None => None
      | Some answers =>
          Some (mkBattleState (status battleState) (inProgress battleState)
                  (questions battleState)
                  (currentQuestion battleState + 1)
                  (mkBattleScore newScore (opponent (score battleState)))
                  (timePerQuestion battleState)
                  (timePerQuestion battleState)
                  (Some (answers ++ [isCorrect]))
                  (battle_rewards battleState)
                  (currentQuestionIndex battleState))
      end
  | END_BATTLE rewards =>
      Some (mkBattleState "complete" false (questions battleState)
              (currentQuestion battleState) (score battleState)
              (timeLeft battleState) (timePerQuestion battleState)
              (playerAnswers battleState) (Some rewards)
              (currentQuestionIndex battleState))
  | RESET_BATTLE =>
      Some (mkBattleState "idle" false [] 0 (mkBattleScore 0 0) 0 0 (Some [])
              None None)
  | _ => Some battleState
  end.

(** [handleQuestAction(state, action)]. *)
Definition handleQuestAction (state : GameState) (action : GameAction) : GameState :=
  match action with
  | START_QUEST actionQuest =>
      let quest :=
        mkQuest (quest_id actionQuest) (quest_title actionQuest) (Some IN_PROGRESS)
          (requirements actionQuest) (xp_reward actionQuest)
          (coin_reward actionQuest) (quest_progress actionQuest)
          (is_active actionQuest) (quest_type actionQuest) (Some now)
          (quest_completedAt actionQuest) in
      set_user state (set_quests (user state)
        (map (fun q => if String.eqb (quest_id q) (quest_id quest) then quest else q)
             (quests (user state))))
  | UPDATE_QUEST_PROGRESS questId requirementType progress =>
      set_user state (set_quests (user state)
        (map (fun quest =>
           if negb (String.eqb (quest_id quest) questId) then quest
           else
             let newRequirements :=
               map (fun req =>
                      if negb (String.eqb (req_type req) requirementType) then req
                      else set_current req (Some progress))
                   (requirements quest) in
             let newProgress :=
               calculateQuestProgress
                 (set_requirements_progress quest newRequirements (quest_progress quest))
                 (user state) in
             set_requirements_progress quest newRequirements (Some newProgress))
           (quests (user state))))
  | COMPLETE_QUEST quest rw_xp rw_coins =>
      match find (fun q => String.eqb (quest_id q) (quest_id quest))
                 (quests (user state)) with
      | None => state
      | Some completedQuest =>
          let achievement :=
            mkAchievement ("quest_complete_" ++ quest_id quest)
              ("Completed: " ++ quest_title completedQuest)
              true (Some now) [mkTriggerCondition "quest" 1%Q "eq"]
              (Some 100%Q) false in
          let u := user state in
          set_user state
            (mkUser (id u) (level u)
               (xp u + rw_xp)%Q
               (coins u + rw_coins)%Q
               (streak u)
               (map (fun q =>
                       if String.eqb (quest_id q) (quest_id quest)
                       then set_status_progress q (Some COMPLETED) (Some 100%Q)
                       else q)
                    (quests u))
               (achievements u ++ [achievement])
               (inventory u ++ [])
               (set_questsCompleted (statistics u)
                  (questsCompleted (statistics u) + 1)%Q)
               (rewardMultipliers u) (streakMultiplier u)
               (activeEffects u) (battleStats_error u) (battleStats_history u))
      end
  | COMPLETE_QUEST_ID questId =>
      match find (fun q => String.eqb (quest_id q) questId) (quests (user state)) with
      | None => state
      | Some _ =>
          let u := user state in
          set_user state
            (set_statistics
               (set_quests u
                  (map (fun q =>
                          if String.eqb (quest_id q) questId
                          then set_status_progress q (Some COMPLETED) (Some 100%Q)
                          else q)
                       (quests u)))
               (set_questsCompleted (statistics u)
                  (questsCompleted (statistics u) + 1)%Q))
      end
  | FAIL_QUEST questId =>
      set_user state (set_quests (user state)
        (map (fun q => if String.eqb (quest_id q) questId
                       then set_quest_status q (Some FAILED) else q)
             (quests (user state))))
  | EXPIRE_QUEST questId =>
      set_user state (set_quests (user state)
        (map (fun q => if String.eqb (quest_id q) questId
                       then set_quest_status q (Some EXPIRED) else q)
             (quests (user state))))
  | RESET_DAILY_QUESTS =>
      set_user state (set_quests (user state)
        (map (fun q => if String.eqb (quest_type q) "daily" then reset_quest q else q)
             (quests (user state))))
  | RESET_WEEKLY_QUESTS =>
      set_user state (set_quests (user state)
        (map (fun q => if String.eqb (quest_type q) "weekly" then reset_quest q else q)
             (quests (user state))))
  | _ => state
  end.

(** [gameReducer(state, action)].  A case that would raise a [TypeError]
    (spreading or filtering an undefined [activeEffects], [playerAnswers] or
    [battleHistory]) ends in the reducer's [catch], which returns [state]. *)
Definition gameReducer (state : GameState) (action : GameAction) : GameState :=
  match action with
  | SET_LOADING b => mkGameState (user state) (battle state) b (error state)
  | SET_ERROR e => mkGameState (user state) (battle state) (loading state) e
  | INITIALIZE_BATTLE _ _ | ANSWER_QUESTION _ _ | END_BATTLE _ | RESET_BATTLE =>
      match handleBattleStateUpdate (battle state) action with
      | Some updatedBattleState => set_battle state updatedBattleState
      | None => state
      end
  | UNLOCK_ACHIEVEMENT achievement =>
      let u := user state in
      set_user state
        (set_statistics
           (set_achievements u
              (map (fun a =>
                      if String.eqb (ach_id a) (ach_id achievement)
                      then mkAchievement (ach_id a) (ach_title a) (ach_unlocked a)
                             (Some now) (ach_triggerConditions a) (ach_progress a)
                             true
                      else a)
                   (achievements u)))
           (set_achievementsUnlocked (statistics u)
              (achievementsUnlocked (statistics u) + 1)%Q))
  | UPDATE_ACHIEVEMENT_PROGRESS achievementId progress =>
      set_user state
        (set_achievements (user state)
           (map (fun achievement =>
                   if String.eqb (ach_id achievement) achievementId
                   then mkAchievement (ach_id achievement) (ach_title achievement)
                          (ach_unlocked achievement) (ach_unlockedAt achievement)
                          (ach_triggerConditions achievement) (Some progress)
                          (ach_completed achievement)
                   else achievement)
                (achievements (user state))))
  | ADD_XP amount multiplier =>
      let multiplier := match multiplier with Some m => m | None => 1%Q end in
      let totalXP := (amount * multiplier * rm_xp (rewardMultipliers (user state)))%Q in
      set_user state
        (set_statistics
           (set_xp (user state) (xp (user state) + totalXP)%Q)
           (set_xpGained (statistics (user state))
              (xpGained (statistics (user state)) + totalXP)%Q))
  | ADD_COINS amount =>
      let totalCoins := (amount * rm_coins (rewardMultipliers (user state)))%Q in
      set_user state
        (set_statistics
           (set_coins (user state) (coins (user state) + totalCoins)%Q)
           (set_coinsEarned (statistics (user state))
              (coinsEarned (statistics (user state)) + totalCoins)%Q))
  | UPDATE_USER_PROFILE payload =>
      let u := user state in
      set_user state
        (mkUser (id u) (level u) (xp u)
           (match p_coins payload with Some c => c | None => coins u end)
           (streak u) (quests u)
           (match p_achievements payload with Some a => a | None => achievements u end)
           (inventory u) (statistics u)
           (match p_rewardMultipliers payload with
            | Some m => m | None => rewardMultipliers u end)
           (streakMultiplier u) (activeEffects u) (battleStats_error u)
           (battleStats_history u))
  | LEVEL_UP lvl rewards =>
      let u := user state in
      set_user state
        (mkUser (id u) lvl
           (xp u + lur_xp rewards)%Q
           (coins u + lur_coins rewards)%Q
           (streak u) (quests u) (achievements u)
           (inventory u ++ lur_items rewards)
           (statistics u) (rewardMultipliers u) (streakMultiplier u)
           (activeEffects u) (battleStats_error u) (battleStats_history u))
  | UPDATE_STREAK_MULTIPLIER =>
      set_user state
        (set_streakMultiplier (user state)
           (updateStreakMultiplier (streak (user state))))
  | UPDATE_REWARD_MULTIPLIER type value =>
      let m := rewardMultipliers (user state) in
      set_user state
        (set_rewardMultipliers (user state)
           (if String.eqb type "xp" then mkRewardMultipliers value (rm_coins m)
            else if String.eqb type "coins" then mkRewardMultipliers (rm_xp m) value
            else m))
  | UPDATE_INVENTORY payload =>
      set_user state (set_inventory (user state) payload)
  | UPDATE_STATISTICS payload =>
      let st := statistics (user state) in
      let pick (v : option Q) (d : Q) := match v with Some x => x | None => d end in
      set_user state
        (set_statistics (user state)
           (mkStatistics
              (pick (ps_questsCompleted payload) (questsCompleted st))
              (pick (ps_battlesPlayed payload) (battlesPlayed st))
              (pick (ps_achievementsUnlocked payload) (achievementsUnlocked st))
              (pick (ps_itemsCollected payload) (itemsCollected st))
              (pick (ps_coinsEarned payload) (coinsEarned st))
              (pick (ps_xpGained payload) (xpGained st))
              (fold_left (fun l kv => assoc_set (fst kv) (snd kv) l)
                         (ps_other payload) (stat_other st))))
  | UPDATE_QUESTS active _ =>
      set_user state (set_quests (user state) active)
  | START_QUEST _ | UPDATE_QUEST_PROGRESS _ _ _ | COMPLETE_QUEST _ _ _
  | COMPLETE_QUEST_ID _ | FAIL_QUEST _ | EXPIRE_QUEST _
  | RESET_DAILY_QUESTS | RESET_WEEKLY_QUESTS =>
      handleQuestAction state action
  | SET_BATTLE_ERROR message code =>
      set_user state (set_battleStats_error (user state) (Some (message, code)))
  | UPDATE_SUBJECT_SCORE subject score =>
      let st := statistics (user state) in
      set_user state
        (set_statistics (user state)
           (set_stat_other st (assoc_set (subject ++ "Score") score (stat_other st))))
  | ADD_BATTLE_HISTORY payload =>
      match battleStats_history (user state) with
      | None => state
      | Some battleHistory =>
          set_user state
            (set_battleStats_history (user state)
               (Some (firstn 50 (payload :: battleHistory))))
      end
  | ADD_EFFECT effect =>
      match activeEffects (user state) with
      | None => state
      | Some effects =>
          set_user state (set_activeEffects (user state) (Some (effects ++ [effect])))
      end
  | REMOVE_EFFECT effectId effectType =>
      if negb (String.eqb effectType "xp") && negb (String.eqb effectType "coins")
      then state
      else
        match activeEffects (user state) with
        | None => state
        | Some effects =>
            let m := rewardMultipliers (user state) in
            let divisor := (1 + (if String.eqb effectType "xp" then (1 # 2) else 1))%Q in
            set_user state
              (set_rewardMultipliers
                 (set_activeEffects (user state)
                    (Some (filter (fun effect =>
                                     negb (String.eqb (effect_id effect) effectId))
                                  effects)))
                 (if String.eqb effectType "xp"
                  then mkRewardMultipliers (rm_xp m / divisor)%Q (rm_coins m)
                  else mkRewardMultipliers (rm_xp m) (rm_coins m / divisor)%Q))
        end
  | INITIALIZE_USER payload =>
      let u := user state in
      let profile := iu_profile payload in
      let progress := iu_progress payload in
      let from_profile {A : Type} (f : Profile -> option A) (d : A) : A :=
        match profile with
        | Some pf => match f pf with Some v => v | None => d end
        | None => d
        end in
      let profile_number (f : Profile -> option Q) : Q :=
        or_default (match profile with Some pf => f pf | None => None end) 0%Q in
      let progress_number (f : Progress -> option Q) (d : Q) : Q :=
        or_default (match progress with Some pr => f pr | None => None end) d in
      let list_or_empty {A : Type} (l : option (list A)) : list A :=
        match l with Some x => x | None => [] end in
      let length_or_0 {A : Type} (l : option (list A)) : Q :=
        match l with Some x => inject_Z (Z.of_nat (List.length x)) | None => 0%Q end in
      mkGameState
        (mkUser (from_profile pf_id (id u)) (from_profile pf_level (level u))
           (from_profile pf_xp (xp u)) (from_profile pf_coins (coins u))
           (from_profile pf_streak (streak u))
           (list_or_empty (iu_quests payload))
           (list_or_empty (iu_achievements payload))
           (list_or_empty (iu_inventory payload))
           (mkStatistics
              (progress_number quests_completed 0%Q)
              (or_default (iu_total_battles payload) 0%Q)
              (length_or_0 (iu_achievements payload))
              (length_or_0 (iu_inventory payload))
              (profile_number pf_coins)
              (profile_number pf_xp)
              [])
           (match progress with
            | Some pr =>
                match reward_multipliers pr with
                | Some m => m
                | None => mkRewardMultipliers 1%Q 1%Q
                end
            | None => mkRewardMultipliers 1%Q 1%Q
            end)
           (progress_number streak_multiplier 1%Q)
           (activeEffects u) (battleStats_error u) (battleStats_history u))
        (battle state) false (error state)
  | ADD_ACTIVITY _ | UPDATE_BATTLE_TIME _ => state
  end.

End Reducer.

(** *** Handlers

    A handler of [GameProvider] is a closure over the [state] of the render
    that created it: it reads that snapshot, while every [dispatch] goes to
    the store.  A handler may also schedule timers and may throw.  The remote
    tables are outside the model: awaiting a remote call leaves the store as
    it is. *)

Inductive Outcome (A : Type) : Type :=
| Returned (a : A)
| Thrown (msg : string).
Arguments Returned {A} a.
Arguments Thrown {A} msg.

Record World : Type := mkWorld {
  store : GameState;
  timers : list (Q * GameAction)   (* delay in ms, action to dispatch *)
}.

Definition Handler (A : Type) : Type := World -> Outcome A * World.

Definition ret {A : Type} (a : A) : Handler A := fun w => (Returned a, w).

Definition bind {A B : Type} (m : Handler A) (k : A -> Handler B) : Handler B :=
  fun w =>
    match m w with
    | (Returned a, w') => k a w'
    | (Thrown msg, w') => (Thrown msg, w')
    end.

Definition throw {A : Type} (msg : string) : Handler A := fun w => (Thrown msg, w).

Definition try_catch {A : Type} (m : Handler A) (h : string -> Handler A) : Handler A :=
  fun w =>
    match m w with
    | (Returned a, w') => (Returned a, w')
    | (Thrown msg, w') => h msg w'
    end.

Notation "x <- m ;; k" := (bind m (fun x => k))
  (at level 61, m at next level, right associativity).
Notation "m ;; k" := (bind m (fun _ => k))
  (at level 61, right associativity).

(** [for (const x of xs) { await body(x) }]. *)
Fixpoint for_of {A : Type} (xs : list A) (body : A -> Handler unit) : Handler unit :=
  match xs with
  | [] => ret tt
  | x :: xs' => body x ;; for_of xs' body
  end.

(** The same loop with the position of each element. *)
Fixpoint for_of_indexed {A : Type} (i : nat) (xs : list A)
    (body : nat -> A -> Handler unit) : Handler unit :=
  match xs with
  | [] => ret tt
  | x :: xs' => body i x ;; for_of_indexed (S i) xs' body
  end.

Section Handlers.

Variable now : Z.
Variable calculateQuestProgress : Quest -> User -> Q.
Variable GameConfig : GameConfigT.

(** [calculateLevel] and [validateGameItem] of [utils/gameUtils]. *)
Variable calculateLevel : Q -> Z.
Variable validateGameItem : GameItem -> bool.

(** [handleAchievementUnlock], which [checkAchievements] calls. *)
Variable handleAchievementUnlock : Achievement -> Handler unit.

(** [crypto.randomUUID()] for the [i]-th effect of an item. *)
Variable randomUUID : nat -> string.

Definition dispatch (action : GameAction) : Handler unit :=
  fun w => (Returned tt,
            mkWorld (gameReducer now calculateQuestProgress (store w) action) (timers w)).

Definition setTimeout (action : GameAction) (delay : Q) : Handler unit :=
  fun w => (Returned tt, mkWorld (store w) (timers w ++ [(delay, action)])).

(** [state.user.statistics[type] || 0]. *)
Definition statistic (st : Statistics) (key : string) : Q :=
  or_default
    (if String.eqb key "questsCompleted" then Some (questsCompleted st)
     else if String.eqb key "battlesPlayed" then Some (battlesPlayed st)
     else if String.eqb key "achievementsUnlocked" then Some (achievementsUnlocked st)
     else if String.eqb key "itemsCollected" then Some (itemsCollected st)
     else if String.eqb key "coinsEarned" then Some (coinsEarned st)
     else if String.eqb key "xpGained" then Some (xpGained st)
     else assoc_get key (stat_other st)) 0%Q.

Definition condition_holds (st : Statistics) (c : TriggerCondition) : bool :=
  let currentValue := statistic st (tc_type c) in
  let value := tc_value c in
  if String.eqb (tc_comparison c) "eq" then Qeq_bool currentValue value
  else if String.eqb (tc_comparison c) "gt" then Qltb value currentValue
  else if String.eqb (tc_comparison c) "lt" then Qltb currentValue value
  else if String.eqb (tc_comparison c) "gte" then Qle_bool value currentValue
  else if String.eqb (tc_comparison c) "lte" then Qle_bool currentValue value
  else false.

(** [checkAchievements()]. *)
Definition checkAchievements (state : GameState) : Handler unit :=
  if String.eqb (id (user state)) "" then ret tt
  else
    try_catch
      (let unlockedAchievements :=
         filter (fun achievement =>
                   forallb (condition_holds (statistics (user state)))
                           (ach_triggerConditions achievement))
           (filter (fun achievement => negb (ach_unlocked achievement))
                   (achievements (user state))) in
       for_of unlockedAchievements handleAchievementUnlock)
      (fun _ => ret tt).

(** [handleCoinTransaction({ amount, source })]. *)
Definition handleCoinTransaction (state : GameState) (amount : Q) (source : string)
    : Handler unit :=
  let user := user state in
  let newAmount :=
    if String.eqb source "earn"
    then inject_Z (Math_round (fmul (fmul amount (rm_coins (rewardMultipliers user)))
                                 (streakMultiplier user)))
    else amount in
  let newBalance :=
    if String.eqb source "earn"
    then fadd (coins user) newAmount
    else (coins user - newAmount)%Q in
  if Qltb newBalance 0%Q then throw "Insufficient coins"
  else dispatch (UPDATE_USER_PROFILE (mkPartialUser (Some newBalance) None None)).

(** [handleItemTransaction(item, quantity, type, cost)]: the inventory goes
    to the remote table only. *)
Definition handleItemTransaction (state : GameState) (item : GameItem)
    (quantity : Q) (type : string) (cost : Q) : Handler unit :=
  if negb (validateGameItem item) then ret tt
  else
    try_catch
      ((if String.eqb type "purchase" && Qltb 0%Q cost
        then handleCoinTransaction state (- cost)%Q "purchase"
        else ret tt) ;;
       dispatch (ADD_ACTIVITY "inventory"))
      (fun _ => ret tt).

(** The [rewards] object that [handleXPGain] builds from the array of
    [LevelSystem.calculateLevelUpRewards(newLevel)]. *)
Definition reward_number (rewardsArray : list LevelSystem.Reward) (type : string) : Q :=
  or_default
    (match find (fun r => String.eqb (LevelSystem.reward_type r) type) rewardsArray with
     | Some r =>
         match LevelSystem.reward_value r with
         | LevelSystem.NumValue q => Some q
         | LevelSystem.StrValue _ => None
         end
     | None => None
     end) 0%Q.

Definition reward_items (rewardsArray : list LevelSystem.Reward) : list InventoryItem :=
  map (fun r =>
         mkInventoryItem
           (mkGameItem (LevelSystem.reward_id r)
              (match LevelSystem.reward_value r with
               | LevelSystem.StrValue s => s
               | LevelSystem.NumValue _ => ""
               end)
              None)
           1%Q false)
      (filter (fun r => String.eqb (LevelSystem.reward_type r) "item") rewardsArray).

(** [handleXPGain(xpGain)]. *)
Definition handleXPGain (state : GameState) (amount : Q) (source : string)
    : Handler unit :=
  let multiplier :=
    (rm_xp (rewardMultipliers (user state)) * streakMultiplier (user state))%Q in
  let totalXP := inject_Z (Math_round (amount * multiplier)) in
  dispatch (ADD_ACTIVITY "xp_gain") ;;
  dispatch (ADD_XP totalXP (Some multiplier)) ;;
  let newLevel := calculateLevel (xp (user state) + totalXP)%Q in
  (if level (user state) <? newLevel then
     let rewardsArray := LevelSystem.calculateLevelUpRewards GameConfig newLevel in
     let rewards :=
       mkLevelUpRewards (reward_number rewardsArray "xp")
         (reward_number rewardsArray "coins") (reward_items rewardsArray) in
     dispatch (LEVEL_UP newLevel rewards) ;;
     handleCoinTransaction state (lur_coins rewards) "level_up" ;;
     for_of (lur_items rewards)
       (fun item => handleItemTransaction state (inv_item item) 1%Q "reward" 0%Q)
   else ret tt) ;;
  try_catch (checkAchievements state) (fun _ => ret tt).

(** [useItemEffect(itemId)]. *)
Definition useItemEffect (state : GameState) (itemId : string) : Handler unit :=
  match find (fun item => String.eqb (item_id (inv_item item)) itemId)
             (inventory (user state)) with
  | None => throw "Item not found in inventory"
  | Some itemInInventory =>
      if negb (inv_isEquipped itemInInventory)
      then throw "Item must be equipped to use its effect"
      else
        let item := inv_item itemInInventory in
        match item_effects item with
        | None | Some [] => throw "Item has no effects to use"
        | Some effects =>
            for_of_indexed 0 effects (fun i effect =>
              let effectId := randomUUID i in
              let startTime := now in
              let duration := or_default (ie_duration effect) 300%Q in
              let value := or_default (ie_value effect) (3 # 2)%Q in
              let entry :=
                mkActiveEffect effectId (ie_type effect) value startTime duration
                  (item_id item, item_name item) in
              let m := rewardMultipliers (user state) in
              setTimeout (REMOVE_EFFECT effectId (ie_type effect)) (duration * 1000)%Q ;;
              if String.eqb (ie_type effect) "xp_boost" then
                dispatch (ADD_EFFECT entry) ;;
                dispatch (UPDATE_USER_PROFILE
                            (mkPartialUser None
                               (Some (mkRewardMultipliers (rm_xp m * value)%Q (rm_coins m)))
                               None))
              else if String.eqb (ie_type effect) "coin_boost" then
                dispatch (ADD_EFFECT entry) ;;
                dispatch (UPDATE_USER_PROFILE
                            (mkPartialUser None
                               (Some (mkRewardMultipliers (rm_xp m) (rm_coins m * value)%Q))
                               None))
              else if String.eqb (ie_type effect) "score_boost" then
                dispatch (ADD_EFFECT entry)
              else if String.eqb (ie_type effect) "time_boost" then
                dispatch (ADD_EFFECT entry)
              else throw ("Unknown effect type: " ++ ie_type effect)) ;;
            dispatch (ADD_ACTIVITY "purchase")
        end
  end.

(** **** Quest progress *)

(** An entry of the local [progressMap]. *)
Record ProgressEntry : Type := mkProgressEntry {
  pe_current : Q;
  pe_target : Q
}.

(** [new Map<string, ...>()] with [set], [get] and [has]. *)
Definition JSMap : Type := list (string * ProgressEntry).

Fixpoint Map_set (k : string) (v : ProgressEntry) (m : JSMap) : JSMap :=
  match m with
  | [] => [(k, v)]
  | (k', v') :: m' =>
      if String.eqb k' k then (k, v) :: m' else (k', v') :: Map_set k v m'
  end.

Definition Map_get (k : string) (m : JSMap) : option ProgressEntry :=
  option_map snd (find (fun kv => String.eqb (fst kv) k) m).

Definition Map_has (k : string) (m : JSMap) : bool :=
  match Map_get k m with Some _ => true | None => false end.

(** [userQuest.requirements.forEach(req => progressMap.set(req.type, ...))]. *)
Definition initialProgressMap (reqs : list QuestRequirement) : JSMap :=
  fold_left
    (fun m req =>
       Map_set (req_type req)
         (mkProgressEntry (or_default (current (requirement_value req)) 0%Q)
                          (target (requirement_value req)))
         m)
    reqs [].

(** The map after the update for [requirement.type]. *)
Definition progressMapFor (reqs : list QuestRequirement) (requirementType : string)
    (progress : Q) : JSMap :=
  let progressMap := initialProgressMap reqs in
  if Map_has requirementType progressMap then
    match Map_get requirementType progressMap with
    | Some currentData =>
        let newProgress :=
          Math_min (fadd (pe_current currentData) progress) (pe_target currentData) in
        Map_set requirementType
          (mkProgressEntry newProgress (pe_target currentData)) progressMap
    | None => progressMap
    end
  else progressMap.

(** [progressMap.get(req.type)?.current || 0]. *)
Definition currentOf (progressMap : JSMap) (req : QuestRequirement) : Q :=
  or_default (option_map pe_current (Map_get (req_type req) progressMap)) 0%Q.

Definition updatedRequirements (reqs : list QuestRequirement) (progressMap : JSMap)
    : list QuestRequirement :=
  map (fun req =>
         mkQuestRequirement (req_id req) (req_type req)
           (mkRequirementValue (target (requirement_value req))
              (Some (currentOf progressMap req)))
           (Some (ProgressText (currentOf progressMap req)
                    (target (requirement_value req)))))
      reqs.

Definition allCompleted (updated : list QuestRequirement) (progressMap : JSMap) : bool :=
  forallb (fun req =>
             match Map_get (req_type req) progressMap with
             | Some progress => Qle_bool (pe_target progress) (pe_current progress)
             | None => false
             end)
          updated.

Definition totalTarget (updated : list QuestRequirement) : Q :=
  fold_left (fun sum req => fadd sum (target (requirement_value req))) updated 0%Q.

Definition currentTotal (updated : list QuestRequirement) (progressMap : JSMap) : Q :=
  fold_left (fun sum req => fadd sum (currentOf progressMap req)) updated 0%Q.

(** [Math.floor((currentTotal / totalTarget) * 100)].  For a total target of
    zero JavaScript yields [NaN] or an infinity; the division of [Q] is used
    as it is, and statements about this value assume a non-zero total. *)
Definition overallProgress (updated : list QuestRequirement) (progressMap : JSMap) : Z :=
  Math_floor (fmul (fdiv (currentTotal updated progressMap) (totalTarget updated)) 100).

Definition isCompleted (q : Quest) : bool :=
  match quest_status q with
  | Some st => QuestStatus_eqb st COMPLETED
  | None => false
  end.

(** [handleQuestProgress(quest, requirement, progress)]. *)
Definition handleQuestProgress (state : GameState) (quest : Quest)
    (requirement : QuestRequirement) (progress : Q) : Handler unit :=
  match find (fun q => String.eqb (quest_id q) (quest_id quest)
                       && negb (isCompleted q) && is_active q)
             (quests (user state)) with
  | None => ret tt
  | Some userQuest =>
      let progressMap :=
        progressMapFor (requirements userQuest) (req_type requirement) progress in
      let updated := updatedRequirements (requirements userQuest) progressMap in
      if allCompleted updated progressMap && negb (isCompleted userQuest) then
        dispatch (ADD_XP (xp_reward quest)
                    (Some (rm_xp (rewardMultipliers (user state))))) ;;
        dispatch (ADD_COINS (coin_reward quest)) ;;
        dispatch (ADD_ACTIVITY "quest") ;;
        dispatch (COMPLETE_QUEST quest (xp_reward quest) (coin_reward quest)) ;;
        dispatch (UPDATE_QUEST_PROGRESS (quest_id quest) (req_type requirement) 100%Q)
      else
        let overall := overallProgress updated progressMap in
        dispatch (UPDATE_QUEST_PROGRESS (quest_id quest) (req_type requirement)
                    (inject_Z overall)) ;;
        dispatch (UPDATE_QUESTS
                    (map (fun q =>
                            if String.eqb (quest_id q) (quest_id quest)
                            then set_requirements_progress q updated
                                   (Some (inject_Z overall))
                            else q)
                         (quests (user state)))
                    (filter isCompleted (quests (user state))))
  end.

End Handlers.

End GameContext.

(* ===================================================================== *)
(** ** The [useBattle] hook: [handleAnswer] *)
(* ===================================================================== *)

Module UseBattle.
Import GameContext.

Section Hook.

Variable now : Z.
Variable calculateQuestProgress : Quest -> User -> Q.

(** [BattleService.checkAnswer(question, answer)]. *)
Variable checkAnswer : BattleQuestion -> string -> bool.

(** The result of awaiting [BattleService.saveBattleProgress(...)]: [None]
    when the save succeeds, the error message when it throws. *)
Variable saveBattleProgress : BattleState -> string -> option string.

(** [state.battle.questions[state.battle.currentQuestionIndex]]. *)
Definition questionAt (b : BattleState) : option BattleQuestion :=
  match currentQuestionIndex b with
  | Some i => if i <? 0 then None else nth_error (questions b) (Z.to_nat i)
  | None => None
  end.

(** [handleBattleError(error)]. *)
Definition handleBattleError (mounted : bool) (msg : string) : Handler unit :=
  if negb mounted then ret tt
  else dispatch now calculateQuestProgress (SET_BATTLE_ERROR msg None).

(** [handleAnswer(answer, timeSpent)]; [battleStateRef] is the battle state
    that the hook's ref holds. *)
Definition handleAnswer (mounted : bool) (battleStateRef : BattleState)
    (state : GameState) (answer : string) (timeSpent : Q) : Handler unit :=
  if negb mounted || negb (String.eqb (status (battle state)) "active") then ret tt
  else
    try_catch
      (match questionAt (battle state) with
       | None => throw "No current question found"
       | Some currentQuestion =>
           let isCorrect := checkAnswer currentQuestion answer in
           dispatch now calculateQuestProgress (ANSWER_QUESTION isCorrect timeSpent) ;;
           match saveBattleProgress battleStateRef (id (user state)) with
           | None => ret tt
           | Some msg => throw msg
           end
       end)
      (fun msg => handleBattleError mounted msg).

(** Submitting an answer from the current store: the hook's closure holds
    the state of the latest render. *)
Definition submitAnswer (mounted : bool) (s : GameState) (answer : string)
    (timeSpent : Q) : GameState :=
  store (snd (handleAnswer mounted (battle s) s answer timeSpent (mkWorld s []))).

End Hook.
End UseBattle.


(* ===================================================================== *)
(** ** The battle context: [battleReducer] *)
(* ===================================================================== *)

Module BattleContext.
Import JS.

(** [BattleStatus] of [types/battle.ts]. *)
Inductive BattleStatus : Type :=
| SEARCHING   (* 'searching' *)
| READY       (* 'ready' *)
| IN_BATTLE   (* 'battle' *)
| COMPLETED.  (* 'completed' *)

Definition BattleStatus_eqb (a b : BattleStatus) : bool :=
  match a, b with
  | SEARCHING, SEARCHING | READY, READY | IN_BATTLE, IN_BATTLE
  | COMPLETED, COMPLETED => true
  | _, _ => false
  end.

Record BattleState : Type := mkBattleState {
  status : BattleStatus;
  inProgress : bool;
  questions : list GameContext.BattleQuestion;
  currentQuestion : Z;
  score : GameContext.BattleScore;
  timeLeft : Z;
  timePerQuestion : Z;
  playerAnswers : list bool;
  rewards : option GameContext.BattleRewards
}.

(** A payload that is spread over the state ([...action.payload]). *)
Record BattlePatch : Type := mkBattlePatch {
  patch_status : option BattleStatus;
  patch_inProgress : option bool;
  patch_questions : option (list GameContext.BattleQuestion);
  patch_currentQuestion : option Z;
  patch_score : option GameContext.BattleScore;
  patch_timeLeft : option Z;
  patch_timePerQuestion : option Z;
  patch_playerAnswers : option (list bool);
  patch_rewards : option GameContext.BattleRewards
}.

Inductive BattleAction : Type :=
| START_BATTLE
| SET_STATUS (payload : BattleStatus)
| INITIALIZE_BATTLE (qs : list GameContext.BattleQuestion) (timePerQuestion : Z)
| UPDATE_BATTLE_PROGRESS (payload : BattlePatch)
| ADVANCE_QUESTION (payload : Z)
| SET_TIME_LEFT (payload : Z)
| END_BATTLE (payload : BattlePatch)
| RESET_BATTLE.

Definition or_else {A : Type} (o : option A) (d : A) : A :=
  match o with Some a => a | None => d end.

Section Reducer.
Variable BATTLE_CONFIG : BattleConfigT.

Definition initialState : BattleState :=
  mkBattleState SEARCHING false [] 0 (GameContext.mkBattleScore 0 0)
    (cfg_timePerQuestion BATTLE_CONFIG) (cfg_timePerQuestion BATTLE_CONFIG) [] None.

Definition length_Z {A : Type} (l : list A) : Z := Z.of_nat (List.length l).

(** [battleReducer(state, action)]. *)
Definition battleReducer (state : BattleState) (action : BattleAction) : BattleState :=
  match action with
  | START_BATTLE =>
      mkBattleState SEARCHING true (questions initialState)
        (currentQuestion initialState) (score initialState)
        (cfg_timePerQuestion BATTLE_CONFIG) (timePerQuestion initialState)
        (playerAnswers initialState) (rewards initialState)
  | SET_STATUS payload =>
      mkBattleState payload (inProgress state) (questions state)
        (currentQuestion state) (score state)
        (if BattleStatus_eqb payload IN_BATTLE
         then cfg_timePerQuestion BATTLE_CONFIG else timeLeft state)
        (timePerQuestion state) (playerAnswers state) (rewards state)
  | INITIALIZE_BATTLE qs tpq =>
      mkBattleState READY true qs 0 (GameContext.mkBattleScore 0 0)
        (cfg_timePerQuestion BATTLE_CONFIG) tpq [] (rewards state)
  | UPDATE_BATTLE_PROGRESS payload =>
      mkBattleState (or_else (patch_status payload) (status state))
        true
        (questions state)
        (or_else (patch_currentQuestion payload) (currentQuestion state))
        (or_else (patch_score payload) (score state))
        (or_else (patch_timeLeft payload) (timeLeft state))
        (or_else (patch_timePerQuestion payload) (timePerQuestion state))
        (or_else (patch_playerAnswers payload) (playerAnswers state))
        (match patch_rewards payload with Some r => Some r | None => rewards state end)
  | ADVANCE_QUESTION payload =>
      let nextQuestion := payload in
      if length_Z (questions state) <=? nextQuestion then
        mkBattleState COMPLETED false (questions state)
          (length_Z (questions state) - 1) (score state) (timeLeft state)
          (timePerQuestion state) (playerAnswers state) (rewards state)
      else
        mkBattleState IN_BATTLE (inProgress state) (questions state)
          nextQuestion (score state) (cfg_timePerQuestion BATTLE_CONFIG)
          (timePerQuestion state) (playerAnswers state) (rewards state)
  | SET_TIME_LEFT payload =>
      if negb (inProgress state) || negb (BattleStatus_eqb (status state) IN_BATTLE)
      then state
      else
        let newTimeLeft := Z.max 0 payload in
        if (newTimeLeft =? 0)
           && (currentQuestion state <? length_Z (questions state) - 1)
        then
          mkBattleState (status state) (inProgress state) (questions state)
            (currentQuestion state + 1) (score state)
            (cfg_timePerQuestion BATTLE_CONFIG)
            (timePerQuestion state) (playerAnswers state) (rewards state)
        else
          mkBattleState (status state) (inProgress state) (questions state)
            (currentQuestion state) (score state) newTimeLeft
            (timePerQuestion state) (playerAnswers state) (rewards state)
  | END_BATTLE payload =>
      mkBattleState COMPLETED false
        (or_else (patch_questions payload) (questions state))
        (or_else (patch_currentQuestion payload) (currentQuestion state))
        (or_else (patch_score payload) (score state))
        (or_else (patch_timeLeft payload) (timeLeft state))
        (or_else (patch_timePerQuestion payload) (timePerQuestion state))
        (or_else (patch_playerAnswers payload) (playerAnswers state))
        (match patch_rewards payload with Some r => Some r | None => rewards state end)
  | RESET_BATTLE =>
      mkBattleState (status initialState) (inProgress initialState)
        (questions initialState) (currentQuestion initialState)
        (score initialState) (cfg_timePerQuestion BATTLE_CONFIG)
        (cfg_timePerQuestion BATTLE_CONFIG) (playerAnswers initialState)
        (rewards initialState)
  end.

End Reducer.
End BattleContext.

(* ===================================================================== *)
(** ** services/battleService.ts: [recoverBattleState] *)
(* ===================================================================== *)

Module BattleService.

(** [battle_state] of a row of the [battle_saves] table.  [timestamp] is
    [new Date(timestamp).getTime()]: [None] stands for [NaN], the time of a
    string that is not a date. *)
Record SavedBattle : Type := mkSavedBattle {
  saved_questions : list GameContext.BattleQuestion;
  saved_currentQuestion : Z;
  saved_playerAnswers : list bool;
  saved_score : GameContext.BattleScore;
  saved_timeLeft : Z;
  saved_status : string;
  saved_lastError : option string;
  timestamp : option Z
}.

Record SaveRow : Type := mkSaveRow {
  row_id : Z;
  row_user_id : string;
  row_created_at : Z;
  battle_state : option SavedBattle
}.

(** The remote table. *)
Definition Table : Type := list SaveRow.

Inductive Outcome (A : Type) : Type :=
| Returned (a : A)
| Thrown (code : string).
Arguments Returned {A} a.
Arguments Thrown {A} code.

(** [.order('created_at', { ascending: false }).limit(1)] over the rows
    already filtered: the row with the greatest [created_at]. *)
Fixpoint latest (rows : list SaveRow) : option SaveRow :=
  match rows with
  | [] => None
  | r :: rows' =>
      match latest rows' with
      | Some r' => if row_created_at r <? row_created_at r' then Some r' else Some r
      | None => Some r
      end
  end.

(** The select of [recoverBattleState]: [.single()] answers with error
    [PGRST116] when no row is left; [fault] is the error code of a request
    that fails for another reason. *)
Definition select_single (fault : option string) (userId : string) (db : Table)
    : SaveRow + string :=
  match fault with
  | Some code => inr code
  | None =>
      match latest (filter (fun r => String.eqb (row_user_id r) userId) db) with
      | Some r => inl r
      | None => inr "PGRST116"%string
      end
  end.

(** [.delete().eq('id', id)]. *)
Definition delete_by_id (rid : Z) (db : Table) : Table :=
  filter (fun r => negb (row_id r =? rid)) db.

Definition hourInMs : Z := 60 * 60 * 1000.

(** [currentTime - savedTime > hourInMs]; a comparison with [NaN] is false. *)
Definition isStale (currentTime : Z) (savedTime : option Z) : bool :=
  match savedTime with
  | Some t => hourInMs <? currentTime - t
  | None => false
  end.

(** [recoverBattleState(userId)]: the value returned ([None] is [null]) or
    the error thrown, and the table afterwards. *)
Definition recoverBattleState (fault : option string) (currentTime : Z)
    (userId : string) (db : Table) : Outcome (option SavedBattle) * Table :=
  match select_single fault userId db with
  | inr code =>
      if String.eqb code "PGRST116" then (Returned None, db)
      else (Thrown code, db)
  | inl data =>
      match battle_state data with
      | None => (Returned None, db)
      | Some saved =>
          if isStale currentTime (timestamp saved)
          then (Returned None, delete_by_id (row_id data) db)
          else (Returned (Some saved), delete_by_id (row_id data) db)
      end
  end.

End BattleService.

(* ===================================================================== *)
(** * Properties *)
(* ===================================================================== *)

(** ** Double-precision arithmetic *)

Module Float64Props.
Import Float64.

Lemma two_pos : (0 < 2)%Q.
Proof. reflexivity. Qed.

Lemma two_ge1 : (1 <= 2)%Q.
Proof. discriminate. Qed.

Lemma two_gt1 : (1 < 2)%Q.
Proof. reflexivity. Qed.

Lemma two_neq0 : ~ (2 == 0)%Q.
Proof. discriminate. Qed.

Lemma pow2_pos (n : Z) : (0 < pow2 n)%Q.
Proof. apply Qpower_0_lt. exact two_pos. Qed.

Lemma pow2_plus (a b : Z) : (pow2 (a + b) == pow2 a * pow2 b)%Q.
Proof. apply Qpower_plus. exact two_neq0. Qed.

Lemma pow2_le (a b : Z) : a <= b -> (pow2 a <= pow2 b)%Q.
Proof. intros H. apply Qpower_le_compat_l; [exact H | exact two_ge1]. Qed.

Lemma pow2_lt (a b : Z) : a < b -> (pow2 a < pow2 b)%Q.
Proof. intros H. apply Qpower_lt_compat_l; [exact H | exact two_gt1]. Qed.

Lemma pow2_lt_inv (a b : Z) : (pow2 a < pow2 b)%Q -> a < b.
Proof. intros H. apply (Qpower_lt_compat_l_inv 2); [exact H | exact two_gt1]. Qed.

Lemma pow2_Z (n : Z) : 0 <= n -> (pow2 n == inject_Z (2 ^ n))%Q.
Proof. intros H. unfold pow2. rewrite Zpower_Qpower by exact H. reflexivity. Qed.

Lemma pow2_succ (a : Z) : (pow2 (a + 1) == 2 * pow2 a)%Q.
Proof. rewrite pow2_plus. change (pow2 1) with 2%Q. ring. Qed.

(** rne *)
Lemma rne_mono (x y : Q) : (x <= y)%Q -> rne x <= rne y.
Proof.
  intros Hxy. unfold rne.
  pose proof (Qfloor_le x) as Hx1. pose proof (Qlt_floor x) as Hx2.
  pose proof (Qfloor_le y) as Hy1. pose proof (Qlt_floor y) as Hy2.
  pose proof (Qfloor_resp_le _ _ Hxy) as Hf.
  rewrite inject_Z_plus in Hx2, Hy2.
  change (inject_Z 1) with 1%Q in Hx2, Hy2.
  remember (Qfloor x) as fx. remember (Qfloor y) as fy.
  destruct (Z.eq_dec fx fy) as [E | E].
  - subst fy. rewrite <- E in *.
    destruct (Qcompare_spec (x - inject_Z fx) (1 # 2)) as [H1 | H1 | H1];
      destruct (Qcompare_spec (y - inject_Z fx) (1 # 2)) as [H2 | H2 | H2];
      try lia; try (exfalso; lra); destruct (Z.even fx); lia.
  - assert (Hlt : fx + 1 <= fy) by lia.
    destruct (Qcompare (x - inject_Z fx) (1 # 2));
      destruct (Qcompare (y - inject_Z fy) (1 # 2));
      try destruct (Z.even fx); try destruct (Z.even fy); lia.
Qed.

Lemma rne_comp (x y : Q) : (x == y)%Q -> rne x = rne y.
Proof.
  intros H. apply Z.le_antisymm; apply rne_mono; rewrite H; apply Qle_refl.
Qed.

Lemma rne_Z (n : Z) : rne (inject_Z n) = n.
Proof.
  unfold rne. rewrite Qfloor_Z.
  assert (H : (inject_Z n - inject_Z n == 0)%Q) by ring.
  rewrite H. reflexivity.
Qed.

Lemma rne_error (x : Q) : (x - (1 # 2) <= inject_Z (rne x) <= x + (1 # 2))%Q.
Proof.
  unfold rne.
  pose proof (Qfloor_le x) as Hx1. pose proof (Qlt_floor x) as Hx2.
  rewrite inject_Z_plus in Hx2. change (inject_Z 1) with 1%Q in Hx2.
  remember (Qfloor x) as fx.
  assert (Hp : (inject_Z (fx + 1) == inject_Z fx + 1)%Q)
    by (rewrite inject_Z_plus; reflexivity).
  destruct (Qcompare_spec (x - inject_Z fx) (1 # 2)) as [H1 | H1 | H1];
    try destruct (Z.even fx); try rewrite Hp; split; lra.
Qed.

(** exponent *)
Lemma log2_bounds (z : Z) : 0 < z ->
  (pow2 (Z.log2 z) <= inject_Z z < 2 * pow2 (Z.log2 z))%Q.
Proof.
  intros Hz. destruct (Z.log2_spec z Hz) as [H1 H2].
  pose proof (Z.log2_nonneg z) as H0.
  rewrite <- pow2_succ. rewrite !pow2_Z by lia.
  split; [rewrite <- Zle_Qle; exact H1 | rewrite <- Zlt_Qlt; exact H2].
Qed.

Lemma exponent_spec (q : Q) : (0 < q)%Q ->
  (pow2 (exponent q) <= q < pow2 (exponent q + 1))%Q.
Proof.
  intros Hq. unfold exponent.
  destruct q as [n d]. cbn [Qnum Qden].
  assert (Hn : 0 < n) by (unfold Qlt in Hq; simpl in Hq; lia).
  destruct (log2_bounds n Hn) as [Hn1 Hn2].
  destruct (log2_bounds (Zpos d) eq_refl) as [Hd1 Hd2].
  pose proof (pow2_pos (Z.log2 n)) as Ha.
  pose proof (pow2_pos (Z.log2 (Zpos d))) as Hb.
  set (c := Z.log2 n - Z.log2 (Zpos d)).
  assert (Hc : (pow2 c == pow2 (Z.log2 n) / pow2 (Z.log2 (Zpos d)))%Q).
  { unfold c, pow2. apply Qpower_minus. exact two_neq0. }
  assert (Hq' : (n # d == inject_Z n / inject_Z (Zpos d))%Q) by apply Qmake_Qdiv.
  assert (HD : (0 < inject_Z (Zpos d))%Q) by reflexivity.
  set (N := inject_Z n) in *. set (D := inject_Z (Zpos d)) in *.
  set (a := pow2 (Z.log2 n)) in *. set (b := pow2 (Z.log2 (Zpos d))) in *.
  assert (Hup : (n # d < 2 * pow2 c)%Q).
  { rewrite Hq', Hc. apply Qlt_shift_div_r; [exact HD |].
    assert (E : (2 * (a / b) * D == (2 * a * D) / b)%Q) by (field; lra).
    rewrite E. apply Qlt_shift_div_l; [exact Hb |]. nra. }
  assert (Hlow : (pow2 c < 2 * (n # d))%Q).
  { rewrite Hq', Hc. apply Qlt_shift_div_r; [exact Hb |].
    assert (E : (2 * (N / D) * b == (2 * N * b) / D)%Q) by (field; lra).
    rewrite E. apply Qlt_shift_div_l; [exact HD |]. nra. }
  destruct (Qle_bool (pow2 c) (n # d)) eqn:E.
  - apply Qle_bool_iff in E. rewrite pow2_succ. split; assumption.
  - assert (Hlt : (n # d < pow2 c)%Q).
    { apply Qnot_le_lt. intros H. apply Qle_bool_iff in H. congruence. }
    replace (c - 1 + 1) with c by lia.
    assert (Hp : (pow2 c == 2 * pow2 (c - 1))%Q).
    { rewrite <- pow2_succ. replace (c - 1 + 1) with c by lia. reflexivity. }
    split; [lra | exact Hlt].
Qed.

Lemma exponent_unique (q : Q) (e : Z) : (0 < q)%Q ->
  (pow2 e <= q < pow2 (e + 1))%Q -> exponent q = e.
Proof.
  intros Hq [H1 H2]. destruct (exponent_spec q Hq) as [H3 H4].
  assert (A : e < exponent q + 1) by (apply pow2_lt_inv; lra).
  assert (B : exponent q < e + 1) by (apply pow2_lt_inv; lra).
  lia.
Qed.

Lemma exponent_comp (x y : Q) : (0 < x)%Q -> (x == y)%Q -> exponent x = exponent y.
Proof.
  intros Hx H. apply exponent_unique; [exact Hx |].
  rewrite H. apply exponent_spec. rewrite <- H. exact Hx.
Qed.

Lemma exponent_mono (x y : Q) : (0 < x)%Q -> (x <= y)%Q -> exponent x <= exponent y.
Proof.
  intros Hx Hxy.
  destruct (exponent_spec x Hx) as [H1 _].
  destruct (exponent_spec y) as [_ H2]; [lra |].
  assert (A : exponent x < exponent y + 1) by (apply pow2_lt_inv; lra).
  lia.
Qed.

Lemma exponent_le (q : Q) (k : Z) : (0 < q)%Q -> (q <= pow2 k)%Q -> exponent q <= k.
Proof.
  intros Hq H. destruct (exponent_spec q Hq) as [H1 _].
  assert (A : exponent q < k + 1).
  { apply pow2_lt_inv. rewrite (pow2_succ k). pose proof (pow2_pos k). lra. }
  lia.
Qed.

(** round_pos *)
Lemma round_pos_grid_le (q : Q) (k : Z) : 
  (q <= inject_Z k * pow2 (shift q))%Q -> (round_pos q <= inject_Z k * pow2 (shift q))%Q.
Proof.
  intros H. unfold round_pos.
  pose proof (pow2_pos (shift q)) as Hu.
  apply Qmult_le_compat_r; [| lra].
  rewrite <- Zle_Qle. rewrite <- (rne_Z k). apply rne_mono.
  apply Qle_shift_div_r; assumption.
Qed.

Lemma round_pos_grid_ge (q : Q) (k : Z) : 
  (inject_Z k * pow2 (shift q) <= q)%Q -> (inject_Z k * pow2 (shift q) <= round_pos q)%Q.
Proof.
  intros H. unfold round_pos.
  pose proof (pow2_pos (shift q)) as Hu.
  apply Qmult_le_compat_r; [| lra].
  rewrite <- Zle_Qle. rewrite <- (rne_Z k) at 1. apply rne_mono.
  apply Qle_shift_div_l; assumption.
Qed.

Lemma round_pos_nonneg (q : Q) : (0 <= q)%Q -> (0 <= round_pos q)%Q.
Proof.
  intros H. assert (E : (0 == inject_Z 0 * pow2 (shift q))%Q) by (simpl; ring).
  rewrite E at 1. apply round_pos_grid_ge. rewrite <- E. exact H.
Qed.

Lemma round_pos_mono (x y : Q) : (0 < x)%Q -> (x <= y)%Q -> (round_pos x <= round_pos y)%Q.
Proof.
  intros Hx Hxy.
  assert (Hy : (0 < y)%Q) by lra.
  pose proof (exponent_mono x y Hx Hxy) as He.
  destruct (Z.eq_dec (shift x) (shift y)) as [E | E].
  - unfold round_pos. rewrite E.
    pose proof (pow2_pos (shift y)) as Hu.
    apply Qmult_le_compat_r; [| lra].
    rewrite <- Zle_Qle. apply rne_mono.
    apply Qmult_le_compat_r; [exact Hxy |].
    apply Qlt_le_weak. apply Qinv_lt_0_compat. exact Hu.
  - assert (Hs : shift x < shift y) by (unfold shift in *; lia).
    assert (Hsy : shift y = exponent y - 52) by (unfold shift in *; lia).
    assert (Hex : exponent x + 1 <= exponent y) by (unfold shift in *; lia).
    destruct (exponent_spec x Hx) as [_ Hx2].
    destruct (exponent_spec y Hy) as [Hy1 _].
    apply Qle_trans with (pow2 (exponent y)).
    + assert (G : (pow2 (exponent y)
                   == inject_Z (2 ^ (exponent y - shift x)) * pow2 (shift x))%Q).
      { rewrite <- pow2_Z by lia. rewrite <- pow2_plus.
        replace (exponent y - shift x + shift x) with (exponent y) by lia. reflexivity. }
      rewrite G. apply round_pos_grid_le. rewrite <- G.
      pose proof (pow2_le _ _ Hex). lra.
    + assert (G : (pow2 (exponent y) == inject_Z (2 ^ 52) * pow2 (shift y))%Q).
      { rewrite <- pow2_Z by lia. rewrite <- pow2_plus. rewrite Hsy.
        replace (52 + (exponent y - 52)) with (exponent y) by lia. reflexivity. }
      rewrite G. apply round_pos_grid_ge. rewrite <- G. exact Hy1.
Qed.

Lemma shift_comp (x y : Q) : (0 < x)%Q -> (x == y)%Q -> shift x = shift y.
Proof. intros Hx H. unfold shift. rewrite (exponent_comp x y Hx H). reflexivity. Qed.

Lemma round_pos_comp (x y : Q) : (0 < x)%Q -> (x == y)%Q -> (round_pos x == round_pos y)%Q.
Proof.
  intros Hx H. unfold round_pos. rewrite (shift_comp x y Hx H).
  rewrite (rne_comp (x / pow2 (shift y)) (y / pow2 (shift y))); [reflexivity |].
  rewrite H. reflexivity.
Qed.

(** fl *)
Lemma fl_pos (q : Q) : (0 < q)%Q -> (fl q == round_pos q)%Q.
Proof.
  intros H. unfold fl, round. rewrite Qred_correct.
  destruct (Qcompare_spec q 0) as [E | E | E]; [lra | lra | reflexivity].
Qed.

Lemma fl_neg (q : Q) : (q < 0)%Q -> (fl q == - round_pos (- q))%Q.
Proof.
  intros H. unfold fl, round. rewrite Qred_correct.
  destruct (Qcompare_spec q 0) as [E | E | E]; [lra | reflexivity | lra].
Qed.

Lemma fl_zero (q : Q) : (q == 0)%Q -> (fl q == 0)%Q.
Proof.
  intros H. unfold fl, round. rewrite Qred_correct.
  destruct (Qcompare_spec q 0) as [E | E | E]; [reflexivity | lra | lra].
Qed.

Lemma fl_mono (x y : Q) : (x <= y)%Q -> (fl x <= fl y)%Q.
Proof.
  intros Hxy.
  destruct (Qlt_le_dec 0 x) as [Hx | Hx].
  - rewrite (fl_pos x Hx), (fl_pos y) by lra. apply round_pos_mono; assumption.
  - destruct (Qlt_le_dec 0 y) as [Hy | Hy].
    + rewrite (fl_pos y Hy).
      apply Qle_trans with 0%Q; [| apply round_pos_nonneg; lra].
      destruct (Qlt_le_dec x 0) as [Hx' | Hx'].
      * rewrite (fl_neg x Hx'). pose proof (round_pos_nonneg (- x)). lra.
      * rewrite (fl_zero x) by lra. lra.
    + destruct (Qlt_le_dec y 0) as [Hy' | Hy'].
      * rewrite (fl_neg x), (fl_neg y Hy') by lra.
        assert (H : (round_pos (- y) <= round_pos (- x))%Q)
          by (apply round_pos_mono; lra).
        lra.
      * rewrite (fl_zero y) by lra.
        destruct (Qlt_le_dec x 0) as [Hx' | Hx'].
        -- rewrite (fl_neg x Hx'). pose proof (round_pos_nonneg (- x)). lra.
        -- rewrite (fl_zero x) by lra. lra.
Qed.

Lemma fl_comp (x y : Q) : (x == y)%Q -> fl x = fl y.
Proof.
  intros H. unfold fl, round. apply Qred_complete.
  destruct (Qcompare_spec x 0) as [E | E | E];
    destruct (Qcompare_spec y 0) as [E' | E' | E']; try lra.
  - assert (Hr : (round_pos (- x) == round_pos (- y))%Q)
      by (apply round_pos_comp; lra).
    rewrite Hr. reflexivity.
  - apply round_pos_comp; assumption.
Qed.

Lemma shift_ge (q : Q) : -1074 <= shift q.
Proof. unfold shift. lia. Qed.

Lemma round_pos_error (q : Q) :
  (q - pow2 (shift q) * (1 # 2) <= round_pos q <= q + pow2 (shift q) * (1 # 2))%Q.
Proof.
  unfold round_pos. pose proof (pow2_pos (shift q)) as Hu.
  set (u := pow2 (shift q)) in *.
  destruct (rne_error (q / u)) as [H1 H2].
  assert (E : (q == q / u * u)%Q) by (field; lra).
  set (z := (q / u)%Q) in *. set (r := inject_Z (rne z)) in *.
  split; nra.
Qed.

Lemma shift_le (q : Q) (k : Z) :
  (0 < q)%Q -> (q <= pow2 k)%Q -> -1022 <= k -> shift q <= k - 52.
Proof.
  intros Hq H Hk. pose proof (exponent_le q k Hq H). unfold shift. lia.
Qed.

Lemma pow2_half (k : Z) : (pow2 k * (1 # 2) == pow2 (k - 1))%Q.
Proof.
  assert (E : (pow2 k == 2 * pow2 (k - 1))%Q).
  { rewrite <- pow2_succ. replace (k - 1 + 1) with k by lia. reflexivity. }
  rewrite E. field.
Qed.

(** Rounding error of a number of magnitude at most [2^k]. *)
Lemma fl_error (q : Q) (k : Z) :
  -1022 <= k -> (- pow2 k <= q)%Q -> (q <= pow2 k)%Q ->
  (q - pow2 (k - 53) <= fl q <= q + pow2 (k - 53))%Q.
Proof.
  intros Hk Hlo Hhi.
  pose proof (pow2_pos (k - 53)) as Hp.
  assert (Hb : forall x, (0 < x)%Q -> (x <= pow2 k)%Q ->
                 (pow2 (shift x) * (1 # 2) <= pow2 (k - 53))%Q).
  { intros x Hx Hxk. rewrite pow2_half. apply pow2_le.
    pose proof (shift_le x k Hx Hxk Hk). lia. }
  destruct (Qlt_le_dec 0 q) as [Hq | Hq].
  - rewrite (fl_pos q Hq). pose proof (round_pos_error q) as [H1 H2].
    pose proof (Hb q Hq Hhi). split; lra.
  - destruct (Qlt_le_dec q 0) as [Hq' | Hq'].
    + rewrite (fl_neg q Hq'). pose proof (round_pos_error (- q)) as [H1 H2].
      assert (Hm : (0 < - q)%Q) by lra.
      assert (Hmk : (- q <= pow2 k)%Q) by lra.
      pose proof (Hb (- q)%Q Hm Hmk). split; lra.
    + rewrite (fl_zero q) by lra. split; lra.
Qed.

(** A multiple [m * 2^e] of a power of two with [|m| <= 2^53] and
    [e >= -1074] is a double. *)
Lemma round_pos_exact (q : Q) (m e : Z) :
  (q == inject_Z m * pow2 e)%Q -> 0 < m <= 2 ^ 53 -> -1074 <= e ->
  (round_pos q == q)%Q.
Proof.
  intros Hq Hm He.
  pose proof (pow2_pos e) as Hpe.
  assert (Hm' : (0 < inject_Z m)%Q) by (change 0%Q with (inject_Z 0); rewrite <- Zlt_Qlt; lia).
  assert (Hpos : (0 < q)%Q) by (rewrite Hq; nra).
  assert (Hm53 : (inject_Z m <= pow2 53)%Q).
  { rewrite pow2_Z by lia. rewrite <- Zle_Qle. lia. }
  assert (Hle : (q <= pow2 (53 + e))%Q).
  { rewrite pow2_plus, Hq. nra. }
  pose proof (exponent_le q (53 + e) Hpos Hle) as Hexp.
  pose proof (pow2_pos (shift q)) as Hu.
  assert (Hint : exists j : Z, (q == inject_Z j * pow2 (shift q))%Q).
  { destruct (Z_le_gt_dec (shift q) e) as [Hs | Hs].
    - exists (m * 2 ^ (e - shift q)).
      rewrite inject_Z_mult, <- pow2_Z by lia.
      rewrite <- Qmult_assoc, <- pow2_plus.
      replace (e - shift q + shift q) with e by lia. exact Hq.
    - assert (Hexp' : exponent q = 53 + e) by (unfold shift in *; lia).
      assert (Hsh : shift q = e + 1) by (unfold shift in *; lia).
      destruct (exponent_spec q Hpos) as [H1 _]. rewrite Hexp' in H1.
      rewrite pow2_plus, Hq in H1.
      assert (Hmeq : (pow2 53 <= inject_Z m)%Q) by nra.
      assert (Hmz : m = 2 ^ 53).
      { rewrite pow2_Z in Hmeq by lia. rewrite <- Zle_Qle in Hmeq. lia. }
      exists (2 ^ 52). rewrite Hsh, pow2_succ, Hq, Hmz.
      change (inject_Z (2 ^ 53)) with (2 * inject_Z (2 ^ 52))%Q. ring. }
  destruct Hint as [j Hj].
  unfold round_pos.
  assert (Hz : (q / pow2 (shift q) == inject_Z j)%Q).
  { rewrite Hj at 1. field. lra. }
  rewrite (rne_comp _ _ Hz), rne_Z. symmetry. exact Hj.
Qed.

Lemma round_pos_is_grid (q : Q) : (0 < q)%Q ->
  0 <= rne (q / pow2 (shift q)) <= 2 ^ 53.
Proof.
  intros Hq. pose proof (pow2_pos (shift q)) as Hu.
  destruct (exponent_spec q Hq) as [_ H2].
  split.
  - rewrite <- (rne_Z 0). apply rne_mono.
    apply Qle_shift_div_l; [exact Hu | change (inject_Z 0) with 0%Q; lra].
  - rewrite <- (rne_Z (2 ^ 53)). apply rne_mono.
    apply Qle_shift_div_r; [exact Hu |].
    rewrite <- pow2_Z by lia. rewrite <- pow2_plus.
    apply Qle_trans with (pow2 (exponent q + 1)); [lra |].
    apply pow2_le. unfold shift. lia.
Qed.

Lemma round_pos_idem (q : Q) : (0 < q)%Q ->
  (round_pos q == 0)%Q \/ ((0 < round_pos q)%Q /\ (round_pos (round_pos q) == round_pos q)%Q).
Proof.
  intros Hq. destruct (round_pos_is_grid q Hq) as [H0 H53].
  pose proof (pow2_pos (shift q)) as Hu.
  destruct (Z.eq_dec (rne (q / pow2 (shift q))) 0) as [E | E].
  - left. unfold round_pos. rewrite E. simpl. ring.
  - right. 
    assert (Hj : (0 < inject_Z (rne (q / pow2 (shift q))))%Q)
      by (change 0%Q with (inject_Z 0); rewrite <- Zlt_Qlt; lia).
    split.
    + unfold round_pos. nra.
    + apply (round_pos_exact _ (rne (q / pow2 (shift q))) (shift q)).
      * reflexivity.
      * lia.
      * apply shift_ge.
Qed.

Lemma fl_idem (q : Q) : fl (fl q) = fl q.
Proof.
  assert (H : (fl (fl q) == fl q)%Q).
  { destruct (Qlt_le_dec 0 q) as [Hq | Hq].
    - rewrite (fl_comp (fl q) (round_pos q)) by (apply fl_pos; exact Hq).
      rewrite (fl_pos q Hq).
      destruct (round_pos_idem q Hq) as [Hz | [Hp Hi]].
      + rewrite (fl_zero _ Hz). symmetry. exact Hz.
      + rewrite (fl_pos _ Hp). exact Hi.
    - destruct (Qlt_le_dec q 0) as [Hq' | Hq'].
      + rewrite (fl_comp (fl q) (- round_pos (- q))) by (apply fl_neg; exact Hq').
        rewrite (fl_neg q Hq').
        assert (Hm : (0 < - q)%Q) by lra.
        destruct (round_pos_idem (- q) Hm) as [Hz | [Hp Hi]].
        * rewrite (fl_zero (- round_pos (- q))) by lra. lra.
        * rewrite (fl_neg (- round_pos (- q))) by lra.
          assert (Hc : (round_pos (- - round_pos (- q)) == round_pos (round_pos (- q)))%Q).
          { apply round_pos_comp; [lra | ring]. }
          rewrite Hc, Hi. reflexivity.
      + rewrite (fl_comp (fl q) 0) by (apply fl_zero; lra).
        rewrite (fl_zero q) by lra. apply fl_zero. reflexivity. }
  unfold fl at 1. unfold fl at 2. apply Qred_complete.
  unfold fl at 1 in H. rewrite Qred_correct in H. rewrite H.
  unfold fl. apply Qred_correct.
Qed.

(** Whole numbers below [2^53] are doubles. *)
Lemma fl_Z (z : Z) : - 2 ^ 53 <= z <= 2 ^ 53 -> (fl (inject_Z z) == inject_Z z)%Q.
Proof.
  intros Hz.
  destruct (Z.lt_trichotomy z 0) as [H | [H | H]].
  - assert (Hq : (inject_Z z < 0)%Q) by (change 0%Q with (inject_Z 0); rewrite <- Zlt_Qlt; lia).
    rewrite (fl_neg _ Hq).
    rewrite (round_pos_exact (- inject_Z z) (- z) 0); [ring | | lia | lia].
    rewrite inject_Z_opp. change (pow2 0) with 1%Q. ring.
  - subst z. apply fl_zero. reflexivity.
  - assert (Hq : (0 < inject_Z z)%Q) by (change 0%Q with (inject_Z 0); rewrite <- Zlt_Qlt; lia).
    rewrite (fl_pos _ Hq).
    apply (round_pos_exact _ z 0); [| lia | lia].
    change (pow2 0) with 1%Q. ring.
Qed.

Lemma fl_nonneg (x : Q) : (0 <= x)%Q -> (0 <= fl x)%Q.
Proof.
  intros H. assert (E : fl 0 = 0%Q) by reflexivity.
  rewrite <- E. apply fl_mono. exact H.
Qed.

(** Rounding never crosses a double. *)
Lemma fl_upper (x c : Q) : fl c = c -> (x <= c)%Q -> (fl x <= c)%Q.
Proof. intros E H. rewrite <- E. apply fl_mono. exact H. Qed.

Lemma fl_lower (x c : Q) : fl c = c -> (c <= x)%Q -> (c <= fl x)%Q.
Proof. intros E H. rewrite <- E. apply fl_mono. exact H. Qed.

Lemma fadd_mono (a a' b b' : Q) :
  (a <= a')%Q -> (b <= b')%Q -> (fadd a b <= fadd a' b')%Q.
Proof.
  intros Ha Hb. unfold fadd. apply fl_mono.
  pose proof (fl_mono a a' Ha). pose proof (fl_mono b b' Hb). lra.
Qed.

Lemma fsub_mono (a a' b b' : Q) :
  (a <= a')%Q -> (b' <= b)%Q -> (fsub a b <= fsub a' b')%Q.
Proof.
  intros Ha Hb. unfold fsub. apply fl_mono.
  pose proof (fl_mono a a' Ha). pose proof (fl_mono b' b Hb). lra.
Qed.

Lemma fmul_mono (a a' b b' : Q) :
  (0 <= a)%Q -> (a <= a')%Q -> (0 <= b)%Q -> (b <= b')%Q ->
  (fmul a b <= fmul a' b')%Q.
Proof.
  intros Ha0 Ha Hb0 Hb. unfold fmul. apply fl_mono.
  pose proof (fl_mono a a' Ha). pose proof (fl_mono b b' Hb).
  pose proof (fl_nonneg a Ha0). pose proof (fl_nonneg b Hb0). nra.
Qed.

Lemma fmul_nonneg (a b : Q) : (0 <= a)%Q -> (0 <= b)%Q -> (0 <= fmul a b)%Q.
Proof.
  intros Ha Hb. unfold fmul. apply fl_nonneg.
  pose proof (fl_nonneg a Ha). pose proof (fl_nonneg b Hb). nra.
Qed.

Lemma fdiv_mono (a a' c : Q) :
  (0 < fl c)%Q -> (a <= a')%Q -> (fdiv a c <= fdiv a' c)%Q.
Proof.
  intros Hc Ha. unfold fdiv. apply fl_mono.
  pose proof (fl_mono a a' Ha).
  apply Qmult_le_compat_r; [assumption |].
  apply Qlt_le_weak. apply Qinv_lt_0_compat. exact Hc.
Qed.

(** The result of an operation is a double already. *)
Lemma fl_fadd (x y : Q) : fl (fadd x y) = fadd x y.
Proof. apply fl_idem. Qed.

Lemma fl_fsub (x y : Q) : fl (fsub x y) = fsub x y.
Proof. apply fl_idem. Qed.

Lemma fl_fmul (x y : Q) : fl (fmul x y) = fmul x y.
Proof. apply fl_idem. Qed.

Lemma fl_fdiv (x y : Q) : fl (fdiv x y) = fdiv x y.
Proof. apply fl_idem. Qed.

End Float64Props.
(** ** Scoring *)

Module ScoreProps.
Import JS Float64 Float64Props Score.

Lemma fl_0 : fl 0 = 0%Q.
Proof. reflexivity. Qed.

Lemma fl_1 : fl 1 = 1%Q.
Proof. reflexivity. Qed.

Lemma fl_2 : fl 2 = 2%Q.
Proof. reflexivity. Qed.

Lemma fl_30 : fl 30 = 30%Q.
Proof. reflexivity. Qed.

Lemma fl_100 : fl 100 = 100%Q.
Proof. reflexivity. Qed.

Lemma fl_200 : fl 200 = 200%Q.
Proof. reflexivity. Qed.

(** The quotient [timeSpent / 30] as the code computes it. *)
Lemma quotient_nonneg (t : Q) : (0 <= t)%Q -> (0 <= fdiv t 30)%Q.
Proof.
  intros Ht. unfold fdiv. rewrite fl_30. apply fl_nonneg.
  pose proof (fl_nonneg t Ht).
  assert (E : (fl t / 30 == fl t * (1 # 30))%Q) by (unfold Qdiv; reflexivity).
  rewrite E. lra.
Qed.

Lemma quotient_late (t : Q) : (30 <= t)%Q -> (1 <= fdiv t 30)%Q.
Proof.
  intros Ht. unfold fdiv. rewrite fl_30. apply (fl_lower _ 1 fl_1).
  pose proof (fl_lower t 30 fl_30 Ht).
  assert (E : (fl t / 30 == fl t * (1 # 30))%Q) by (unfold Qdiv; reflexivity).
  rewrite E. lra.
Qed.

Lemma timeBonus_range (t : Q) :
  (0 <= t)%Q -> (0 <= Math_max 0 (fsub 1 (fdiv t 30)) <= 1)%Q.
Proof.
  intros Ht. unfold Math_max. split; [apply Q.le_max_l |].
  apply Q.max_lub; [lra |].
  unfold fsub. rewrite fl_1, fl_fdiv. apply (fl_upper _ 1 fl_1).
  pose proof (quotient_nonneg t Ht). lra.
Qed.

Lemma timeBonus_late (t : Q) :
  (30 <= t)%Q -> (Math_max 0 (fsub 1 (fdiv t 30)) == 0)%Q.
Proof.
  intros Ht. unfold Math_max. apply Q.max_l.
  unfold fsub. rewrite fl_1, fl_fdiv. apply (fl_upper _ 0 fl_0).
  pose proof (quotient_late t Ht). lra.
Qed.

(** The product before [Math.round] lies between 100 and 200. *)
Lemma product_range (bonus : Q) :
  (0 <= bonus <= 1)%Q -> (100 <= fmul 100 (fadd 1 bonus) <= 200)%Q.
Proof.
  intros [H0 H1].
  assert (Hsum : (1 <= fadd 1 bonus <= 2)%Q).
  { unfold fadd. rewrite fl_1.
    pose proof (fl_lower bonus 0 fl_0 H0). pose proof (fl_upper bonus 1 fl_1 H1).
    split; [apply (fl_lower _ 1 fl_1) | apply (fl_upper _ 2 fl_2)]; lra. }
  unfold fmul. rewrite fl_100, fl_fadd.
  split; [apply (fl_lower _ 100 fl_100) | apply (fl_upper _ 200 fl_200)]; lra.
Qed.

Lemma calculateQuestionScore_base (t : Q) :
  (30 <= t)%Q -> calculateQuestionScore t = 100.
Proof.
  intros Ht. unfold calculateQuestionScore. cbv zeta.
  pose proof (timeBonus_late t Ht) as Hb.
  unfold fadd. rewrite (fl_comp _ _ Hb), fl_0, fl_1.
  assert (E1 : fl (1 + 0) = 1%Q) by reflexivity. rewrite E1.
  assert (E2 : fmul 100 1 = 100%Q) by reflexivity. rewrite E2.
  reflexivity.
Qed.

(** Between the two ends the score stays within [100, 200]. *)
Lemma calculateQuestionScore_range (t : Q) :
  (0 <= t)%Q -> 100 <= calculateQuestionScore t <= 200.
Proof.
  intros Ht. unfold calculateQuestionScore, Math_round. cbv zeta.
  destruct (product_range _ (timeBonus_range t Ht)) as [Hlo Hhi].
  split.
  - apply Z.le_trans with (Qfloor (100 + (1 # 2))%Q); [discriminate |].
    apply Qfloor_resp_le. lra.
  - apply Z.le_trans with (Qfloor (200 + (1 # 2))%Q); [| discriminate].
    apply Qfloor_resp_le. lra.
Qed.

(** A longer answer never scores more. *)
Lemma calculateQuestionScore_antitone (t t' : Q) :
  (t <= t')%Q -> calculateQuestionScore t' <= calculateQuestionScore t.
Proof.
  intros Hle. unfold calculateQuestionScore, Math_round, Math_max. cbv zeta.
  apply Qfloor_resp_le. apply Qplus_le_compat; [| apply Qle_refl].
  assert (Hq : (fdiv t 30 <= fdiv t' 30)%Q).
  { apply fdiv_mono; [rewrite fl_30; reflexivity | exact Hle]. }
  assert (Hs : (fsub 1 (fdiv t' 30) <= fsub 1 (fdiv t 30))%Q).
  { apply fsub_mono; [apply Qle_refl | exact Hq]. }
  assert (Hm : (Qmax 0 (fsub 1 (fdiv t' 30)) <= Qmax 0 (fsub 1 (fdiv t 30)))%Q).
  { apply Q.max_le_compat_l. exact Hs. }
  apply fmul_mono; [discriminate | apply Qle_refl | |].
  - unfold fadd. rewrite fl_1. apply fl_nonneg.
    assert (H0 : (0 <= Qmax 0 (fsub 1 (fdiv t' 30)))%Q) by apply Q.le_max_l.
    pose proof (fl_nonneg _ H0). lra.
  - apply fadd_mono; [apply Qle_refl | exact Hm].
Qed.

(** Two numbers less than 1 apart round to integers at most 1 apart. *)
Lemma Math_round_close (x y : Q) :
  (x < y + 1)%Q -> (y < x + 1)%Q ->
  Math_round y - 1 <= Math_round x <= Math_round y + 1.
Proof.
  intros H1 H2. unfold Math_round.
  pose proof (Qfloor_le (x + (1 # 2))) as Hx1.
  pose proof (Qlt_floor (x + (1 # 2))) as Hx2.
  pose proof (Qfloor_le (y + (1 # 2))) as Hy1.
  pose proof (Qlt_floor (y + (1 # 2))) as Hy2.
  rewrite inject_Z_plus in Hx2, Hy2.
  change (inject_Z 1) with 1%Q in Hx2, Hy2.
  set (p := Qfloor (x + (1 # 2))) in *. set (q := Qfloor (y + (1 # 2))) in *.
  assert (A : (inject_Z p < inject_Z (q + 2))%Q).
  { rewrite inject_Z_plus. change (inject_Z 2) with 2%Q. lra. }
  assert (B : (inject_Z q < inject_Z (p + 2))%Q).
  { rewrite inject_Z_plus. change (inject_Z 2) with 2%Q. lra. }
  rewrite <- Zlt_Qlt in A, B. lia.
Qed.

(** The product before [Math.round] is within [2^-40] of the exact value. *)
Lemma product_error (t : Q) :
  (0 <= t)%Q -> (t <= 30)%Q ->
  let exact := (100 * (1 + Qmax 0 (1 - t / 30)))%Q in
  let computed := fmul 100 (fadd 1 (Math_max 0 (fsub 1 (fdiv t 30)))) in
  (exact - (1 # 1099511627776) <= computed <= exact + (1 # 1099511627776))%Q.
Proof.
  intros Ht0 Ht30. cbv zeta.
  assert (Ediv : forall x : Q, (x / 30 == x * (1 # 30))%Q)
    by (intros x; unfold Qdiv; reflexivity).
  (* the operand *)
  assert (Ht1 : (t - (1 # 281474976710656) <= fl t <= t + (1 # 281474976710656))%Q).
  { apply (fl_error t 5); [lia | |];
      change (pow2 5) with 32%Q; lra. }
  pose proof (fl_nonneg t Ht0) as Ht1lo.
  pose proof (fl_upper t 30 fl_30 Ht30) as Ht1hi.
  (* the quotient *)
  assert (Hq : (fl t / 30 - (1 # 9007199254740992) <= fdiv t 30
                <= fl t / 30 + (1 # 9007199254740992))%Q).
  { unfold fdiv. rewrite fl_30.
    apply (fl_error (fl t / 30) 0); [lia | |];
      change (pow2 0) with 1%Q; rewrite Ediv; lra. }
  pose proof (quotient_nonneg t Ht0) as Hq0.
  assert (Hq1 : (fdiv t 30 <= 1)%Q).
  { unfold fdiv. rewrite fl_30. apply (fl_upper _ 1 fl_1). rewrite Ediv. lra. }
  (* the difference *)
  assert (Hb : (1 - fdiv t 30 - (1 # 9007199254740992) <= fsub 1 (fdiv t 30)
                <= 1 - fdiv t 30 + (1 # 9007199254740992))%Q).
  { unfold fsub. rewrite fl_1, fl_fdiv.
    apply (fl_error (1 - fdiv t 30) 0); [lia | |];
      change (pow2 0) with 1%Q; lra. }
  assert (Hb0 : (0 <= fsub 1 (fdiv t 30))%Q).
  { unfold fsub. rewrite fl_1, fl_fdiv. apply fl_nonneg. lra. }
  assert (Hb1 : (fsub 1 (fdiv t 30) <= 1)%Q).
  { unfold fsub. rewrite fl_1, fl_fdiv. apply (fl_upper _ 1 fl_1). lra. }
  assert (Hmax : (Math_max 0 (fsub 1 (fdiv t 30)) == fsub 1 (fdiv t 30))%Q).
  { unfold Math_max. apply Q.max_r. exact Hb0. }
  assert (Hexact : (Qmax 0 (1 - t / 30) == 1 - t / 30)%Q).
  { apply Q.max_r. rewrite Ediv. lra. }
  rewrite Hexact.
  (* the sum *)
  assert (Hc : (1 + fsub 1 (fdiv t 30) - (1 # 4503599627370496)
                <= fadd 1 (Math_max 0 (fsub 1 (fdiv t 30)))
                <= 1 + fsub 1 (fdiv t 30) + (1 # 4503599627370496))%Q).
  { unfold fadd. rewrite fl_1, (fl_comp _ _ Hmax), fl_fsub.
    apply (fl_error (1 + fsub 1 (fdiv t 30)) 1); [lia | |];
      change (pow2 1) with 2%Q; lra. }
  assert (Hc1 : (1 <= fadd 1 (Math_max 0 (fsub 1 (fdiv t 30))) <= 2)%Q).
  { unfold fadd. rewrite fl_1, (fl_comp _ _ Hmax), fl_fsub.
    split; [apply (fl_lower _ 1 fl_1) | apply (fl_upper _ 2 fl_2)]; lra. }
  (* the product *)
  set (c := fadd 1 (Math_max 0 (fsub 1 (fdiv t 30)))) in *.
  assert (Hp : (100 * c - (1 # 35184372088832) <= fmul 100 c
                <= 100 * c + (1 # 35184372088832))%Q).
  { unfold fmul. rewrite fl_100. unfold c. rewrite fl_fadd. fold c.
    apply (fl_error (100 * c) 8); [lia | |];
      change (pow2 8) with 256%Q; lra. }
  clear Ediv. unfold Qdiv in *. change (/ 30)%Q with (1 # 30)%Q in *. split; lra.
Qed.

(** Away from the ties of [Math.round], numbers that are close round to the
    same integer. *)
Lemma Math_round_away_from_ties (x y eps : Q) :
  (y - eps <= x <= y + eps)%Q ->
  (forall k : Z, (eps < Qabs (y - (inject_Z k + (1 # 2))))%Q) ->
  Math_round x = Math_round y.
Proof.
  intros [Hlo Hhi] Hties. unfold Math_round.
  pose proof (Qfloor_le (y + (1 # 2))) as Hy1.
  pose proof (Qlt_floor (y + (1 # 2))) as Hy2.
  rewrite inject_Z_plus in Hy2. change (inject_Z 1) with 1%Q in Hy2.
  set (q := Qfloor (y + (1 # 2))) in *.
  assert (Hbelow : (eps < y - (inject_Z (q - 1) + (1 # 2)))%Q).
  { pose proof (Hties (q - 1)) as H.
    assert (Hp : (inject_Z (q - 1) == inject_Z q - 1)%Q).
    { unfold Z.sub. rewrite inject_Z_plus. reflexivity. }
    rewrite Qabs_pos in H; [exact H | rewrite Hp; lra]. }
  assert (Habove : (eps < inject_Z q + (1 # 2) - y)%Q).
  { pose proof (Hties q) as H.
    rewrite Qabs_neg in H; lra. }
  assert (Hp : (inject_Z (q - 1) == inject_Z q - 1)%Q).
  { unfold Z.sub. rewrite inject_Z_plus. reflexivity. }
  rewrite Hp in Hbelow.
  pose proof (Qfloor_le (x + (1 # 2))) as Hx1.
  pose proof (Qlt_floor (x + (1 # 2))) as Hx2.
  rewrite inject_Z_plus in Hx2. change (inject_Z 1) with 1%Q in Hx2.
  set (p := Qfloor (x + (1 # 2))) in *.
  assert (A : (inject_Z p < inject_Z (q + 1))%Q).
  { rewrite inject_Z_plus. change (inject_Z 1) with 1%Q. lra. }
  assert (B : (inject_Z q < inject_Z (p + 1))%Q).
  { rewrite inject_Z_plus. change (inject_Z 1) with 1%Q. lra. }
  rewrite <- Zlt_Qlt in A, B. lia.
Qed.

(** For a whole number of seconds the score is the formula computed
    exactly. *)
Lemma calculateQuestionScore_whole_seconds (seconds : Z) :
  0 <= seconds ->
  calculateQuestionScore (inject_Z seconds) = questionScore_spec (inject_Z seconds).
Proof.
  intros H0. destruct (Z_lt_le_dec seconds 30) as [Hlt | Hge].
  - assert (Hall : forallb (fun n => calculateQuestionScore (inject_Z (Z.of_nat n))
                                     =? questionScore_spec (inject_Z (Z.of_nat n)))
                           (seq 0 30) = true) by (vm_compute; reflexivity).
    rewrite forallb_forall in Hall.
    specialize (Hall (Z.to_nat seconds)).
    rewrite Z2Nat.id in Hall by exact H0.
    apply Z.eqb_eq. apply Hall. apply in_seq. lia.
  - assert (Hq : (30 <= inject_Z seconds)%Q).
    { change 30%Q with (inject_Z 30). rewrite <- Zle_Qle. exact Hge. }
    rewrite (calculateQuestionScore_base _ Hq).
    unfold questionScore_spec.
    assert (Hb : (Qmax 0 (1 - inject_Z seconds / 30) == 0)%Q).
    { apply Q.max_l.
      assert (E : (inject_Z seconds / 30 == inject_Z seconds * (1 # 30))%Q)
        by (unfold Qdiv; reflexivity).
      rewrite E. lra. }
    assert (Hv : (100 * (1 + Qmax 0 (1 - inject_Z seconds / 30)) + (1 # 2)
                  == 100 + (1 # 2))%Q) by (rewrite Hb; ring).
    rewrite (Qfloor_comp _ _ Hv). reflexivity.
Qed.
(** The claim as the specification words it, at one input. *)
Definition formula_as_specified (timeSpent : Q) : Prop :=
  (0 <= timeSpent)%Q -> calculateQuestionScore timeSpent = questionScore_spec timeSpent.

(** At 29.25 seconds the exact formula gives [round(102.5) = 103]; in
    doubles the product is [102.49999999999999], which rounds to 102.  The
    same happens at 21.75 seconds (127 where the formula gives 128). *)
Lemma questionScore_formula_fails :
  ~ formula_as_specified (117 # 4)
  /\ calculateQuestionScore (117 # 4) = 102
  /\ questionScore_spec (117 # 4) = 103
  /\ ~ formula_as_specified (87 # 4).
Proof.
  split; [| split; [| split]].
  - intros H. assert (H0 : (0 <= 117 # 4)%Q) by discriminate.
    specialize (H H0). vm_compute in H. discriminate H.
  - vm_compute. reflexivity.
  - vm_compute. reflexivity.
  - intros H. assert (H0 : (0 <= 87 # 4)%Q) by discriminate.
    specialize (H H0). vm_compute in H. discriminate H.
Qed.

(** C2 (as amended). For every non-negative [timeSpent] the per-question
    score is [round(100 * (1 + max(0, 1 - timeSpent/30)))] with every
    operation rounded to the nearest double: an integer between 100 and 200,
    at most 1 away from the formula computed exactly, equal to it whenever
    [100 * (1 + max(0, 1 - timeSpent/30))] is more than [2^-40] away from
    every half-integer, equal to it for every whole number of seconds, and
    never larger for a longer [timeSpent]; it is 200 at 0 seconds, 150 at 15
    seconds, 100 at 30 seconds, and exactly the base 100 for every
    [timeSpent >= 30]. *)
Theorem questionScore_in_doubles (timeSpent : Q) :
  (0 <= timeSpent)%Q ->
  100 <= calculateQuestionScore timeSpent <= 200
  /\ questionScore_spec timeSpent - 1 <= calculateQuestionScore timeSpent
     <= questionScore_spec timeSpent + 1
  /\ ((forall k : Z,
         ((1 # 1099511627776)
          < Qabs (100 * (1 + Qmax 0 (1 - timeSpent / 30))
                  - (inject_Z k + (1 # 2))))%Q) ->
      calculateQuestionScore timeSpent = questionScore_spec timeSpent)
  /\ (forall seconds : Z, 0 <= seconds ->
        calculateQuestionScore (inject_Z seconds)
        = questionScore_spec (inject_Z seconds))
  /\ (forall later, (timeSpent <= later)%Q ->
        calculateQuestionScore later <= calculateQuestionScore timeSpent)
  /\ calculateQuestionScore 0 = 200
  /\ calculateQuestionScore 15 = 150
  /\ calculateQuestionScore 30 = 100
  /\ ((30 <= timeSpent)%Q -> calculateQuestionScore timeSpent = 100).
Proof.
  intros Ht. split; [| split; [| split; [| split; [| split; [| split; [| split; [| split]]]]]]].
  - apply calculateQuestionScore_range. exact Ht.
  - destruct (Qlt_le_dec timeSpent 30) as [Hlt | Hge].
    + assert (Hle : (timeSpent <= 30)%Q) by lra.
      pose proof (product_error timeSpent Ht Hle) as He. cbv zeta in He.
      unfold calculateQuestionScore, questionScore_spec. cbv zeta.
      change (Qfloor (100 * (1 + Qmax 0 (1 - timeSpent / 30)) + (1 # 2)))
        with (Math_round (100 * (1 + Qmax 0 (1 - timeSpent / 30)))).
      apply Math_round_close; lra.
    + rewrite (calculateQuestionScore_base timeSpent Hge).
      unfold questionScore_spec.
      assert (Hb : (Qmax 0 (1 - timeSpent / 30) == 0)%Q).
      { apply Q.max_l.
        assert (E : (timeSpent / 30 == timeSpent * (1 # 30))%Q)
          by (unfold Qdiv; reflexivity).
        rewrite E. lra. }
      assert (Hv : (100 * (1 + Qmax 0 (1 - timeSpent / 30)) + (1 # 2)
                    == 100 + (1 # 2))%Q) by (rewrite Hb; ring).
      rewrite (Qfloor_comp _ _ Hv). split; discriminate.
  - intros Hties. destruct (Qlt_le_dec timeSpent 30) as [Hlt | Hge].
    + assert (Hle : (timeSpent <= 30)%Q) by lra.
      pose proof (product_error timeSpent Ht Hle) as He. cbv zeta in He.
      unfold calculateQuestionScore, questionScore_spec. cbv zeta.
      change (Qfloor (100 * (1 + Qmax 0 (1 - timeSpent / 30)) + (1 # 2)))
        with (Math_round (100 * (1 + Qmax 0 (1 - timeSpent / 30)))).
      apply (Math_round_away_from_ties _ _ (1 # 1099511627776)); [lra | exact Hties].
    + rewrite (calculateQuestionScore_base timeSpent Hge).
      unfold questionScore_spec.
      assert (Hb : (Qmax 0 (1 - timeSpent / 30) == 0)%Q).
      { apply Q.max_l.
        assert (E : (timeSpent / 30 == timeSpent * (1 # 30))%Q)
          by (unfold Qdiv; reflexivity).
        rewrite E. lra. }
      assert (Hv : (100 * (1 + Qmax 0 (1 - timeSpent / 30)) + (1 # 2)
                    == 100 + (1 # 2))%Q) by (rewrite Hb; ring).
      rewrite (Qfloor_comp _ _ Hv). reflexivity.
  - apply calculateQuestionScore_whole_seconds.
  - intros later Hle. apply calculateQuestionScore_antitone. exact Hle.
  - vm_compute. reflexivity.
  - vm_compute. reflexivity.
  - vm_compute. reflexivity.
  - apply calculateQuestionScore_base.
Qed.

Lemma questionScore_in_doubles_witness :
  (0 <= 45)%Q
  /\ 100 <= calculateQuestionScore 45 <= 200
  /\ ((30 <= 45)%Q -> calculateQuestionScore 45 = 100).
Proof.
  assert (H : (0 <= 45)%Q) by (unfold Qle; simpl; lia).
  pose proof (questionScore_in_doubles 45 H) as [Hr [_ [_ [_ [_ [_ [_ [_ Hb]]]]]]]].
  split; [exact H |]. split; assumption.
Defined.

(** At 10 seconds the exact value is [500/3], a sixth away from the nearest
    half-integer, and the score is the formula's 167. *)
Example score_at_10_seconds :
  (forall k : Z,
     ((1 # 1099511627776)
      < Qabs (100 * (1 + Qmax 0 (1 - 10 / 30)) - (inject_Z k + (1 # 2))))%Q)
  /\ calculateQuestionScore 10 = 167
  /\ questionScore_spec 10 = 167.
Proof.
  split; [| split; vm_compute; reflexivity].
  intros k.
  assert (E : (100 * (1 + Qmax 0 (1 - 10 / 30)) == 500 # 3)%Q) by reflexivity.
  rewrite E. destruct (Z_le_gt_dec k 166) as [Hle | Hgt].
  - assert (Hk : (inject_Z k <= 166)%Q).
    { change 166%Q with (inject_Z 166). rewrite <- Zle_Qle. exact Hle. }
    rewrite Qabs_pos; lra.
  - assert (Hk : (167 <= inject_Z k)%Q).
    { change 167%Q with (inject_Z 167). rewrite <- Zle_Qle. lia. }
    rewrite Qabs_neg; lra.
Qed.

End ScoreProps.

(** ** Levels *)

Module LevelProps.
Import JS LevelSystem.

Section WithConfig.
Variable GameConfig : GameConfigT.

Local Abbreviation loop := (calculateLevel_loop GameConfig).

Lemma xleb_mono (a : xnum) (x y : Q) :
  (x <= y)%Q -> xleb a x = true -> xleb a y = true.
Proof.
  destruct a as [z|]; simpl; [| discriminate].
  intros Hxy H. apply Qle_bool_iff in H. apply Qle_bool_iff.
  apply Qle_trans with x; assumption.
Qed.

Lemma xgtb_anti (a : xnum) (x y : Q) :
  (x <= y)%Q -> xgtb a x = false -> xgtb a y = false.
Proof.
  unfold xgtb. intros Hxy H.
  apply negb_false_iff in H. apply negb_false_iff.
  eapply xleb_mono; eassumption.
Qed.

(** One turn of the [while] loop. *)
Lemma loop_unfold (xp : Q) (lvl : Z) (totalXP : xnum) :
  loop xp lvl totalXP =
  if Z_lt_dec lvl (MAX_LEVEL GameConfig) then
    if xleb totalXP xp then
      if xgtb (xadd totalXP (calculateXPForLevel GameConfig lvl)) xp then lvl
      else loop xp (lvl + 1) (xadd totalXP (calculateXPForLevel GameConfig lvl))
    else lvl
  else lvl.
Proof.
  funelim (calculateLevel_loop GameConfig xp lvl totalXP);
    repeat match goal with
           | E : Z_lt_dec _ _ = _ |- context [Z_lt_dec _ _] => rewrite E
           | E : xleb _ _ = _ |- context [xleb _ _] => rewrite E
           | E : xgtb _ _ = _ |- context [xgtb _ _] => rewrite E
           end; reflexivity.
Qed.

(** The loop never moves below the level it starts from. *)
Lemma loop_ge_start (xp : Q) (lvl : Z) (totalXP : xnum) :
  lvl <= loop xp lvl totalXP.
Proof.
  funelim (calculateLevel_loop GameConfig xp lvl totalXP); lia.
Qed.

(** Started from the same level and total, more XP never ends earlier. *)
Lemma loop_mono (xp1 xp2 : Q) (lvl : Z) (totalXP : xnum) :
  (xp1 <= xp2)%Q -> loop xp1 lvl totalXP <= loop xp2 lvl totalXP.
Proof.
  intros Hle.
  funelim (calculateLevel_loop GameConfig xp1 lvl totalXP);
    try apply loop_ge_start.
  rewrite (loop_unfold xp2 lvl totalXP).
  match goal with E : Z_lt_dec _ _ = left _ |- _ => rewrite E end.
  match goal with E : xleb _ _ = true |- _ =>
    rewrite (xleb_mono _ _ xp2 Hle E) end.
  match goal with E : xgtb _ _ = false |- _ =>
    rewrite (xgtb_anti _ _ xp2 Hle E) end.
  auto.
Qed.

Lemma calculateLevel_mono (xp1 xp2 : Q) :
  (xp1 <= xp2)%Q -> calculateLevel GameConfig xp1 <= calculateLevel GameConfig xp2.
Proof.
  intros Hle. unfold calculateLevel.
  apply Z.min_le_compat_r. apply loop_mono. exact Hle.
Qed.

Lemma calculateLevel_capped (xp : Q) :
  calculateLevel GameConfig xp <= MAX_LEVEL GameConfig.
Proof. unfold calculateLevel. apply Z.le_min_r. Qed.

Lemma calculateXPForLevel_beyond (lvl : Z) :
  MAX_LEVEL GameConfig < lvl -> calculateXPForLevel GameConfig lvl = Infinity.
Proof.
  intros H. unfold calculateXPForLevel.
  apply Z.ltb_lt in H. rewrite H. reflexivity.
Qed.

End WithConfig.

(** C7. The level computed from XP is monotonic and capped: for non-negative
    [xp1 < xp2] the level of [xp1] is at most the level of [xp2], no level
    exceeds [MAX_LEVEL], and a level beyond [MAX_LEVEL] costs [Infinity]. *)
Theorem level_monotonic_and_capped (GameConfig : GameConfigT) (xp1 xp2 : Q) :
  (0 <= xp1)%Q -> (xp1 < xp2)%Q ->
  calculateLevel GameConfig xp1 <= calculateLevel GameConfig xp2
  /\ calculateLevel GameConfig xp1 <= MAX_LEVEL GameConfig
  /\ calculateLevel GameConfig xp2 <= MAX_LEVEL GameConfig
  /\ (forall lvl, MAX_LEVEL GameConfig < lvl ->
        calculateXPForLevel GameConfig lvl = Infinity).
Proof.
  intros _ Hlt. repeat split.
  - apply calculateLevel_mono. apply Qlt_le_weak. exact Hlt.
  - apply calculateLevel_capped.
  - apply calculateLevel_capped.
  - apply calculateXPForLevel_beyond.
Qed.

Definition sampleConfig : GameConfigT :=
  mkGameConfig (mkLevelConfig 1000%Q (3 # 2)%Q 100) (mkLevelUpConfig 100%Q 50%Q).

Lemma level_monotonic_and_capped_witness :
  (0 <= 500)%Q /\ (500 < 2600)%Q
  /\ calculateLevel sampleConfig 500 <= calculateLevel sampleConfig 2600
  /\ calculateLevel sampleConfig 500 <= MAX_LEVEL sampleConfig
  /\ calculateLevel sampleConfig 2600 <= MAX_LEVEL sampleConfig
  /\ (forall lvl, MAX_LEVEL sampleConfig < lvl ->
        calculateXPForLevel sampleConfig lvl = Infinity).
Proof.
  assert (H0 : (0 <= 500)%Q) by (unfold Qle; simpl; lia).
  assert (H1 : (500 < 2600)%Q) by (unfold Qlt; simpl; lia).
  split; [exact H0 |]. split; [exact H1 |].
  apply (level_monotonic_and_capped sampleConfig 500 2600 H0 H1).
Defined.

Example level_of_500 : calculateLevel sampleConfig 500 = 1.
Proof. vm_compute. reflexivity. Qed.

Example level_of_2600 : calculateLevel sampleConfig 2600 = 3.
Proof. vm_compute. reflexivity. Qed.

Example level_at_cap :
  calculateLevel (mkGameConfig (mkLevelConfig 10%Q 1%Q 4) (mkLevelUpConfig 1%Q 1%Q))
    1000000 = 4.
Proof. vm_compute. reflexivity. Qed.

End LevelProps.

(** ** The reducer and the handlers of [GameContext] *)

Module GameProps.
Import JS GameContext.

(** Three equipped items: an [xp_boost] of value 2, an [xp_boost] and a
    [coin_boost] that leave the value to the default; and a user at level 1
    with 100 coins and neutral multipliers who holds them. *)
Definition boostItem : InventoryItem :=
  mkInventoryItem
    (mkGameItem "item-1" "Scroll"
       (Some [mkItemEffect "xp_boost" (Some 2%Q) (Some 60%Q)]))
    1%Q true.

Definition defaultBoostItem : InventoryItem :=
  mkInventoryItem
    (mkGameItem "item-2" "Potion"
       (Some [mkItemEffect "xp_boost" None None]))
    1%Q true.

Definition coinBoostItem : InventoryItem :=
  mkInventoryItem
    (mkGameItem "item-3" "Purse"
       (Some [mkItemEffect "coin_boost" None None]))
    1%Q true.

Definition sampleUser : User :=
  mkUser "user-1" 1 0%Q 100%Q 0%Q [] []
    [boostItem; defaultBoostItem; coinBoostItem]
    (mkStatistics 0%Q 0%Q 0%Q 0%Q 0%Q 0%Q [])
    (mkRewardMultipliers 1%Q 1%Q) 1%Q (Some []) None None.

(** The battle of the provider's [initialState]: no [playerAnswers]. *)
Definition idleBattle : BattleState :=
  mkBattleState "idle" false [] 0 (mkBattleScore 0 0) 0 30 None None None.

Definition sampleState : GameState := mkGameState sampleUser idleBattle false None.

Section WithEnvironment.
Variable now : Z.
Variable calculateQuestProgress : Quest -> User -> Q.

Local Abbreviation reduce := (gameReducer now calculateQuestProgress).

Lemma remove_effect_guard (s : GameState) (effectId effectType : string) :
  effectType <> "xp"%string -> effectType <> "coins"%string ->
  reduce s (REMOVE_EFFECT effectId effectType) = s.
Proof.
  intros Hxp Hcoins. unfold gameReducer.
  apply String.eqb_neq in Hxp. apply String.eqb_neq in Hcoins.
  rewrite Hxp, Hcoins. reflexivity.
Qed.

(** [REMOVE_EFFECT] with type ['xp'] divides by the constant 3/2 and with
    type ['coins'] by the constant 2, whatever value the entry stores. *)
Lemma remove_effect_xp (s : GameState) (effectId : string) (effects : list ActiveEffect) :
  activeEffects (user s) = Some effects ->
  rewardMultipliers (user (reduce s (REMOVE_EFFECT effectId "xp")))
  = mkRewardMultipliers
      (rm_xp (rewardMultipliers (user s)) / (1 + (1 # 2)))%Q
      (rm_coins (rewardMultipliers (user s))).
Proof. intros H. unfold gameReducer. simpl. rewrite H. reflexivity. Qed.

Lemma remove_effect_coins (s : GameState) (effectId : string) (effects : list ActiveEffect) :
  activeEffects (user s) = Some effects ->
  rewardMultipliers (user (reduce s (REMOVE_EFFECT effectId "coins")))
  = mkRewardMultipliers
      (rm_xp (rewardMultipliers (user s)))
      (rm_coins (rewardMultipliers (user s)) / (1 + 1))%Q.
Proof. intros H. unfold gameReducer. simpl. rewrite H. reflexivity. Qed.

End WithEnvironment.

(** C10. A [REMOVE_EFFECT] whose [effectType] is neither ['xp'] nor ['coins']
    leaves the whole game state as it was, so the entry stays in
    [activeEffects] and [rewardMultipliers] keep their values; this covers
    the tags ['xp_boost'], ['coin_boost'], ['score_boost'] and ['time_boost']
    that the expiry timers dispatch. *)
Theorem remove_effect_other_type_is_noop
    (now : Z) (calculateQuestProgress : Quest -> User -> Q)
    (s : GameState) (effectId effectType : string) :
  effectType <> "xp"%string -> effectType <> "coins"%string ->
  gameReducer now calculateQuestProgress s (REMOVE_EFFECT effectId effectType) = s
  /\ activeEffects (user (gameReducer now calculateQuestProgress s
                            (REMOVE_EFFECT effectId effectType)))
     = activeEffects (user s)
  /\ rewardMultipliers (user (gameReducer now calculateQuestProgress s
                                (REMOVE_EFFECT effectId effectType)))
     = rewardMultipliers (user s)
  /\ (forall tag, In tag ["xp_boost"; "coin_boost"; "score_boost"; "time_boost"]%string ->
        gameReducer now calculateQuestProgress s (REMOVE_EFFECT effectId tag) = s).
Proof.
  intros Hxp Hcoins.
  rewrite (remove_effect_guard now calculateQuestProgress s effectId effectType Hxp Hcoins).
  repeat split.
  intros tag Htag. simpl in Htag.
  apply remove_effect_guard;
    intuition (subst; discriminate).
Qed.

Lemma remove_effect_other_type_is_noop_witness :
  "xp_boost"%string <> "xp"%string /\ "xp_boost"%string <> "coins"%string
  /\ gameReducer 0 (fun _ _ => 0%Q) sampleState (REMOVE_EFFECT "e-0" "xp_boost")
     = sampleState.
Proof.
  assert (H1 : "xp_boost"%string <> "xp"%string) by discriminate.
  assert (H2 : "xp_boost"%string <> "coins"%string) by discriminate.
  split; [exact H1 |]. split; [exact H2 |].
  exact (proj1 (remove_effect_other_type_is_noop 0 (fun _ _ => 0%Q)
                  sampleState "e-0" "xp_boost" H1 H2)).
Defined.

(** *** Activation and expiry of an effect *)

(** The timers that a handler has scheduled fire in order: each dispatches
    its action on the store. *)
Definition fire_timers (now : Z) (calculateQuestProgress : Quest -> User -> Q)
    (w : World) : GameState :=
  fold_left (fun st timer => gameReducer now calculateQuestProgress st (snd timer))
            (timers w) (store w).

(** Using the item [itemId] from state [s], then letting its expiry timers
    fire: the store after activation and the store after expiry. *)
Definition activate (now : Z) (s : GameState) (itemId : string) : World :=
  snd (useItemEffect now (fun _ _ => 0%Q) (fun n => ("effect-" ++ string_of_Z (Z.of_nat n))%string)
         s itemId (mkWorld s [])).

Definition activate_then_expire (now : Z) (s : GameState) (itemId : string) : GameState :=
  fire_timers (now + 60000) (fun _ _ => 0%Q) (activate now s itemId).

(** Activation multiplies the stored value in. *)
Example activation_multiplies :
  rewardMultipliers (user (store (activate 0 sampleState "item-1")))
  = mkRewardMultipliers (1 * 2)%Q 1%Q
  /\ timers (activate 0 sampleState "item-1")
     = [((60 * 1000)%Q, REMOVE_EFFECT "effect-0" "xp_boost")].
Proof. split; reflexivity. Qed.

(** C1 (the code departs from it). With multipliers [{xp: 1, coins: 1}], an
    [xp_boost] of value 2 is activated and its expiry timer fires: the xp
    multiplier stays at 2 and the entry stays in [activeEffects], because the
    timer dispatches the tag ['xp_boost']; the same happens with the default
    value 1.5.  A [REMOVE_EFFECT] sent with type ['xp'] divides by the
    constant 1.5, which gives 4/3 and not 1 for the stored value 2, and one
    sent with type ['coins'] divides by the constant 2, which gives 3/4 and
    not 1 for the default value 1.5. *)
Theorem effect_expiry_does_not_restore_multiplier :
  let s := sampleState in
  rm_xp (rewardMultipliers (user s)) = 1%Q
  /\ rm_xp (rewardMultipliers (user (store (activate 0 s "item-1")))) = (1 * 2)%Q
  /\ rm_xp (rewardMultipliers (user (activate_then_expire 0 s "item-1"))) = (1 * 2)%Q
  /\ ~ (rm_xp (rewardMultipliers (user (activate_then_expire 0 s "item-1")))
        == rm_xp (rewardMultipliers (user s)))%Q
  /\ option_map (@List.length ActiveEffect)
       (activeEffects (user (activate_then_expire 0 s "item-1"))) = Some 1%nat
  /\ ~ (rm_xp (rewardMultipliers (user (activate_then_expire 0 s "item-2")))
        == rm_xp (rewardMultipliers (user s)))%Q
  /\ (rm_xp (rewardMultipliers (user
        (gameReducer 60000 (fun _ _ => 0%Q) (store (activate 0 s "item-1"))
           (REMOVE_EFFECT "effect-0" "xp")))) == 4 # 3)%Q
  /\ (rm_coins (rewardMultipliers (user
        (gameReducer 60000 (fun _ _ => 0%Q) (store (activate 0 s "item-3"))
           (REMOVE_EFFECT "effect-0" "coins")))) == 3 # 4)%Q.
Proof.
  cbv zeta. repeat split; try reflexivity; vm_compute; discriminate.
Qed.

(** *** Coins *)

Section Coins.
Variable now : Z.
Variable calculateQuestProgress : Quest -> User -> Q.

Local Abbreviation coinTx := (handleCoinTransaction now calculateQuestProgress).

Lemma Qltb_true (x y : Q) : Qltb x y = true <-> (x < y)%Q.
Proof.
  unfold Qltb. rewrite negb_true_iff. split.
  - intros H. apply Qnot_le_lt. intros Hle.
    apply Qle_bool_iff in Hle. congruence.
  - intros H. destruct (Qle_bool y x) eqn:E; [| reflexivity].
    apply Qle_bool_iff in E. exfalso. apply (Qlt_not_le _ _ H E).
Qed.

Lemma Qltb_false (x y : Q) : Qltb x y = false <-> (y <= x)%Q.
Proof.
  unfold Qltb. rewrite negb_false_iff. apply Qle_bool_iff.
Qed.

(** A debit that the balance covers: the new balance is [coins - amount],
    with no multiplier. *)
Lemma debit_applied (s : GameState) (amount : Q) (source : string) (w : World) :
  source <> "earn"%string -> (amount <= coins (user s))%Q ->
  exists w',
    coinTx s amount source w = (Returned tt, w')
    /\ coins (user (store w')) = (coins (user s) - amount)%Q
    /\ store w' = gameReducer now calculateQuestProgress (store w)
                    (UPDATE_USER_PROFILE
                       (mkPartialUser (Some (coins (user s) - amount)%Q) None None)).
Proof.
  intros Hsrc Hle. unfold handleCoinTransaction.
  apply String.eqb_neq in Hsrc. rewrite Hsrc.
  assert (H : Qltb (coins (user s) - amount) 0 = false)
    by (apply Qltb_false; lra).
  rewrite H. eexists. split; [reflexivity |]. split; reflexivity.
Qed.

(** A debit beyond the balance: the error, and nothing is dispatched. *)
Lemma debit_rejected (s : GameState) (amount : Q) (source : string) (w : World) :
  source <> "earn"%string -> (coins (user s) < amount)%Q ->
  coinTx s amount source w = (Thrown "Insufficient coins", w).
Proof.
  intros Hsrc Hlt. unfold handleCoinTransaction.
  apply String.eqb_neq in Hsrc. rewrite Hsrc.
  assert (H : Qltb (coins (user s) - amount) 0 = true)
    by (apply Qltb_true; lra).
  rewrite H. reflexivity.
Qed.

End Coins.

(** C5. A coin debit (a source other than ['earn']) is applied without any
    multiplier, and a debit whose amount exceeds the balance is rejected
    with the error "Insufficient coins" while the store, and with it the
    balance and the rest of the user, stays as it was. *)
Theorem coin_debit_flat_and_guarded
    (now : Z) (calculateQuestProgress : Quest -> User -> Q)
    (s : GameState) (amount : Q) (source : string) :
  source <> "earn"%string ->
  ((amount <= coins (user s))%Q ->
     exists w',
       handleCoinTransaction now calculateQuestProgress s amount source (mkWorld s [])
       = (Returned tt, w')
       /\ coins (user (store w')) = (coins (user s) - amount)%Q)
  /\ ((coins (user s) < amount)%Q ->
        handleCoinTransaction now calculateQuestProgress s amount source (mkWorld s [])
        = (Thrown "Insufficient coins", mkWorld s [])
        /\ forall w,
             snd (handleCoinTransaction now calculateQuestProgress s amount source w) = w).
Proof.
  intros Hsrc. split.
  - intros Hle.
    destruct (debit_applied now calculateQuestProgress s amount source
                (mkWorld s []) Hsrc Hle) as [w' [H1 [H2 _]]].
    exists w'. split; assumption.
  - intros Hlt. split.
    + apply debit_rejected; assumption.
    + intros w. rewrite (debit_rejected now calculateQuestProgress s amount source w Hsrc Hlt).
      reflexivity.
Qed.

Lemma coin_debit_flat_and_guarded_witness :
  "purchase"%string <> "earn"%string
  /\ (coins (user sampleState) < 250)%Q
  /\ handleCoinTransaction 0 (fun _ _ => 0%Q) sampleState 250 "purchase"
       (mkWorld sampleState [])
     = (Thrown "Insufficient coins", mkWorld sampleState []).
Proof.
  assert (H1 : "purchase"%string <> "earn"%string) by discriminate.
  assert (H2 : (coins (user sampleState) < 250)%Q) by (unfold Qlt; simpl; lia).
  split; [exact H1 |]. split; [exact H2 |].
  exact (proj1 (proj2 (coin_debit_flat_and_guarded 0 (fun _ _ => 0%Q)
                         sampleState 250 "purchase" H1) H2)).
Defined.

(** With the multipliers at 3 the debit of 40 still takes exactly 40. *)
Example debit_ignores_multipliers :
  let u := set_streakMultiplier
             (set_rewardMultipliers sampleUser (mkRewardMultipliers 3%Q 3%Q)) 2%Q in
  let s := set_user sampleState u in
  coins (user (store (snd (handleCoinTransaction 0 (fun _ _ => 0%Q) s 40 "purchase"
                             (mkWorld s [])))))
  = (100 - 40)%Q.
Proof. reflexivity. Qed.

(** A purchase goes through [handleItemTransaction], which passes
    [amount: -cost]: the debit branch then adds the cost to the balance. *)
Example purchase_passes_negative_amount (item : GameItem) :
  coins (user (store (snd
    (handleItemTransaction 0 (fun _ _ => 0%Q) (fun _ => true) sampleState
       item 1 "purchase" 40 (mkWorld sampleState [])))))
  = (100 - - 40)%Q.
Proof. reflexivity. Qed.

(** *** Granting XP *)

(** The [ADD_XP] case multiplies the amount it receives by the multiplier of
    the payload and by [rewardMultipliers.xp]. *)
Lemma ADD_XP_scales (now : Z) (calculateQuestProgress : Quest -> User -> Q)
    (s : GameState) (amount multiplier : Q) :
  xp (user (gameReducer now calculateQuestProgress s (ADD_XP amount (Some multiplier))))
  = (xp (user s) + amount * multiplier * rm_xp (rewardMultipliers (user s)))%Q.
Proof. reflexivity. Qed.

(** A user at level 1 with an xp multiplier of 2 and no achievements. *)
Definition boostedState : GameState :=
  set_user sampleState
    (set_rewardMultipliers sampleUser (mkRewardMultipliers 2%Q 1%Q)).

(** [handleXPGain] run from the state [s], with [LevelSystem.calculateLevel]
    over the sample curve for the level. *)
Definition grantXp (validateGameItem : GameItem -> bool)
    (handleAchievementUnlock : Achievement -> Handler unit)
    (s : GameState) (amount : Q) : Outcome unit * World :=
  handleXPGain 0 (fun _ _ => 0%Q) LevelProps.sampleConfig
    (LevelSystem.calculateLevel LevelProps.sampleConfig)
    validateGameItem handleAchievementUnlock s amount "battle" (mkWorld s []).

(** C8 (the code departs from it). For a user with xp 0,
    [rewardMultipliers.xp = 2] and [streakMultiplier = 1], granting 10 XP
    should add [round(10 * 2 * 1) = 20]; the amount already scaled to 20 is
    dispatched together with the multiplier 2 and the reducer multiplies it
    by that multiplier and by [rewardMultipliers.xp] again, so the user ends
    with 80 XP. *)
Theorem xp_gain_is_scaled_again
    (validateGameItem : GameItem -> bool)
    (handleAchievementUnlock : Achievement -> Handler unit) :
  let s := boostedState in
  let result := grantXp validateGameItem handleAchievementUnlock s 10 in
  fst result = Returned tt
  /\ Math_round (10 * (rm_xp (rewardMultipliers (user s)) * streakMultiplier (user s)))
     = 20
  /\ (xp (user (store (snd result))) == 80)%Q
  /\ ~ (xp (user (store (snd result))) == xp (user s) + 20)%Q.
Proof.
  cbv zeta. repeat split; try reflexivity.
  vm_compute. discriminate.
Qed.

(** Reaching level 2 from a balance of 100 coins: the level-up bundle holds
    100 coins, [LEVEL_UP] adds them, and the call
    [handleCoinTransaction({ amount: 100, source: 'level_up' })] then takes
    the debit branch from the balance of the snapshot, so the store ends with
    0 coins; from a balance of 50 the same call throws. *)
Example level_up_coins_are_debited
    (validateGameItem : GameItem -> bool)
    (handleAchievementUnlock : Achievement -> Handler unit) :
  let result := grantXp validateGameItem handleAchievementUnlock sampleState 1000 in
  fst result = Returned tt
  /\ level (user (store (snd result))) = 2
  /\ (coins (user (store (snd result))) == 0)%Q.
Proof. cbv zeta. repeat split; reflexivity. Qed.

Example level_up_may_throw
    (validateGameItem : GameItem -> bool)
    (handleAchievementUnlock : Achievement -> Handler unit) :
  let s := set_user sampleState (set_coins sampleUser 50%Q) in
  fst (grantXp validateGameItem handleAchievementUnlock s 1000)
  = Thrown "Insufficient coins".
Proof. reflexivity. Qed.

End GameProps.

(** ** The timer tick of [battleReducer] *)

Module BattleProps.
Import BattleContext.

Definition question (n : string) : GameContext.BattleQuestion :=
  GameContext.mkBattleQuestion n "?" ["a"; "b"; "c"; "d"]%string 0.

Definition config : BattleConfigT := mkBattleConfig 10 30 3000.

(** A battle of two questions, in progress, with 1 second left. *)
Definition onFirstQuestion : BattleState :=
  mkBattleState IN_BATTLE true [question "q1"; question "q2"] 0
    (GameContext.mkBattleScore 0 0) 1 30 [] None.

Definition onLastQuestion : BattleState :=
  mkBattleState IN_BATTLE true [question "q1"; question "q2"] 1
    (GameContext.mkBattleScore 150 0) 1 30 [true] None.

(** The claim as the specification words it, for one state and one tick
    that brings the time to 0. *)
Definition tick_as_specified (cfg : BattleConfigT) (s : BattleState) : Prop :=
  inProgress s = true -> status s = IN_BATTLE ->
  let s' := battleReducer cfg s (SET_TIME_LEFT 0) in
  (currentQuestion s < length_Z (questions s) - 1 ->
     currentQuestion s' = currentQuestion s + 1
     /\ timeLeft s' = cfg_timePerQuestion cfg
     /\ score s' = score s
     /\ playerAnswers s' = playerAnswers s ++ [false])
  /\ (currentQuestion s = length_Z (questions s) - 1 -> status s' = COMPLETED).

Section Tick.
Variable BATTLE_CONFIG : BattleConfigT.

Lemma tick_guard (s : BattleState) (payload : Z) :
  inProgress s = false \/ status s <> IN_BATTLE ->
  battleReducer BATTLE_CONFIG s (SET_TIME_LEFT payload) = s.
Proof.
  intros [H | H]; unfold battleReducer.
  - rewrite H. reflexivity.
  - destruct (status s); try contradiction; simpl;
      rewrite orb_true_r; reflexivity.
Qed.

Lemma tick_advances (s : BattleState) (payload : Z) :
  inProgress s = true -> status s = IN_BATTLE -> payload <= 0 ->
  currentQuestion s < length_Z (questions s) - 1 ->
  battleReducer BATTLE_CONFIG s (SET_TIME_LEFT payload)
  = mkBattleState (status s) (inProgress s) (questions s)
      (currentQuestion s + 1) (score s) (cfg_timePerQuestion BATTLE_CONFIG)
      (timePerQuestion s) (playerAnswers s) (rewards s).
Proof.
  intros Hp Hs Hpay Hcur. unfold battleReducer.
  rewrite Hp, Hs. simpl.
  replace (Z.max 0 payload) with 0 by lia. simpl.
  apply Z.ltb_lt in Hcur. rewrite Hcur. reflexivity.
Qed.

Lemma tick_on_last_question (s : BattleState) (payload : Z) :
  inProgress s = true -> status s = IN_BATTLE -> payload <= 0 ->
  length_Z (questions s) - 1 <= currentQuestion s ->
  battleReducer BATTLE_CONFIG s (SET_TIME_LEFT payload)
  = mkBattleState (status s) (inProgress s) (questions s)
      (currentQuestion s) (score s) 0
      (timePerQuestion s) (playerAnswers s) (rewards s).
Proof.
  intros Hp Hs Hpay Hcur. unfold battleReducer.
  rewrite Hp, Hs. simpl.
  replace (Z.max 0 payload) with 0 by lia. simpl.
  apply Z.ltb_ge in Hcur. rewrite Hcur. reflexivity.
Qed.

End Tick.

(** C3 (as amended). While a battle is in progress with status ['battle'], a
    tick that brings the time to 0 with more questions remaining advances
    [currentQuestion] by one and resets [timeLeft] to the configured
    [timePerQuestion]; the score and [playerAnswers] are left as they were
    (no credit, and no entry is appended).  A tick that reaches 0 on the last
    question sets [timeLeft] to 0 and leaves the status at ['battle']. *)
Theorem tick_at_zero (BATTLE_CONFIG : BattleConfigT) (s : BattleState) (payload : Z) :
  inProgress s = true -> status s = IN_BATTLE -> payload <= 0 ->
  let s' := battleReducer BATTLE_CONFIG s (SET_TIME_LEFT payload) in
  (currentQuestion s < length_Z (questions s) - 1 ->
     currentQuestion s' = currentQuestion s + 1
     /\ timeLeft s' = cfg_timePerQuestion BATTLE_CONFIG
     /\ score s' = score s
     /\ playerAnswers s' = playerAnswers s
     /\ status s' = IN_BATTLE)
  /\ (length_Z (questions s) - 1 <= currentQuestion s ->
        currentQuestion s' = currentQuestion s
        /\ timeLeft s' = 0
        /\ score s' = score s
        /\ playerAnswers s' = playerAnswers s
        /\ status s' = IN_BATTLE).
Proof.
  intros Hp Hs Hpay. cbv zeta. split; intros Hcur.
  - rewrite (tick_advances BATTLE_CONFIG s payload Hp Hs Hpay Hcur). simpl.
    repeat split; try reflexivity. exact Hs.
  - rewrite (tick_on_last_question BATTLE_CONFIG s payload Hp Hs Hpay Hcur). simpl.
    repeat split; try reflexivity. exact Hs.
Qed.

Lemma tick_at_zero_witness :
  inProgress onFirstQuestion = true /\ status onFirstQuestion = IN_BATTLE /\ 0 <= 0
  /\ currentQuestion (battleReducer config onFirstQuestion (SET_TIME_LEFT 0)) = 1
  /\ playerAnswers (battleReducer config onFirstQuestion (SET_TIME_LEFT 0)) = [].
Proof.
  assert (H1 : inProgress onFirstQuestion = true) by reflexivity.
  assert (H2 : status onFirstQuestion = IN_BATTLE) by reflexivity.
  assert (H3 : 0 <= 0) by lia.
  assert (H4 : currentQuestion onFirstQuestion
               < length_Z (questions onFirstQuestion) - 1) by reflexivity.
  pose proof (proj1 (tick_at_zero config onFirstQuestion 0 H1 H2 H3) H4) as H.
  cbv zeta in H. destruct H as [Hc [_ [_ [Ha _]]]].
  repeat split; try assumption.
Defined.

(** The claim as worded fails on both counts: after the tick on the first of
    two questions [playerAnswers] is still empty, and after the tick on the
    last question the status is still ['battle']. *)
Lemma tick_as_specified_fails :
  ~ tick_as_specified config onFirstQuestion
  /\ ~ tick_as_specified config onLastQuestion.
Proof.
  split; intros H.
  - destruct (H eq_refl eq_refl) as [Hadv _].
    destruct (Hadv eq_refl) as [_ [_ [_ Hans]]].
    vm_compute in Hans. discriminate Hans.
  - destruct (H eq_refl eq_refl) as [_ Hlast].
    specialize (Hlast eq_refl).
    vm_compute in Hlast. discriminate Hlast.
Qed.

End BattleProps.

(** ** Submitting an answer *)

Module AnswerProps.
Import GameContext UseBattle.

Section Guard.
Variable now : Z.
Variable calculateQuestProgress : Quest -> User -> Q.
Variable checkAnswer : BattleQuestion -> string -> bool.
Variable saveBattleProgress : BattleState -> string -> option string.

Local Abbreviation answer_with :=
  (handleAnswer now calculateQuestProgress checkAnswer saveBattleProgress).
Local Abbreviation submit :=
  (submitAnswer now calculateQuestProgress checkAnswer saveBattleProgress).

(** Outside the status ['active'] the handler returns before any dispatch. *)
Lemma handleAnswer_guard (mounted : bool) (ref : BattleState) (s : GameState)
    (answer : string) (timeSpent : Q) (w : World) :
  status (battle s) <> "active"%string ->
  answer_with mounted ref s answer timeSpent w = (Returned tt, w).
Proof.
  intros H. unfold handleAnswer.
  apply String.eqb_neq in H. rewrite H. simpl.
  rewrite orb_true_r. reflexivity.
Qed.

Lemma handleAnswer_unmounted (ref : BattleState) (s : GameState)
    (answer : string) (timeSpent : Q) (w : World) :
  answer_with false ref s answer timeSpent w = (Returned tt, w).
Proof. reflexivity. Qed.

Lemma submit_guard (mounted : bool) (s : GameState) (answer : string) (timeSpent : Q) :
  status (battle s) <> "active"%string ->
  submit mounted s answer timeSpent = s.
Proof.
  intros H. unfold submitAnswer.
  rewrite (handleAnswer_guard mounted (battle s) s answer timeSpent _ H).
  reflexivity.
Qed.

(** Every status that the reducer writes is rejected by the guard. *)
Lemma submit_after_reducer_status (mounted : bool) (s : GameState) (action : GameAction)
    (answer : string) (timeSpent : Q) :
  (exists qs tpq, action = INITIALIZE_BATTLE qs tpq)
  \/ (exists r, action = END_BATTLE r) \/ action = RESET_BATTLE ->
  let s' := gameReducer now calculateQuestProgress s action in
  submit mounted s' answer timeSpent = s'.
Proof.
  intros H. cbv zeta. apply submit_guard.
  destruct H as [[qs [tpq ->]] | [[r ->] | ->]]; simpl; discriminate.
Qed.

(** No case of the reducer writes the status ['active']. *)
Lemma reducer_never_activates (s : GameState) (action : GameAction) :
  status (battle s) <> "active"%string ->
  status (battle (gameReducer now calculateQuestProgress s action)) <> "active"%string.
Proof.
  intros H.
  destruct action; unfold gameReducer, handleBattleStateUpdate, handleQuestAction;
    simpl; try exact H; try discriminate;
    repeat match goal with
           | |- context [match playerAnswers ?b with _ => _ end] =>
               destruct (playerAnswers b); simpl
           | |- context [match ?x with _ => _ end] => destruct x; simpl
           end;
    try exact H; try discriminate.
Qed.

(** The store after a run of dispatched actions. *)
Definition run (actions : list GameAction) (s : GameState) : GameState :=
  fold_left (gameReducer now calculateQuestProgress) actions s.

Lemma run_never_activates (actions : list GameAction) (s : GameState) :
  status (battle s) <> "active"%string ->
  status (battle (run actions s)) <> "active"%string.
Proof.
  revert s. induction actions as [| a actions IH]; intros s H; simpl.
  - exact H.
  - apply IH. apply reducer_never_activates. exact H.
Qed.

(** Once the status is not ['active'], whatever is dispatched afterwards, a
    later submission is still ignored. *)
Lemma late_submission_ignored (mounted : bool) (actions : list GameAction)
    (s : GameState) (answer : string) (timeSpent : Q) :
  status (battle s) <> "active"%string ->
  submit mounted (run actions s) answer timeSpent = run actions s.
Proof.
  intros H. apply submit_guard. apply run_never_activates. exact H.
Qed.

(** The battle after [ANSWER_QUESTION] on a state with [playerAnswers]. *)
Definition answered (b : BattleState) (answers : list bool) (isCorrect : bool)
    (timeSpent : Q) : BattleState :=
  mkBattleState (status b) (inProgress b) (questions b) (currentQuestion b + 1)
    (mkBattleScore
       (if isCorrect then player (score b) + Score.calculateQuestionScore timeSpent
        else player (score b))
       (opponent (score b)))
    (timePerQuestion b) (timePerQuestion b) (Some (answers ++ [isCorrect]))
    (battle_rewards b) (currentQuestionIndex b).


End Guard.

(** A battle with the status that the guard asks for, on its first
    question, and a [checkAnswer] that accepts the answer. *)
Definition activeState : GameState :=
  set_battle GameProps.sampleState
    (mkBattleState "active" true
       [BattleProps.question "q1"; BattleProps.question "q2"] 0
       (mkBattleScore 0 0) 30 30 (Some []) None (Some 0)).






End AnswerProps.

(** ** Recovering a saved battle *)

Module RecoveryProps.
Import BattleService.

Lemma latest_In (rows : list SaveRow) (r : SaveRow) :
  latest rows = Some r -> In r rows.
Proof.
  revert r. induction rows as [| a rows IH]; intros r H; simpl in H.
  - discriminate.
  - destruct (latest rows) as [r' |].
    + destruct (row_created_at a <? row_created_at r').
      * right. apply IH. exact H.
      * left. congruence.
    + left. congruence.
Qed.

Lemma latest_None (rows : list SaveRow) : latest rows = None -> rows = [].
Proof.
  destruct rows as [| a rows]; [reflexivity |]. simpl.
  destruct (latest rows) as [r' |];
    [destruct (row_created_at a <? row_created_at r') |]; discriminate.
Qed.

(** The row that the select answers with belongs to the user. *)
Lemma select_single_row (userId : string) (db : Table) (data : SaveRow) :
  select_single None userId db = inl data ->
  In data db /\ row_user_id data = userId.
Proof.
  unfold select_single.
  destruct (latest (filter (fun r => String.eqb (row_user_id r) userId) db))
    as [r |] eqn:E; [| discriminate].
  intros H. injection H as <-.
  apply latest_In in E. apply filter_In in E. destruct E as [Hin Heq].
  split; [exact Hin | apply String.eqb_eq; exact Heq].
Qed.

Lemma deleted_is_gone (rid : Z) (db : Table) (r : SaveRow) :
  In r (delete_by_id rid db) -> row_id r <> rid.
Proof.
  unfold delete_by_id. intros H. apply filter_In in H. destruct H as [_ H].
  apply negb_true_iff in H. apply Z.eqb_neq. exact H.
Qed.

Lemma others_are_kept (rid : Z) (db : Table) (r : SaveRow) :
  In r db -> row_id r <> rid -> In r (delete_by_id rid db).
Proof.
  unfold delete_by_id. intros Hin Hne. apply filter_In. split; [exact Hin |].
  apply negb_true_iff. apply Z.eqb_neq. exact Hne.
Qed.

(** C9. [recoverBattleState] returns [null] when the user has no save; for a
    save whose timestamp is more than one hour old it returns [null] and
    deletes the record; a save at most one hour old is returned, and its
    record is deleted as well. *)
Theorem recover_discards_stale_saves
    (currentTime : Z) (userId : string) (db : Table) :
  ((forall r, In r db -> row_user_id r <> userId) ->
     recoverBattleState None currentTime userId db = (Returned None, db))
  /\ (forall data saved savedTime,
        select_single None userId db = inl data ->
        battle_state data = Some saved ->
        timestamp saved = Some savedTime ->
        ((currentTime - savedTime > hourInMs) ->
           recoverBattleState None currentTime userId db
           = (Returned None, delete_by_id (row_id data) db)
           /\ ~ In data (delete_by_id (row_id data) db))
        /\ ((currentTime - savedTime <= hourInMs) ->
              recoverBattleState None currentTime userId db
              = (Returned (Some saved), delete_by_id (row_id data) db)
              /\ ~ In data (delete_by_id (row_id data) db))).
Proof.
  split.
  - intros Hnone. unfold recoverBattleState, select_single.
    assert (E : filter (fun r => String.eqb (row_user_id r) userId) db = []).
    { destruct (filter (fun r => String.eqb (row_user_id r) userId) db)
        as [| a l] eqn:E; [reflexivity |].
      assert (Hin : In a (filter (fun r => String.eqb (row_user_id r) userId) db))
        by (rewrite E; left; reflexivity).
      apply filter_In in Hin. destruct Hin as [Hin Heq].
      apply String.eqb_eq in Heq. exfalso. exact (Hnone a Hin Heq). }
    rewrite E. reflexivity.
  - intros data saved savedTime Hsel Hstate Htime.
    assert (Hgone : ~ In data (delete_by_id (row_id data) db)).
    { intros Hin. exact (deleted_is_gone _ _ _ Hin eq_refl). }
    unfold recoverBattleState. rewrite Hsel, Hstate, Htime.
    unfold isStale. split; intros Hage.
    + assert (H : (hourInMs <? currentTime - savedTime) = true)
        by (apply Z.ltb_lt; lia).
      rewrite H. split; [reflexivity | exact Hgone].
    + assert (H : (hourInMs <? currentTime - savedTime) = false)
        by (apply Z.ltb_ge; lia).
      rewrite H. split; [reflexivity | exact Hgone].
Qed.

Definition savedBattle (t : Z) : SavedBattle :=
  mkSavedBattle [BattleProps.question "q1"] 0 [] (GameContext.mkBattleScore 0 0)
    30 "battle" None (Some t).

(** One save of user "u1", written at time 1 000, and one of user "u2". *)
Definition sampleTable : Table :=
  [ mkSaveRow 1 "u1" 1000 (Some (savedBattle 1000));
    mkSaveRow 2 "u2" 1500 (Some (savedBattle 1500)) ].

Lemma recover_discards_stale_saves_witness :
  (exists data, select_single None "u1" sampleTable = inl data)
  /\ recoverBattleState None (1000 + hourInMs + 1) "u1" sampleTable
     = (Returned None, [mkSaveRow 2 "u2" 1500 (Some (savedBattle 1500))]).
Proof.
  assert (H : exists data, select_single None "u1" sampleTable = inl data)
    by (eexists; reflexivity).
  split; [exact H |].
  pose proof (proj2 (recover_discards_stale_saves (1000 + hourInMs + 1) "u1"
                       sampleTable)) as Hrec.
  specialize (Hrec (mkSaveRow 1 "u1" 1000 (Some (savedBattle 1000)))
                   (savedBattle 1000) 1000 eq_refl eq_refl eq_refl).
  destruct Hrec as [Hstale _].
  exact (proj1 (Hstale eq_refl)).
Defined.

Example recover_fresh_save :
  recoverBattleState None (1000 + hourInMs) "u1" sampleTable
  = (Returned (Some (savedBattle 1000)),
     [mkSaveRow 2 "u2" 1500 (Some (savedBattle 1500))]).
Proof. reflexivity. Qed.

Example recover_without_save :
  recoverBattleState None 5000 "u3" sampleTable = (Returned None, sampleTable).
Proof. reflexivity. Qed.

End RecoveryProps.

(** ** Quest progress *)

Module QuestProps.
Import JS Float64 Float64Props GameContext.

(** The overall progress as the specification words it:
    [floor(100 * sum(current) / sum(target))] over all requirements, a
    missing [current] counting as 0. *)
Definition sum_current (reqs : list QuestRequirement) : Q :=
  fold_right (fun r acc => (or_default (current (requirement_value r)) 0 + acc)%Q)
             0%Q reqs.

Definition sum_target (reqs : list QuestRequirement) : Q :=
  fold_right (fun r acc => (target (requirement_value r) + acc)%Q) 0%Q reqs.

Definition questProgress_spec (reqs : list QuestRequirement) : Z :=
  Qfloor (100 * sum_current reqs / sum_target reqs)%Q.

(** What [initialProgressMap] records for a requirement. *)
Definition entryOf (r : QuestRequirement) : ProgressEntry :=
  mkProgressEntry (or_default (current (requirement_value r)) 0%Q)
                  (target (requirement_value r)).

(** *** The map *)

Lemma Map_get_set_same (k : string) (v : ProgressEntry) (m : JSMap) :
  Map_get k (Map_set k v m) = Some v.
Proof.
  unfold Map_get. induction m as [| [k' v'] m IH]; simpl.
  - rewrite String.eqb_refl. reflexivity.
  - destruct (String.eqb k' k) eqn:E; simpl.
    + rewrite String.eqb_refl. reflexivity.
    + rewrite E. exact IH.
Qed.

Lemma Map_get_set_other (k k' : string) (v : ProgressEntry) (m : JSMap) :
  k' <> k -> Map_get k' (Map_set k v m) = Map_get k' m.
Proof.
  intros Hne. unfold Map_get. induction m as [| [k0 v0] m IH]; simpl.
  - assert (E : String.eqb k k' = false)
      by (apply String.eqb_neq; congruence).
    rewrite E. reflexivity.
  - destruct (String.eqb k0 k) eqn:E; simpl.
    + apply String.eqb_eq in E. subst k0.
      assert (E' : String.eqb k k' = false)
        by (apply String.eqb_neq; congruence).
      rewrite E'. reflexivity.
    + destruct (String.eqb k0 k'); [reflexivity | exact IH].
Qed.

Local Abbreviation record_req :=
  (fun (m : JSMap) (req : QuestRequirement) =>
     Map_set (req_type req)
       (mkProgressEntry (or_default (current (requirement_value req)) 0%Q)
                        (target (requirement_value req))) m).

Lemma fold_keeps_other_keys (k : string) (reqs : list QuestRequirement) (m : JSMap) :
  ~ In k (map req_type reqs) ->
  Map_get k (fold_left record_req reqs m) = Map_get k m.
Proof.
  revert m. induction reqs as [| a reqs IH]; intros m Hnot; simpl.
  - reflexivity.
  - simpl in Hnot. rewrite IH by tauto.
    apply Map_get_set_other. intros Heq. apply Hnot. left. congruence.
Qed.

Lemma fold_records_requirement (r : QuestRequirement)
    (reqs : list QuestRequirement) (m : JSMap) :
  NoDup (map req_type reqs) -> In r reqs ->
  Map_get (req_type r) (fold_left record_req reqs m) = Some (entryOf r).
Proof.
  revert m. induction reqs as [| a reqs IH]; intros m Hnd Hin; simpl.
  - contradiction.
  - simpl in Hnd. inversion Hnd as [| x l Hnotin Hnd']; subst.
    destruct Hin as [-> | Hin].
    + rewrite fold_keeps_other_keys by exact Hnotin.
      apply Map_get_set_same.
    + apply IH; assumption.
Qed.

Lemma initial_entry (r : QuestRequirement) (reqs : list QuestRequirement) :
  NoDup (map req_type reqs) -> In r reqs ->
  Map_get (req_type r) (initialProgressMap reqs) = Some (entryOf r).
Proof. intros Hnd Hin. apply fold_records_requirement; assumption. Qed.

(** The entry of the updated type after the update. *)
Lemma updated_entry (r : QuestRequirement) (reqs : list QuestRequirement) (inc : Q) :
  NoDup (map req_type reqs) -> In r reqs ->
  Map_get (req_type r) (progressMapFor reqs (req_type r) inc)
  = Some (mkProgressEntry
            (Math_min (fadd (pe_current (entryOf r)) inc) (pe_target (entryOf r)))
            (pe_target (entryOf r))).
Proof.
  intros Hnd Hin. unfold progressMapFor, Map_has.
  rewrite (initial_entry r reqs Hnd Hin).
  apply Map_get_set_same.
Qed.

(** The entries of the other types are not touched. *)
Lemma other_entry (r : QuestRequirement) (reqs : list QuestRequirement)
    (ty : string) (inc : Q) :
  NoDup (map req_type reqs) -> In r reqs -> req_type r <> ty ->
  Map_get (req_type r) (progressMapFor reqs ty inc) = Some (entryOf r).
Proof.
  intros Hnd Hin Hne. unfold progressMapFor, Map_has.
  destruct (Map_get ty (initialProgressMap reqs)) as [currentData |].
  - rewrite Map_get_set_other by exact Hne. apply initial_entry; assumption.
  - apply initial_entry; assumption.
Qed.

(** *** Numbers *)

Lemma or_default_Some (x : Q) : (or_default (Some x) 0 == x)%Q.
Proof.
  unfold or_default. destruct (Qeq_bool x 0) eqn:E.
  - apply Qeq_bool_iff in E. symmetry. exact E.
  - reflexivity.
Qed.

Lemma fold_right_sum_ext (A : Type) (f g : A -> Q) (l : list A) :
  (forall x, In x l -> (f x == g x)%Q) ->
  (fold_right (fun x acc => f x + acc) 0 l
   == fold_right (fun x acc => g x + acc) 0 l)%Q.
Proof.
  induction l as [| x l IH]; intros H; simpl.
  - reflexivity.
  - rewrite (H x) by (left; reflexivity).
    rewrite IH by (intros y Hy; apply H; right; exact Hy).
    reflexivity.
Qed.

Lemma fold_right_sum_le (A : Type) (f g : A -> Q) (l : list A) :
  (forall x, In x l -> (f x <= g x)%Q) ->
  (fold_right (fun x acc => f x + acc) 0 l
   <= fold_right (fun x acc => g x + acc) 0 l)%Q.
Proof.
  induction l as [| x l IH]; intros H; simpl.
  - lra.
  - assert (H1 : (f x <= g x)%Q) by (apply H; left; reflexivity).
    assert (H2 : (fold_right (fun x acc => f x + acc) 0 l
                  <= fold_right (fun x acc => g x + acc) 0 l)%Q)
      by (apply IH; intros y Hy; apply H; right; exact Hy).
    lra.
Qed.

Lemma fold_right_sum_map (A B : Type) (h : A -> B) (f : B -> Q) (l : list A) :
  fold_right (fun x acc => (f x + acc)%Q) 0%Q (map h l)
  = fold_right (fun x acc => (f (h x) + acc)%Q) 0%Q l.
Proof.
  induction l as [| x l IH]; simpl; [reflexivity | rewrite IH; reflexivity].
Qed.

(** The sums that [reduce] computes, one rounded addition per element. *)
Lemma fold_fadd_map (A B : Type) (h : A -> B) (f : B -> Q) (l : list A) (a : Q) :
  fold_left (fun sum x => fadd sum (f x)) (map h l) a
  = fold_left (fun sum x => fadd sum (f (h x))) l a.
Proof.
  revert a. induction l as [| x l IH]; intros a; simpl; [reflexivity | apply IH].
Qed.

Lemma fold_fadd_le (A : Type) (f g : A -> Q) (l : list A) (a b : Q) :
  (forall x, In x l -> (f x <= g x)%Q) -> (a <= b)%Q ->
  (fold_left (fun sum x => fadd sum (f x)) l a
   <= fold_left (fun sum x => fadd sum (g x)) l b)%Q.
Proof.
  revert a b. induction l as [| x l IH]; intros a b H Hab; simpl.
  - exact Hab.
  - apply IH.
    + intros y Hy. apply H. right. exact Hy.
    + apply fadd_mono; [exact Hab | apply H; left; reflexivity].
Qed.

Lemma fold_fadd_double (A : Type) (f : A -> Q) (l : list A) (a : Q) :
  fl a = a ->
  fl (fold_left (fun sum x => fadd sum (f x)) l a)
  = fold_left (fun sum x => fadd sum (f x)) l a.
Proof.
  revert a. induction l as [| x l IH]; intros a Ha; simpl.
  - exact Ha.
  - apply IH. apply fl_fadd.
Qed.

(** A non-negative whole number. *)
Definition whole (q : Q) : Prop := exists z : Z, 0 <= z /\ (q == inject_Z z)%Q.

Lemma whole_nonneg (q : Q) : whole q -> (0 <= q)%Q.
Proof.
  intros [z [Hz Hq]]. rewrite Hq. change 0%Q with (inject_Z 0).
  rewrite <- Zle_Qle. exact Hz.
Qed.

Lemma sum_of_whole (A : Type) (f : A -> Q) (l : list A) :
  (forall x, In x l -> whole (f x)) ->
  whole (fold_right (fun x acc => f x + acc) 0 l)%Q.
Proof.
  induction l as [| x l IH]; intros H; simpl.
  - exists 0. split; [lia | reflexivity].
  - destruct (H x (or_introl eq_refl)) as [z [Hz Hq]].
    destruct IH as [z' [Hz' Hq']]; [intros y Hy; apply H; right; exact Hy |].
    exists (z + z'). split; [lia |]. rewrite inject_Z_plus, Hq, Hq'. reflexivity.
Qed.

(** Whole numbers add without rounding as long as the sum stays within 53
    bits. *)
Lemma fadd_whole (a b : Q) :
  whole a -> whole b -> (a + b <= 9007199254740992)%Q ->
  (fadd a b == a + b)%Q.
Proof.
  intros [x [Hx Ha]] [y [Hy Hb]] Hle.
  assert (Hxy : x + y <= 2 ^ 53).
  { rewrite Ha, Hb, <- inject_Z_plus in Hle.
    change 9007199254740992%Q with (inject_Z (2 ^ 53)) in Hle.
    rewrite <- Zle_Qle in Hle. exact Hle. }
  unfold fadd.
  rewrite (fl_comp a (inject_Z x) Ha), (fl_comp b (inject_Z y) Hb).
  assert (E : (fl (inject_Z x) + fl (inject_Z y) == inject_Z (x + y))%Q).
  { rewrite !fl_Z by lia. rewrite inject_Z_plus. reflexivity. }
  rewrite (fl_comp _ _ E), fl_Z by lia.
  rewrite inject_Z_plus, Ha, Hb. reflexivity.
Qed.

Lemma fold_fadd_whole (A : Type) (f : A -> Q) (l : list A) (a : Q) :
  whole a -> (forall x, In x l -> whole (f x)) ->
  (a + fold_right (fun x acc => f x + acc) 0 l <= 9007199254740992)%Q ->
  (fold_left (fun sum x => fadd sum (f x)) l a
   == a + fold_right (fun x acc => f x + acc) 0 l)%Q.
Proof.
  revert a. induction l as [| x l IH]; intros a Ha H Hle; simpl in *.
  - ring.
  - assert (Hx : whole (f x)) by (apply H; left; reflexivity).
    assert (Hrest : whole (fold_right (fun x acc => f x + acc) 0 l)%Q)
      by (apply sum_of_whole; intros y Hy; apply H; right; exact Hy).
    pose proof (whole_nonneg _ Hrest) as Hr0.
    assert (Hadd : (fadd a (f x) == a + f x)%Q) by (apply fadd_whole; [| | lra]; assumption).
    rewrite IH.
    + rewrite Hadd. ring.
    + destruct Ha as [z [Hz Hq]]. destruct Hx as [z' [Hz' Hq']].
      exists (z + z'). split; [lia |].
      rewrite Hadd, inject_Z_plus, Hq, Hq'. reflexivity.
    + intros y Hy. apply H. right. exact Hy.
    + rewrite Hadd. lra.
Qed.

(** *** The updated requirements *)

Local Abbreviation rv := requirement_value.

Section Update.
Variable reqs : list QuestRequirement.
Variable ty : string.
Variable inc : Q.
Hypothesis distinct_types : NoDup (map req_type reqs).

Local Abbreviation pm := (progressMapFor reqs ty inc).
Local Abbreviation upd := (updatedRequirements reqs pm).

Lemma current_of_updated (r : QuestRequirement) :
  In r reqs -> req_type r = ty ->
  (currentOf pm r
   == Qmin (fadd (or_default (current (rv r)) 0) inc) (target (rv r)))%Q.
Proof.
  intros Hin Hty. unfold currentOf. subst ty.
  rewrite (updated_entry r reqs inc distinct_types Hin). simpl.
  apply or_default_Some.
Qed.

Lemma current_of_other (r : QuestRequirement) :
  In r reqs -> req_type r <> ty ->
  (currentOf pm r == or_default (current (rv r)) 0)%Q.
Proof.
  intros Hin Hty. unfold currentOf.
  rewrite (other_entry r reqs ty inc distinct_types Hin Hty). simpl.
  apply or_default_Some.
Qed.

Lemma updated_within_target (r : QuestRequirement) :
  In r reqs -> req_type r = ty -> (currentOf pm r <= target (rv r))%Q.
Proof.
  intros Hin Hty. rewrite (current_of_updated r Hin Hty). apply Q.le_min_r.
Qed.

Lemma all_within_target :
  (forall r, In r reqs -> (or_default (current (rv r)) 0 <= target (rv r))%Q) ->
  forall r, In r reqs -> (currentOf pm r <= target (rv r))%Q.
Proof.
  intros Hall r Hin.
  destruct (String.eqb (req_type r) ty) eqn:E.
  - apply String.eqb_eq in E. apply updated_within_target; assumption.
  - apply String.eqb_neq in E. rewrite (current_of_other r Hin E).
    apply Hall. exact Hin.
Qed.

End Update.

(** The two sums of [handleQuestProgress] run over the updated
    requirements, which keep the targets and carry the currents of the
    map. *)
Lemma totalTarget_updated (reqs : list QuestRequirement) (m : JSMap) :
  totalTarget (updatedRequirements reqs m)
  = fold_left (fun sum r => fadd sum (target (rv r))) reqs 0%Q.
Proof.
  unfold totalTarget, updatedRequirements.
  rewrite (fold_fadd_map _ _ _ (fun r => target (rv r))). reflexivity.
Qed.

Lemma currentTotal_updated (reqs : list QuestRequirement) (m : JSMap) :
  currentTotal (updatedRequirements reqs m) m
  = fold_left (fun sum r => fadd sum (currentOf m r)) reqs 0%Q.
Proof.
  unfold currentTotal, updatedRequirements.
  rewrite (fold_fadd_map _ _ _ (fun r => currentOf m r)). reflexivity.
Qed.

Lemma sum_target_updated (reqs : list QuestRequirement) (m : JSMap) :
  sum_target (updatedRequirements reqs m) = sum_target reqs.
Proof.
  unfold sum_target, updatedRequirements.
  rewrite (fold_right_sum_map _ _ _ (fun r => target (rv r))). reflexivity.
Qed.

Lemma sum_current_updated (reqs : list QuestRequirement) (m : JSMap) :
  (sum_current (updatedRequirements reqs m)
   == fold_right (fun r acc => currentOf m r + acc) 0 reqs)%Q.
Proof.
  unfold sum_current, updatedRequirements.
  rewrite (fold_right_sum_map _ _ _ (fun r => or_default (current (rv r)) 0%Q)).
  apply fold_right_sum_ext. intros r _. simpl. apply or_default_Some.
Qed.

Lemma overallProgress_at_most_100 (reqs : list QuestRequirement) (m : JSMap) :
  (forall r, In r reqs -> (currentOf m r <= target (rv r))%Q) ->
  (0 < totalTarget (updatedRequirements reqs m))%Q ->
  overallProgress (updatedRequirements reqs m) m <= 100.
Proof.
  intros Hall Hpos.
  assert (Hle : (currentTotal (updatedRequirements reqs m) m
                 <= totalTarget (updatedRequirements reqs m))%Q).
  { rewrite currentTotal_updated, totalTarget_updated.
    apply fold_fadd_le; [exact Hall | apply Qle_refl]. }
  assert (HT : fl (totalTarget (updatedRequirements reqs m))
               = totalTarget (updatedRequirements reqs m)).
  { unfold totalTarget. apply fold_fadd_double. reflexivity. }
  set (C := currentTotal (updatedRequirements reqs m) m) in *.
  set (T := totalTarget (updatedRequirements reqs m)) in *.
  unfold overallProgress, Math_floor. fold C T.
  assert (Hq : (fdiv C T <= 1)%Q).
  { unfold fdiv. rewrite HT. apply (fl_upper _ 1 ScoreProps.fl_1).
    pose proof (fl_upper C T HT Hle).
    apply Qle_shift_div_r; [exact Hpos | lra]. }
  apply Z.le_trans with (Qfloor 100%Q); [| discriminate].
  apply Qfloor_resp_le.
  unfold fmul. rewrite fl_fdiv, ScoreProps.fl_100.
  apply (fl_upper _ 100 ScoreProps.fl_100). lra.
Qed.

(** The exact percentage of whole numbers is a whole number, or it is at
    least [1/total] away from the whole numbers on both sides. *)
Lemma percent_split (c t : Z) :
  0 <= c -> 0 < t -> t <= 35184372088832 ->
  exists (q : Z) (u : Q),
    (inject_Z c / inject_Z t * 100 == inject_Z q + u)%Q
    /\ ((u == 0)%Q /\ 100 * c = q * t
        \/ ((1 # 35184372088832) <= u)%Q /\ (u <= 1 - (1 # 35184372088832))%Q
           /\ forall k : Z, 100 * c <> k * t).
Proof.
  intros Hc Ht Hmax.
  pose proof (Z.div_mod (100 * c) t ltac:(lia)) as Hdm.
  pose proof (Z.mod_pos_bound (100 * c) t Ht) as Hr.
  set (q := (100 * c) / t) in *. set (r := (100 * c) mod t) in *.
  assert (HtQ : (0 < inject_Z t)%Q).
  { change 0%Q with (inject_Z 0). rewrite <- Zlt_Qlt. exact Ht. }
  assert (HtM : (inject_Z t <= 35184372088832)%Q).
  { change 35184372088832%Q with (inject_Z 35184372088832).
    rewrite <- Zle_Qle. exact Hmax. }
  exists q, (inject_Z r / inject_Z t)%Q. split.
  - assert (E : (inject_Z (100 * c) == inject_Z (t * q + r))%Q) by (rewrite Hdm; reflexivity).
    rewrite inject_Z_plus, !inject_Z_mult in E.
    change (inject_Z 100) with 100%Q in E.
    field_simplify_eq; [| lra]. lra.
  - destruct (Z.eq_dec r 0) as [Hz | Hnz].
    + left. split.
      * rewrite Hz. unfold Qdiv. change (inject_Z 0) with 0%Q. ring.
      * lia.
    + right. assert (H1 : 1 <= r) by lia. assert (H2 : r <= t - 1) by lia.
      assert (H1Q : (1 <= inject_Z r)%Q).
      { change 1%Q with (inject_Z 1). rewrite <- Zle_Qle. exact H1. }
      assert (H2Q : (inject_Z r + 1 <= inject_Z t)%Q).
      { change 1%Q with (inject_Z 1). rewrite <- inject_Z_plus.
        rewrite <- Zle_Qle. lia. }
      split; [| split].
      * apply Qle_shift_div_l; [exact HtQ | lra].
      * apply Qle_shift_div_r; [exact HtQ | lra].
      * intros k Hk.
        assert (Hmod : (100 * c) mod t = 0).
        { rewrite Hk. apply Z.mod_mul. lia. }
        fold r in Hmod. lia.
Qed.

Lemma Qfloor_unique (x : Q) (q : Z) :
  (inject_Z q <= x)%Q -> (x < inject_Z q + 1)%Q -> Qfloor x = q.
Proof.
  intros H1 H2.
  pose proof (Qfloor_le x) as Hx1. pose proof (Qlt_floor x) as Hx2.
  rewrite inject_Z_plus in Hx2. change (inject_Z 1) with 1%Q in Hx2.
  assert (A : (inject_Z (Qfloor x) < inject_Z (q + 1))%Q).
  { rewrite inject_Z_plus. change (inject_Z 1) with 1%Q. lra. }
  assert (B : (inject_Z q < inject_Z (Qfloor x + 1))%Q).
  { rewrite inject_Z_plus. change (inject_Z 1) with 1%Q. lra. }
  rewrite <- Zlt_Qlt in A, B. lia.
Qed.

(** For whole numbers within their targets and a total target of at most
    [2^45] the percentage is the exact one or one below it, and it is the
    exact one unless [100 * sum(current) / sum(target)] is a whole number. *)
Lemma overallProgress_exact_or_below (reqs : list QuestRequirement) (m : JSMap) :
  (forall r, In r reqs ->
     whole (currentOf m r) /\ whole (target (rv r))
     /\ (currentOf m r <= target (rv r))%Q) ->
  (0 < sum_target reqs)%Q -> (sum_target reqs <= 35184372088832)%Q ->
  questProgress_spec (updatedRequirements reqs m) - 1
  <= overallProgress (updatedRequirements reqs m) m
  <= questProgress_spec (updatedRequirements reqs m)
  /\ ((forall k : Z,
         ~ (100 * sum_current (updatedRequirements reqs m)
            == inject_Z k * sum_target (updatedRequirements reqs m))%Q) ->
      overallProgress (updatedRequirements reqs m) m
      = questProgress_spec (updatedRequirements reqs m)).
Proof.
  intros Hall Hpos Hmax.
  assert (Hzero : whole 0) by (exists 0; split; [lia | reflexivity]).
  assert (HT : (totalTarget (updatedRequirements reqs m) == sum_target reqs)%Q).
  { rewrite totalTarget_updated. unfold sum_target. rewrite fold_fadd_whole.
    - ring.
    - exact Hzero.
    - intros r Hr. apply Hall. exact Hr.
    - fold (sum_target reqs). lra. }
  assert (Hle : (fold_right (fun r acc => currentOf m r + acc) 0 reqs
                  <= sum_target reqs)%Q).
  { unfold sum_target. apply fold_right_sum_le. intros r Hr. apply Hall. exact Hr. }
  assert (HC : (currentTotal (updatedRequirements reqs m) m
                == fold_right (fun r acc => currentOf m r + acc) 0 reqs)%Q).
  { rewrite currentTotal_updated. rewrite fold_fadd_whole.
    - ring.
    - exact Hzero.
    - intros r Hr. apply Hall. exact Hr.
    - lra. }
  assert (HwC : whole (fold_right (fun r acc => currentOf m r + acc) 0 reqs)%Q).
  { apply sum_of_whole. intros r Hr. apply Hall. exact Hr. }
  assert (HwT : whole (sum_target reqs)).
  { unfold sum_target. apply sum_of_whole. intros r Hr. apply Hall. exact Hr. }
  pose proof (whole_nonneg _ HwC) as HC0.
  unfold overallProgress, questProgress_spec, Math_floor.
  rewrite (sum_target_updated reqs m).
  rewrite (Qfloor_comp _ _
             (Qdiv_comp _ _ (Qmult_comp _ _ (Qeq_refl 100) _ _ (sum_current_updated reqs m))
                _ _ (Qeq_refl (sum_target reqs)))).
  assert (Hnk : forall k : Z,
            (100 * sum_current (updatedRequirements reqs m) == inject_Z k * sum_target reqs)%Q
            <-> (100 * fold_right (fun r acc => currentOf m r + acc) 0 reqs
                 == inject_Z k * sum_target reqs)%Q).
  { intros k. rewrite (sum_current_updated reqs m). reflexivity. }
  assert (HdT : fl (totalTarget (updatedRequirements reqs m))
                = totalTarget (updatedRequirements reqs m))
    by (unfold totalTarget; apply fold_fadd_double; reflexivity).
  assert (HdC : fl (currentTotal (updatedRequirements reqs m) m)
                = currentTotal (updatedRequirements reqs m) m)
    by (unfold currentTotal; apply fold_fadd_double; reflexivity).
  set (C' := currentTotal (updatedRequirements reqs m) m) in *.
  set (T' := totalTarget (updatedRequirements reqs m)) in *.
  set (C := fold_right (fun r acc => (currentOf m r + acc)%Q) 0%Q reqs) in *.
  set (T := sum_target reqs) in *.
  assert (Hx : (0 <= C / T <= 1)%Q).
  { split.
    - apply Qle_shift_div_l; [exact Hpos | lra].
    - apply Qle_shift_div_r; [exact Hpos | lra]. }
  assert (Hd : fdiv C' T' = fl (C / T)).
  { unfold fdiv. rewrite HdC, HdT. apply fl_comp. rewrite HC, HT. reflexivity. }
  assert (He : (C / T - (1 # 9007199254740992) <= fl (C / T)
                <= C / T + (1 # 9007199254740992))%Q).
  { apply (fl_error (C / T) 0); [lia | |]; change (pow2 0) with 1%Q; lra. }
  assert (Hd1 : (0 <= fl (C / T) <= 1)%Q).
  { split; [apply fl_nonneg | apply (fl_upper _ 1 ScoreProps.fl_1)]; lra. }
  assert (Hp : (fl (C / T) * 100 - (1 # 70368744177664) <= fmul (fdiv C' T') 100
                <= fl (C / T) * 100 + (1 # 70368744177664))%Q).
  { unfold fmul. rewrite fl_fdiv, ScoreProps.fl_100, Hd.
    apply (fl_error (fl (C / T) * 100) 7); [lia | |];
      change (pow2 7) with 128%Q; lra. }
  assert (Hexact : (100 * C / T == C / T * 100)%Q) by (field; lra).
  rewrite (Qfloor_comp _ _ Hexact).
  destruct HwC as [c [Hc0 HcQ]]. destruct HwT as [t [Ht0 HtQ]].
  assert (Htpos : 0 < t).
  { rewrite HtQ in Hpos. change 0%Q with (inject_Z 0) in Hpos.
    rewrite <- Zlt_Qlt in Hpos. exact Hpos. }
  assert (Htmax : t <= 35184372088832).
  { rewrite HtQ in Hmax. change 35184372088832%Q with (inject_Z 35184372088832) in Hmax.
    rewrite <- Zle_Qle in Hmax. exact Hmax. }
  destruct (percent_split c t Hc0 Htpos Htmax) as [q [u [Hy Hcases]]].
  assert (Hy' : (C / T * 100 == inject_Z q + u)%Q).
  { rewrite <- Hy. rewrite HcQ, HtQ. reflexivity. }
  set (x := fmul (fdiv C' T') 100) in *.
  destruct Hcases as [[Hu Hdiv] | [Hu1 [Hu2 Hndiv]]].
  - assert (Hfy : Qfloor (C / T * 100) = q).
    { apply Qfloor_unique; lra. }
    rewrite Hfy. split.
    + assert (Hlo : (inject_Z (q - 1) <= x)%Q).
      { assert (Hm : (inject_Z (q - 1) == inject_Z q - 1)%Q).
        { unfold Z.sub. rewrite inject_Z_plus. reflexivity. }
        rewrite Hm. lra. }
      assert (Hhi : (x < inject_Z (q + 1))%Q).
      { rewrite inject_Z_plus. change (inject_Z 1) with 1%Q. lra. }
      pose proof (Qfloor_le x) as Hx1. pose proof (Qlt_floor x) as Hx2.
      assert (A : (inject_Z (q - 1) < inject_Z (Qfloor x + 1))%Q) by lra.
      assert (B : (inject_Z (Qfloor x) < inject_Z (q + 1))%Q) by lra.
      rewrite <- Zlt_Qlt in A, B. lia.
    + intros Hnot. exfalso. apply (Hnot q). rewrite Hnk.
      rewrite HcQ, HtQ. rewrite <- !inject_Z_mult.
      change 100%Q with (inject_Z 100). rewrite <- inject_Z_mult.
      rewrite Hdiv. reflexivity.
  - assert (Hfy : Qfloor (C / T * 100) = q).
    { apply Qfloor_unique; lra. }
    assert (Hfx : Qfloor x = q).
    { apply Qfloor_unique; lra. }
    rewrite Hfy, Hfx. split; [lia | reflexivity].
Qed.
(** *** The claim and its amendment *)

Definition requirement (ty : string) (cur : option Q) (tgt : Q) : QuestRequirement :=
  mkQuestRequirement ("req-" ++ ty) ty (mkRequirementValue tgt cur) None.

(** The claim as the specification words it, for one list of requirements,
    one requirement type and one increment. *)
Definition clamp_as_specified (reqs : list QuestRequirement) (ty : string) (inc : Q)
    : Prop :=
  let progressMap := progressMapFor reqs ty inc in
  let updated := updatedRequirements reqs progressMap in
  (forall r, In r reqs -> req_type r = ty ->
     (currentOf progressMap r
      == Qmin (or_default (current (rv r)) 0 + inc) (target (rv r)))%Q
     /\ (currentOf progressMap r <= target (rv r))%Q)
  /\ overallProgress updated progressMap = questProgress_spec updated
  /\ overallProgress updated progressMap <= 100.

(** Two requirements of one type: the map keeps the entry of the second. *)
Definition sameTypeTwice : list QuestRequirement :=
  [requirement "battle" (Some 0%Q) 10%Q; requirement "battle" (Some 0%Q) 30%Q].

(** A requirement that is already beyond its target. *)
Definition beyondTarget : list QuestRequirement :=
  [requirement "battle" (Some 40%Q) 8%Q; requirement "study" (Some 0%Q) 8%Q].

(** Negative targets. *)
Definition negativeTargets : list QuestRequirement :=
  [requirement "battle" None (-10)%Q; requirement "study" (Some (-30)%Q) (-10)%Q].

(** One requirement at 28 of 50. *)
Definition twentyEightOfFifty : list QuestRequirement :=
  [requirement "battle" (Some 28%Q) 50%Q].

(** One requirement at 0.1 of 1 (the double nearest to 0.1). *)
Definition oneTenth : list QuestRequirement :=
  [requirement "study" (Some (fl (1 # 10))) 1%Q].

(** The claim as worded fails: with a repeated type the first requirement
    ends at 30 with a target of 10; with a requirement beyond its target the
    overall progress is 275; with negative targets it is 200; at 29 of 50
    the quotient is [0.58] and its product with 100 is
    [57.99999999999999] in doubles, so the overall progress is 57 where the
    formula gives 58; and 0.1 plus 0.2 is [0.30000000000000004], not their
    exact sum. *)
Lemma clamp_as_specified_fails :
  ~ clamp_as_specified sameTypeTwice "battle" 30
  /\ ~ clamp_as_specified beyondTarget "study" 4
  /\ ~ clamp_as_specified negativeTargets "battle" 0
  /\ ~ clamp_as_specified twentyEightOfFifty "battle" 1
  /\ ~ clamp_as_specified oneTenth "study" (fl (2 # 10)).
Proof.
  split; [| split; [| split; [| split]]].
  - intros [Hreq [_ Hcap]].
    destruct (Hreq (requirement "battle" (Some 0%Q) 10%Q)) as [_ Hle];
      [left; reflexivity | reflexivity |].
    vm_compute in Hle. apply Hle. reflexivity.
  - intros [_ [_ Hcap]]. vm_compute in Hcap. apply Hcap. reflexivity.
  - intros [_ [_ Hcap]]. vm_compute in Hcap. apply Hcap. reflexivity.
  - intros [_ [Heq _]]. vm_compute in Heq. discriminate Heq.
  - intros [Hreq _].
    destruct (Hreq (requirement "study" (Some (fl (1 # 10))) 1%Q)) as [Heq _];
      [left; reflexivity | reflexivity |].
    vm_compute in Heq. discriminate Heq.
Qed.

(** C6 (as amended). For requirements with pairwise distinct types, the
    update sets the current progress of the requirement of the given type to
    [min(current + increment, target)], the sum rounded to the nearest
    double (a missing [current] reads as 0), which never exceeds its target,
    and keeps the current progress of every other requirement.  The
    recomputed overall progress is [floor((sum(current) / sum(target)) * 100)]
    over the updated requirements with every operation rounded to the
    nearest double: it never exceeds 100 when every requirement starts
    within its target and the total target is positive, and for
    non-negative whole numbers within their targets, with a positive total
    target of at most 2^45, it is [floor(100 * sum(current) / sum(target))]
    computed exactly or one below it, and it is that exact value unless
    [100 * sum(current) / sum(target)] is a whole number. *)
Theorem quest_progress_clamped (reqs : list QuestRequirement) (ty : string) (inc : Q) :
  NoDup (map req_type reqs) ->
  let progressMap := progressMapFor reqs ty inc in
  let updated := updatedRequirements reqs progressMap in
  (forall r, In r reqs -> req_type r = ty ->
     (currentOf progressMap r
      == Qmin (fadd (or_default (current (rv r)) 0) inc) (target (rv r)))%Q
     /\ (currentOf progressMap r <= target (rv r))%Q)
  /\ (forall r, In r reqs -> req_type r <> ty ->
        (currentOf progressMap r == or_default (current (rv r)) 0)%Q)
  /\ ((forall r, In r reqs -> (or_default (current (rv r)) 0 <= target (rv r))%Q) ->
      (0 < totalTarget updated)%Q ->
      overallProgress updated progressMap <= 100)
  /\ ((forall r, In r reqs ->
         whole (currentOf progressMap r) /\ whole (target (rv r))
         /\ (currentOf progressMap r <= target (rv r))%Q) ->
      (0 < sum_target reqs)%Q -> (sum_target reqs <= 35184372088832)%Q ->
      questProgress_spec updated - 1
      <= overallProgress updated progressMap
      <= questProgress_spec updated
      /\ ((forall k : Z,
             ~ (100 * sum_current updated == inject_Z k * sum_target updated)%Q) ->
          overallProgress updated progressMap = questProgress_spec updated)).
Proof.
  intros Hnd. cbv zeta. split; [| split; [| split]].
  - intros r Hin Hty. split.
    + apply current_of_updated; assumption.
    + apply updated_within_target; assumption.
  - intros r Hin Hty. apply current_of_other; assumption.
  - intros Hall Hpos. apply overallProgress_at_most_100; [| exact Hpos].
    apply all_within_target; assumption.
  - apply overallProgress_exact_or_below.
Qed.

(** One requirement at 4 of 5 and one not started, of 10. *)
Definition twoRequirements : list QuestRequirement :=
  [requirement "battle" (Some 4%Q) 5%Q; requirement "study" None 10%Q].

Lemma quest_progress_clamped_witness :
  NoDup (map req_type twoRequirements)
  /\ (currentOf (progressMapFor twoRequirements "battle" 3)
        (requirement "battle" (Some 4%Q) 5%Q)
      == Qmin (fadd 4 3) 5)%Q
  /\ overallProgress
       (updatedRequirements twoRequirements
          (progressMapFor twoRequirements "battle" 3))
       (progressMapFor twoRequirements "battle" 3)
     <= 100
  /\ overallProgress
       (updatedRequirements twoRequirements
          (progressMapFor twoRequirements "battle" 3))
       (progressMapFor twoRequirements "battle" 3)
     = questProgress_spec
         (updatedRequirements twoRequirements
            (progressMapFor twoRequirements "battle" 3)).
Proof.
  assert (Hnd : NoDup (map req_type twoRequirements)).
  { simpl. constructor.
    - simpl. intros [H | H]; [discriminate H | exact H].
    - constructor; [simpl; tauto | constructor]. }
  pose proof (quest_progress_clamped twoRequirements "battle" 3 Hnd) as H.
  cbv zeta in H. destruct H as [Hreq [_ [Hcap Hnear]]].
  split; [exact Hnd |]. split; [| split].
  - apply (Hreq (requirement "battle" (Some 4%Q) 5%Q));
      [left; reflexivity | reflexivity].
  - apply Hcap.
    + intros r [<- | [<- | []]]; vm_compute; discriminate.
    + vm_compute. reflexivity.
  - apply Hnear.
    + intros r [<- | [<- | []]].
      * split; [exists 5; split; [lia | vm_compute; reflexivity] |].
        split; [exists 5; split; [lia | vm_compute; reflexivity] |].
        vm_compute. discriminate.
      * split; [exists 0; split; [lia | vm_compute; reflexivity] |].
        split; [exists 10; split; [lia | vm_compute; reflexivity] |].
        vm_compute. discriminate.
    + vm_compute. reflexivity.
    + vm_compute. discriminate.
    + intros k Hk.
      set (cur := sum_current _) in Hk. set (tgt := sum_target _) in Hk.
      vm_compute in cur, tgt. subst cur tgt.
      unfold Qeq in Hk. cbn in Hk. lia.
Defined.

Example overall_beyondTarget :
  overallProgress
    (updatedRequirements beyondTarget (progressMapFor beyondTarget "study" 4))
    (progressMapFor beyondTarget "study" 4) = 275.
Proof. vm_compute. reflexivity. Qed.

Example overall_of_twoRequirements :
  overallProgress
    (updatedRequirements twoRequirements (progressMapFor twoRequirements "battle" 3))
    (progressMapFor twoRequirements "battle" 3) = 33.
Proof. vm_compute. reflexivity. Qed.

Example overall_of_twentyNineOfFifty :
  overallProgress
    (updatedRequirements twentyEightOfFifty
       (progressMapFor twentyEightOfFifty "battle" 1))
    (progressMapFor twentyEightOfFifty "battle" 1) = 57
  /\ questProgress_spec
       (updatedRequirements twentyEightOfFifty
          (progressMapFor twentyEightOfFifty "battle" 1)) = 58.
Proof. split; vm_compute; reflexivity. Qed.

(** *** What the handler leaves in the store *)

(** When some requirement is still short of its target, the store ends with
    the updated requirements and the overall progress on the quest. *)
Lemma handleQuestProgress_store (now : Z) (calculateQuestProgress : Quest -> User -> Q)
    (s : GameState) (quest userQuest : Quest) (req : QuestRequirement) (inc : Q) :
  find (fun q => String.eqb (quest_id q) (quest_id quest)
                 && negb (isCompleted q) && is_active q)
       (quests (user s)) = Some userQuest ->
  let progressMap := progressMapFor (requirements userQuest) (req_type req) inc in
  let updated := updatedRequirements (requirements userQuest) progressMap in
  allCompleted updated progressMap = false ->
  quests (user (store (snd (handleQuestProgress now calculateQuestProgress
                              s quest req inc (mkWorld s [])))))
  = map (fun q =>
           if String.eqb (quest_id q) (quest_id quest)
           then set_requirements_progress q updated
                  (Some (inject_Z (overallProgress updated progressMap)))
           else q)
        (quests (user s)).
Proof.
  intros Hfind. cbv zeta. intros Hall.
  unfold handleQuestProgress. rewrite Hfind, Hall. reflexivity.
Qed.

Definition dailyQuest : Quest :=
  mkQuest "quest-1" "Win battles" (Some IN_PROGRESS)
    [requirement "battle" (Some 4%Q) 5%Q] 50%Q 10%Q (Some 80%Q) true "daily"
    None None.

Definition questState : GameState :=
  set_user GameProps.sampleState (set_quests GameProps.sampleUser [dailyQuest]).

(** The step that completes [dailyQuest]: the handler computes 5 of 5 for
    the requirement, and the closing [UPDATE_QUEST_PROGRESS] with
    [progress: 100] stores 100 as the requirement's current progress. *)
Example completion_stores_percentage :
  let pm := progressMapFor (requirements dailyQuest) "battle" 1 in
  (currentOf pm (requirement "battle" (Some 4%Q) 5%Q) == 5)%Q
  /\ map (fun q => map (fun r => current (rv r)) (requirements q))
         (quests (user (store (snd
            (handleQuestProgress 0 (fun _ _ => 100%Q) questState dailyQuest
               (requirement "battle" (Some 4%Q) 5%Q) 1 (mkWorld questState []))))))
     = [[Some 100%Q]].
Proof. split; reflexivity. Qed.

End QuestProps.

(* ===================================================================== *)
(** * Further functions of the cited files *)
(* ===================================================================== *)

(** ** JavaScript numbers with infinities and [NaN] *)

Module JSNum.
Import JS.

Inductive jsnum : Type :=
| Num (q : Q)
| PosInf
| NegInf
| NaN.

Definition of_xnum (a : xnum) : jsnum :=
  match a with
  | Finite z => Num (inject_Z z)
  | Infinity => PosInf
  end.

(** [a - b]. *)
Definition jsub (a b : jsnum) : jsnum :=
  match a, b with
  | NaN, _ | _, NaN => NaN
  | Num x, Num y => Num (x - y)
  | Num _, PosInf => NegInf
  | Num _, NegInf => PosInf
  | PosInf, PosInf => NaN
  | PosInf, _ => PosInf
  | NegInf, NegInf => NaN
  | NegInf, _ => NegInf
  end.

(** [a / b]; the sign of a zero is not tracked, a zero divisor counts as
    [+0]. *)
Definition jdiv (a b : jsnum) : jsnum :=
  match a, b with
  | NaN, _ | _, NaN => NaN
  | Num x, Num y =>
      if Qeq_bool y 0 then
        if Qeq_bool x 0 then NaN else if Qltb 0 x then PosInf else NegInf
      else Num (x / y)
  | Num _, _ => Num 0
  | PosInf, Num y => if Qltb y 0 then NegInf else PosInf
  | NegInf, Num y => if Qltb y 0 then PosInf else NegInf
  | _, _ => NaN
  end.

(** [a * 100]. *)
Definition jtimes100 (a : jsnum) : jsnum :=
  match a with
  | Num x => Num (x * 100)
  | other => other
  end.

(** [Math.floor(a)]. *)
Definition jfloor (a : jsnum) : jsnum :=
  match a with
  | Num x => Num (inject_Z (Qfloor x))
  | other => other
  end.

(** [Math.min(100, a)]. *)
Definition jmin100 (a : jsnum) : jsnum :=
  match a with
  | Num x => Num (Qmin 100 x)
  | PosInf => Num 100
  | NegInf => NegInf
  | NaN => NaN
  end.

End JSNum.

(** ** [LevelSystem]: progress within a level *)

Module LevelProgress.
Import JS JSNum LevelSystem.

Section WithConfig.
Variable GameConfig : GameConfigT.

(** [calculateXPToNextLevel(currentXP)]. *)
Definition calculateXPToNextLevel (currentXP : Q) : jsnum :=
  let currentLevel := calculateLevel GameConfig currentXP in
  if MAX_LEVEL GameConfig <=? currentLevel then Num 0
  else
    let nextLevelXP := calculateTotalXPForLevel GameConfig (currentLevel + 1) in
    jsub (of_xnum nextLevelXP) (Num currentXP).

(** [calculateProgress(xp)]. *)
Definition calculateProgress (xp : Q) : jsnum :=
  let currentLevel := calculateLevel GameConfig xp in
  if MAX_LEVEL GameConfig <=? currentLevel then Num 100
  else
    let currentLevelXP := calculateTotalXPForLevel GameConfig currentLevel in
    let nextLevelXP := calculateTotalXPForLevel GameConfig (currentLevel + 1) in
    let levelXP := jsub (of_xnum nextLevelXP) (of_xnum currentLevelXP) in
    let progress := jsub (Num xp) (of_xnum currentLevelXP) in
    jmin100 (jfloor (jtimes100 (jdiv progress levelXP))).

End WithConfig.
End LevelProgress.

Module LevelProgressProps.
Import JS JSNum LevelSystem LevelProgress.

Section WithConfig.
Variable GameConfig : GameConfigT.

Local Abbreviation total := (calculateTotalXPForLevel GameConfig).
Local Abbreviation cost := (calculateXPForLevel GameConfig).
Local Abbreviation loop := (calculateLevel_loop GameConfig).
Local Abbreviation MAX := (MAX_LEVEL GameConfig).

(** One more turn of the [for] loop adds the cost of the next level. *)
Lemma total_loop_snoc (n : nat) (i : Z) (acc : xnum) :
  calculateTotalXPForLevel_loop GameConfig (S n) i acc
  = xadd (calculateTotalXPForLevel_loop GameConfig n i acc) (cost (i + Z.of_nat n)).
Proof.
  revert i acc. induction n as [| n IH]; intros i acc.
  - simpl. rewrite Z.add_0_r. reflexivity.
  - change (calculateTotalXPForLevel_loop GameConfig (S (S n)) i acc)
      with (calculateTotalXPForLevel_loop GameConfig (S n) (i + 1)
              (xadd acc (cost i))).
    rewrite IH. simpl calculateTotalXPForLevel_loop at 2.
    replace (i + 1 + Z.of_nat n) with (i + Z.of_nat (S n)) by lia.
    reflexivity.
Qed.

Lemma total_succ (lvl : Z) :
  1 <= lvl -> total (lvl + 1) = xadd (total lvl) (cost lvl).
Proof.
  intros H. unfold calculateTotalXPForLevel.
  replace (Z.to_nat (lvl + 1 - 1)) with (S (Z.to_nat (lvl - 1))) by lia.
  rewrite total_loop_snoc.
  replace (1 + Z.of_nat (Z.to_nat (lvl - 1))) with lvl by lia.
  reflexivity.
Qed.

Lemma total_one : total 1 = Finite 0.
Proof. reflexivity. Qed.

(** Up to [MAX_LEVEL + 1] every total is finite. *)
Lemma total_finite (lvl : Z) :
  lvl <= MAX + 1 -> exists z, total lvl = Finite z.
Proof.
  intros H. destruct (Z_le_gt_dec lvl 1) as [Hle | Hgt].
  - exists 0. unfold calculateTotalXPForLevel.
    replace (Z.to_nat (lvl - 1)) with 0%nat by lia. reflexivity.
  - revert H. pattern lvl. apply (Zlt_lower_bound_ind _ 2); [| lia].
    clear lvl Hgt. intros lvl IH Hlo Hhi.
    replace lvl with ((lvl - 1) + 1) by lia.
    rewrite total_succ by lia.
    assert (Hprev : exists z, total (lvl - 1) = Finite z).
    { destruct (Z.eq_dec lvl 2) as [-> | Hne].
      - exists 0. reflexivity.
      - apply IH; lia. }
    destruct Hprev as [z Hz]. rewrite Hz.
    unfold calculateXPForLevel.
    assert (Hc : (MAX <? lvl - 1) = false) by (apply Z.ltb_ge; lia).
    fold MAX. rewrite Hc. simpl. eexists. reflexivity.
Qed.

(** The loop keeps its total equal to the table and below [xp]. *)
Lemma loop_invariant (xp : Q) (lvl : Z) (totalXP : xnum) :
  1 <= lvl -> totalXP = total lvl ->
  (forall l, 1 <= l <= lvl -> xleb (total l) xp = true) ->
  let r := loop xp lvl totalXP in
  lvl <= r
  /\ (forall l, 1 <= l <= r -> xleb (total l) xp = true)
  /\ (r < MAX -> xgtb (total (r + 1)) xp = true).
Proof.
  funelim (calculateLevel_loop GameConfig xp lvl totalXP);
    intros Hlo Htot Hbelow; cbv zeta.
  - split; [lia |]. split; [exact Hbelow | intros; contradiction].
  - exfalso.
    assert (H1 : xleb (total lvl) xp = true) by (apply Hbelow; lia).
    rewrite <- Htot in H1. congruence.
  - split; [lia |]. split; [exact Hbelow |].
    intros _. rewrite total_succ by exact Hlo. rewrite <- Htot. assumption.
  - assert (Hnew : xadd totalXP (cost lvl) = total (lvl + 1))
      by (rewrite total_succ by exact Hlo; rewrite <- Htot; reflexivity).
    assert (Hbelow' : forall l, 1 <= l <= lvl + 1 -> xleb (total l) xp = true).
    { intros l Hl. destruct (Z.eq_dec l (lvl + 1)) as [-> | Hne].
      - rewrite <- Hnew.
        match goal with E : xgtb _ _ = false |- _ =>
          unfold xgtb in E; apply negb_false_iff in E; exact E end.
      - apply Hbelow. lia. }
    match goal with
    | IH : _ -> _ -> _ -> _ /\ _ |- _ =>
        destruct (IH ltac:(lia) Hnew Hbelow') as [Hge [Hall Hnext]]
    end.
    split; [lia |]. split; assumption.
Qed.

Lemma loop_below_max (xp : Q) (lvl : Z) (totalXP : xnum) :
  lvl <= MAX -> loop xp lvl totalXP <= MAX.
Proof.
  funelim (calculateLevel_loop GameConfig xp lvl totalXP); intros Hm; lia.
Qed.

(** The level of a non-negative [xp], with its three defining facts. *)
Lemma calculateLevel_spec (xp : Q) :
  (0 <= xp)%Q -> 1 <= MAX ->
  let L := calculateLevel GameConfig xp in
  1 <= L <= MAX
  /\ (forall l, 1 <= l <= L -> xleb (total l) xp = true)
  /\ (L < MAX -> xgtb (total (L + 1)) xp = true).
Proof.
  intros Hxp Hmax. cbv zeta. unfold calculateLevel.
  assert (Hstart : forall l, 1 <= l <= 1 -> xleb (total l) xp = true).
  { intros l Hl. replace l with 1 by lia. simpl.
    apply Qle_bool_iff. exact Hxp. }
  destruct (loop_invariant xp 1 (Finite 0) (Z.le_refl 1) eq_refl Hstart)
    as [Hge [Hall Hnext]].
  pose proof (loop_below_max xp 1 (Finite 0) Hmax) as Hle.
  fold MAX. rewrite Z.min_l by exact Hle.
  split; [lia |]. split; assumption.
Qed.

Lemma xleb_Finite (z : Z) (q : Q) : xleb (Finite z) q = true <-> (inject_Z z <= q)%Q.
Proof. simpl. apply Qle_bool_iff. Qed.

Lemma xgtb_Finite (z : Z) (q : Q) : xgtb (Finite z) q = true <-> (q < inject_Z z)%Q.
Proof.
  unfold xgtb. simpl. rewrite negb_true_iff. split.
  - intros H. apply Qnot_le_lt. intros Hle. apply Qle_bool_iff in Hle. congruence.
  - intros H. destruct (Qle_bool (inject_Z z) q) eqn:E; [| reflexivity].
    apply Qle_bool_iff in E. exfalso. exact (Qlt_not_le _ _ H E).
Qed.

(** The thresholds around the level of [xp], as numbers. *)
Lemma level_thresholds (xp : Q) :
  (0 <= xp)%Q -> 1 <= MAX ->
  let L := calculateLevel GameConfig xp in
  1 <= L <= MAX
  /\ (exists a, total L = Finite a /\ (inject_Z a <= xp)%Q)
  /\ (L < MAX -> exists b, total (L + 1) = Finite b /\ (xp < inject_Z b)%Q).
Proof.
  intros Hxp Hmax. cbv zeta.
  destruct (calculateLevel_spec xp Hxp Hmax) as [Hrange [Hall Hnext]].
  split; [exact Hrange |]. split.
  - destruct (total_finite (calculateLevel GameConfig xp)) as [a Ha]; [lia |].
    exists a. split; [exact Ha |].
    apply xleb_Finite. rewrite <- Ha. apply Hall. lia.
  - intros Hlt.
    destruct (total_finite (calculateLevel GameConfig xp + 1)) as [b Hb]; [lia |].
    exists b. split; [exact Hb |].
    apply xgtb_Finite. rewrite <- Hb. apply Hnext. exact Hlt.
Qed.

End WithConfig.

(** X1. For a non-negative [xp] and [MAX_LEVEL >= 1] the level that
    [calculateLevel] returns lies in [1, MAX_LEVEL]; the total XP required
    for it, as [calculateTotalXPForLevel] sums it, is finite and at most [xp];
    and below [MAX_LEVEL] the total required for the next level is finite and
    exceeds [xp]. *)
Theorem level_agrees_with_totals (GameConfig : GameConfigT) (xp : Q) :
  (0 <= xp)%Q -> 1 <= MAX_LEVEL GameConfig ->
  let L := calculateLevel GameConfig xp in
  1 <= L <= MAX_LEVEL GameConfig
  /\ (forall l, 1 <= l <= L ->
        exists a, calculateTotalXPForLevel GameConfig l = Finite a
                  /\ (inject_Z a <= xp)%Q)
  /\ (L < MAX_LEVEL GameConfig ->
        exists b, calculateTotalXPForLevel GameConfig (L + 1) = Finite b
                  /\ (xp < inject_Z b)%Q).
Proof.
  intros Hxp Hmax. cbv zeta.
  destruct (calculateLevel_spec GameConfig xp Hxp Hmax) as [Hrange [Hall _]].
  destruct (level_thresholds GameConfig xp Hxp Hmax) as [_ [_ Hnext]].
  split; [exact Hrange |]. split; [| exact Hnext].
  intros l Hl.
  destruct (total_finite GameConfig l) as [a Ha]; [lia |].
  exists a. split; [exact Ha |].
  apply xleb_Finite. rewrite <- Ha. apply Hall. exact Hl.
Qed.

Lemma level_agrees_with_totals_witness :
  (0 <= 2600)%Q /\ 1 <= MAX_LEVEL LevelProps.sampleConfig
  /\ 1 <= calculateLevel LevelProps.sampleConfig 2600
       <= MAX_LEVEL LevelProps.sampleConfig.
Proof.
  assert (H0 : (0 <= 2600)%Q) by (unfold Qle; simpl; lia).
  assert (H1 : 1 <= MAX_LEVEL LevelProps.sampleConfig) by (vm_compute; discriminate).
  split; [exact H0 |]. split; [exact H1 |].
  exact (proj1 (level_agrees_with_totals LevelProps.sampleConfig 2600 H0 H1)).
Defined.

(** X2. With [MAX_LEVEL >= 1] no XP value, however small, gives a level
    below 1, and a negative XP value gives level 1. *)
Theorem level_at_least_one (GameConfig : GameConfigT) (xp : Q) :
  1 <= MAX_LEVEL GameConfig ->
  1 <= calculateLevel GameConfig xp
  /\ ((xp < 0)%Q -> calculateLevel GameConfig xp = 1).
Proof.
  intros Hmax. split.
  - unfold calculateLevel. apply Z.min_glb; [| exact Hmax].
    apply LevelProps.loop_ge_start.
  - intros Hneg. unfold calculateLevel.
    rewrite LevelProps.loop_unfold.
    assert (E : xleb (Finite 0) xp = false).
    { destruct (xleb (Finite 0) xp) eqn:E; [| reflexivity].
      apply xleb_Finite in E. exfalso.
      apply (Qlt_not_le _ _ Hneg). exact E. }
    rewrite E.
    destruct (Z_lt_dec 1 (MAX_LEVEL GameConfig)); apply Z.min_l; exact Hmax.
Qed.

Lemma level_at_least_one_witness :
  1 <= MAX_LEVEL LevelProps.sampleConfig
  /\ calculateLevel LevelProps.sampleConfig (-5) = 1.
Proof.
  assert (H1 : 1 <= MAX_LEVEL LevelProps.sampleConfig) by (vm_compute; discriminate).
  split; [exact H1 |].
  apply (proj2 (level_at_least_one LevelProps.sampleConfig (-5) H1)).
  unfold Qlt; simpl; lia.
Defined.



Example xp_to_next_level_of_2600 :
  calculateXPToNextLevel LevelProps.sampleConfig 2600 = Num (4750 - 2600).
Proof. vm_compute. reflexivity. Qed.



Example progress_of_2600 :
  calculateProgress LevelProps.sampleConfig 2600 = Num 4.
Proof. vm_compute. reflexivity. Qed.

End LevelProgressProps.

(** ** [GameContext]: achievements as loaded *)

Module AchievementsLoaded.
Import JS GameContext.

(** [isAchievementCompleted(achievement)]. *)
Definition isAchievementCompleted (achievement : Achievement) : bool :=
  if ach_unlocked achievement
     || match ach_unlockedAt achievement with Some _ => true | None => false end
  then true
  else
    match ach_triggerConditions achievement with
    | [] => false
    | conditions =>
        forallb (fun condition =>
                   match ach_progress achievement with
                   | None => false
                   | Some progress =>
                       let value := tc_value condition in
                       if String.eqb (tc_comparison condition) "eq"
                       then Qeq_bool progress value
                       else if String.eqb (tc_comparison condition) "gt"
                       then Qltb value progress
                       else if String.eqb (tc_comparison condition) "lt"
                       then Qltb progress value
                       else if String.eqb (tc_comparison condition) "gte"
                       then Qle_bool value progress
                       else if String.eqb (tc_comparison condition) "lte"
                       then Qle_bool progress value
                       else false
                   end)
                conditions
    end.

(** [processAchievements(achievements)]. *)
Definition processAchievements (achievements : list Achievement) : list Achievement :=
  map (fun achievement =>
         mkAchievement (ach_id achievement) (ach_title achievement)
           (isAchievementCompleted achievement)
           (ach_unlockedAt achievement) (ach_triggerConditions achievement)
           (ach_progress achievement) (ach_completed achievement))
      achievements.

End AchievementsLoaded.

Module GameMoreProps.
Import JS GameContext AchievementsLoaded.

(** *** The streak multiplier *)

(** X5. For a non-negative streak [updateStreakMultiplier] lies between 1
    and 2, it never decreases when the streak grows, it is
    [1 + 0.15 * streak] up to a streak of 20/3 and exactly 2 from there on
    (so from a streak of 7). *)
Theorem streak_multiplier_bounds (streak streak' : Q) :
  (0 <= streak)%Q -> (streak <= streak')%Q ->
  (1 <= updateStreakMultiplier streak)%Q
  /\ (updateStreakMultiplier streak <= 2)%Q
  /\ (updateStreakMultiplier streak <= updateStreakMultiplier streak')%Q
  /\ ((streak <= 20 # 3)%Q ->
        (updateStreakMultiplier streak == 1 + streak * (15 # 100))%Q)
  /\ ((20 # 3 <= streak)%Q -> (updateStreakMultiplier streak == 2)%Q).
Proof.
  intros H0 Hle. unfold updateStreakMultiplier, Math_min.
  repeat split.
  - apply Q.min_glb; lra.
  - apply Q.le_min_r.
  - apply Q.min_glb.
    + apply Qle_trans with (1 + streak * (15 # 100))%Q; [apply Q.le_min_l | lra].
    + apply Q.le_min_r.
  - intros H. apply Q.min_l. lra.
  - intros H. apply Q.min_r. lra.
Qed.

Lemma streak_multiplier_bounds_witness :
  (0 <= 3)%Q /\ (3 <= 7)%Q
  /\ (updateStreakMultiplier 3 == 1 + 3 * (15 # 100))%Q
  /\ (updateStreakMultiplier 7 == 2)%Q.
Proof.
  assert (H0 : (0 <= 3)%Q) by (unfold Qle; simpl; lia).
  assert (H1 : (3 <= 7)%Q) by (unfold Qle; simpl; lia).
  assert (H2 : (0 <= 7)%Q) by (unfold Qle; simpl; lia).
  assert (H3 : (7 <= 7)%Q) by (unfold Qle; simpl; lia).
  split; [exact H0 |]. split; [exact H1 |]. split.
  - apply (streak_multiplier_bounds 3 7 H0 H1). unfold Qle; simpl; lia.
  - apply (streak_multiplier_bounds 7 7 H2 H3). unfold Qle; simpl; lia.
Defined.

(** *** A battle in the game state *)

Section Battle.
Variable now : Z.
Variable calculateQuestProgress : Quest -> User -> Q.

Local Abbreviation reduce := (gameReducer now calculateQuestProgress).

(** The store after the answers [(isCorrect, timeSpent)] are dispatched in
    order. *)
Definition answer_all (answers : list (bool * Q)) (s : GameState) : GameState :=
  fold_left (fun st a => reduce st (ANSWER_QUESTION (fst a) (snd a))) answers s.

Definition correct_count (answers : list (bool * Q)) : Z :=
  Z.of_nat (List.length (filter fst answers)).

Lemma answer_all_snoc (answers : list (bool * Q)) (a : bool * Q) (s : GameState) :
  answer_all (answers ++ [a]) s
  = reduce (answer_all answers s) (ANSWER_QUESTION (fst a) (snd a)).
Proof. unfold answer_all. rewrite fold_left_app. reflexivity. Qed.

Lemma correct_count_snoc (answers : list (bool * Q)) (a : bool * Q) :
  correct_count (answers ++ [a])
  = correct_count answers + (if fst a then 1 else 0).
Proof.
  unfold correct_count. rewrite filter_app, length_app. simpl.
  destruct (fst a); simpl; lia.
Qed.

(** One [ANSWER_QUESTION]: with [playerAnswers] defined the battle moves
    on, without it the reducer catches the [TypeError] and returns the
    state. *)
Lemma answer_step (s : GameState) (recorded : list bool) (isCorrect : bool)
    (timeSpent : Q) :
  playerAnswers (battle s) = Some recorded ->
  reduce s (ANSWER_QUESTION isCorrect timeSpent)
  = set_battle s (AnswerProps.answered (battle s) recorded isCorrect timeSpent).
Proof.
  intros H. unfold gameReducer, handleBattleStateUpdate. rewrite H. reflexivity.
Qed.

Lemma answer_step_undefined (s : GameState) (isCorrect : bool) (timeSpent : Q) :
  playerAnswers (battle s) = None ->
  reduce s (ANSWER_QUESTION isCorrect timeSpent) = s.
Proof.
  intros H. unfold gameReducer, handleBattleStateUpdate. rewrite H. reflexivity.
Qed.

Lemma answers_undefined (answers : list (bool * Q)) (s : GameState) :
  playerAnswers (battle s) = None -> answer_all answers s = s.
Proof.
  intros H. induction answers as [| a answers IH] using rev_ind.
  - reflexivity.
  - rewrite answer_all_snoc, IH. apply answer_step_undefined. exact H.
Qed.

Lemma answers_bookkeeping (answers : list (bool * Q)) (s : GameState)
    (recorded : list bool) :
  playerAnswers (battle s) = Some recorded ->
  let s' := answer_all answers s in
  currentQuestion (battle s')
  = currentQuestion (battle s) + Z.of_nat (List.length answers)
  /\ playerAnswers (battle s') = Some (recorded ++ map fst answers)
  /\ status (battle s') = status (battle s)
  /\ questions (battle s') = questions (battle s)
  /\ opponent (score (battle s')) = opponent (score (battle s))
  /\ timePerQuestion (battle s') = timePerQuestion (battle s)
  /\ (answers <> [] -> timeLeft (battle s') = timePerQuestion (battle s))
  /\ user s' = user s.
Proof.
  intros Hrec. cbv zeta. induction answers as [| a answers IH] using rev_ind.
  - simpl. rewrite Z.add_0_r, app_nil_r. repeat split; try assumption.
    intros H. contradiction.
  - rewrite answer_all_snoc.
    destruct IH as [Hq [Ha [Hs [Hqs [Ho [Ht [_ Hu]]]]]]].
    rewrite (answer_step _ _ (fst a) (snd a) Ha).
    unfold AnswerProps.answered. simpl. rewrite Hq, Hs, Hqs, Ho, Ht, Hu.
    rewrite length_app, map_app, app_assoc. simpl.
    repeat split. lia.
Qed.

Lemma score_bounds (answers : list (bool * Q)) (s : GameState) (recorded : list bool) :
  playerAnswers (battle s) = Some recorded ->
  Forall (fun a => (0 <= snd a)%Q) answers ->
  player (score (battle s)) + 100 * correct_count answers
  <= player (score (battle (answer_all answers s)))
  <= player (score (battle s)) + 200 * correct_count answers.
Proof.
  intros Hrec. induction answers as [| a answers IH] using rev_ind; intros Hall.
  - unfold correct_count. simpl. lia.
  - apply Forall_app in Hall. destruct Hall as [Hall Ha].
    inversion Ha as [| x l Hx _]; subst.
    specialize (IH Hall).
    destruct (answers_bookkeeping answers s recorded Hrec) as [_ [Hp _]].
    rewrite answer_all_snoc, correct_count_snoc.
    rewrite (answer_step _ _ (fst a) (snd a) Hp).
    unfold AnswerProps.answered.
    cbn -[Z.mul Z.add Score.calculateQuestionScore].
    pose proof (ScoreProps.calculateQuestionScore_range (snd a) Hx) as Hr.
    destruct (fst a); cbn -[Z.mul Z.add Score.calculateQuestionScore]; lia.
Qed.

Lemma score_200_at_0 : Score.calculateQuestionScore 0 = 200.
Proof. vm_compute. reflexivity. Qed.

Lemma score_of_instant_answers (n : nat) (s : GameState) (recorded : list bool) :
  playerAnswers (battle s) = Some recorded ->
  player (score (battle (answer_all (repeat (true, 0%Q) n) s)))
  = player (score (battle s)) + 200 * Z.of_nat n.
Proof.
  intros Hrec. induction n as [| n IH].
  - simpl. lia.
  - replace (repeat (true, 0%Q) (S n)) with (repeat (true, 0%Q) n ++ [(true, 0%Q)])
      by (rewrite <- repeat_cons; reflexivity).
    destruct (answers_bookkeeping (repeat (true, 0%Q) n) s recorded Hrec)
      as [_ [Hp _]].
    rewrite answer_all_snoc. cbn [fst snd].
    rewrite (answer_step _ _ true 0%Q Hp).
    unfold AnswerProps.answered.
    cbn -[Z.mul Z.add Z.of_nat Score.calculateQuestionScore]. rewrite IH.
    rewrite score_200_at_0. lia.
Qed.

End Battle.

(** X6. After [INITIALIZE_BATTLE], dispatching any sequence of
    [ANSWER_QUESTION] actions keeps the books: [currentQuestion] and the
    length of [playerAnswers] both equal the number of answers,
    [playerAnswers] lists their correctness in order, [timeLeft] is back at
    [timePerQuestion]; the status stays ['battle'] however many answers
    arrive (the reducer never ends the battle by itself), the questions and
    the user are untouched and the opponent's score stays 0. *)
Theorem answers_keep_the_books
    (now : Z) (calculateQuestProgress : Quest -> User -> Q)
    (s : GameState) (qs : list BattleQuestion) (tpq : Z) (answers : list (bool * Q)) :
  let s' := answer_all now calculateQuestProgress answers
              (gameReducer now calculateQuestProgress s (INITIALIZE_BATTLE qs tpq)) in
  currentQuestion (battle s') = Z.of_nat (List.length answers)
  /\ playerAnswers (battle s') = Some (map fst answers)
  /\ option_map (fun recorded => Z.of_nat (List.length recorded))
       (playerAnswers (battle s')) = Some (currentQuestion (battle s'))
  /\ timeLeft (battle s') = timePerQuestion (battle s')
  /\ timePerQuestion (battle s') = tpq
  /\ status (battle s') = "battle"%string
  /\ questions (battle s') = qs
  /\ opponent (score (battle s')) = 0
  /\ user s' = user s.
Proof.
  cbv zeta.
  destruct (answers_bookkeeping now calculateQuestProgress answers
              (gameReducer now calculateQuestProgress s (INITIALIZE_BATTLE qs tpq))
              [] eq_refl)
    as [Hq [Ha [Hs [Hqs [Ho [Ht [Hl Hu]]]]]]].
  rewrite Hq, Ha, Hs, Hqs, Ho, Ht, Hu. simpl.
  rewrite length_map. repeat split.
  destruct answers as [| a answers].
  - reflexivity.
  - apply Hl. discriminate.
Qed.

(** X7. In a battle that has [playerAnswers] (every battle written by
    [INITIALIZE_BATTLE] or [RESET_BATTLE]), when every answer comes with a
    non-negative [timeSpent], the player's score after a sequence of answers
    has grown by at least 100 and at most 200 for each correct answer, and
    by nothing for the others.  In a battle without [playerAnswers], as in
    the provider's [initialState], [ANSWER_QUESTION] throws inside the
    reducer, which returns the state: no answer changes anything and
    nothing is gained. *)
Theorem score_grows_within_bounds
    (now : Z) (calculateQuestProgress : Quest -> User -> Q)
    (s : GameState) (answers : list (bool * Q)) :
  Forall (fun a => (0 <= snd a)%Q) answers ->
  let s' := answer_all now calculateQuestProgress answers s in
  let gained := player (score (battle s')) - player (score (battle s)) in
  (playerAnswers (battle s) <> None ->
     100 * correct_count answers <= gained <= 200 * correct_count answers)
  /\ (playerAnswers (battle s) = None -> s' = s /\ gained = 0).
Proof.
  intros Hall. cbv zeta. split.
  - intros Hdef. destruct (playerAnswers (battle s)) as [recorded |] eqn:E;
      [| contradiction].
    pose proof (score_bounds now calculateQuestProgress answers s recorded E Hall). lia.
  - intros Hnone.
    rewrite (answers_undefined now calculateQuestProgress answers s Hnone).
    split; [reflexivity | lia].
Qed.

Lemma score_grows_within_bounds_witness :
  Forall (fun a => (0 <= snd a)%Q) [(true, 15%Q); (false, 3%Q)]
  /\ 100 * 1
     <= player (score (battle (answer_all 0 (fun _ _ => 0%Q)
                                 [(true, 15%Q); (false, 3%Q)] AnswerProps.activeState)))
        - player (score (battle AnswerProps.activeState))
     <= 200 * 1
  /\ answer_all 0 (fun _ _ => 0%Q) [(true, 15%Q); (false, 3%Q)] GameProps.sampleState
     = GameProps.sampleState.
Proof.
  assert (H : Forall (fun a => (0 <= snd a)%Q) [(true, 15%Q); (false, 3%Q)]).
  { repeat constructor; unfold Qle; simpl; lia. }
  split; [exact H |]. split.
  - apply (score_grows_within_bounds 0 (fun _ _ => 0%Q) AnswerProps.activeState
             [(true, 15%Q); (false, 3%Q)] H).
    discriminate.
  - exact (proj1 (proj2 (score_grows_within_bounds 0 (fun _ _ => 0%Q)
                           GameProps.sampleState [(true, 15%Q); (false, 3%Q)] H)
                    eq_refl)).
Defined.

(** X8. Answering [n] questions correctly with [timeSpent = 0] after
    [INITIALIZE_BATTLE] gives a player score of exactly [200 * n] (2000 for
    ten questions), with the status still ['battle']. *)
Theorem instant_correct_answers_score
    (now : Z) (calculateQuestProgress : Quest -> User -> Q)
    (s : GameState) (qs : list BattleQuestion) (tpq : Z) (n : nat) :
  let s' := answer_all now calculateQuestProgress (repeat (true, 0%Q) n)
              (gameReducer now calculateQuestProgress s (INITIALIZE_BATTLE qs tpq)) in
  player (score (battle s')) = 200 * Z.of_nat n
  /\ status (battle s') = "battle"%string.
Proof.
  cbv zeta. split.
  - rewrite (score_of_instant_answers now calculateQuestProgress n
               (gameReducer now calculateQuestProgress s (INITIALIZE_BATTLE qs tpq))
               [] eq_refl).
    cbn -[Z.mul Z.add Z.of_nat Score.calculateQuestionScore]. lia.
  - destruct (answers_bookkeeping now calculateQuestProgress (repeat (true, 0%Q) n)
                (gameReducer now calculateQuestProgress s (INITIALIZE_BATTLE qs tpq))
                [] eq_refl)
      as [_ [_ [Hs _]]].
    rewrite Hs. reflexivity.
Qed.

End GameMoreProps.

(** ** [GameContext]: the reducer's frame, the effect ledger, coins and items *)

Module EconomyProps.
Import JS Float64 Float64Props GameContext.

(** The four actions that [gameReducer] hands to [handleBattleStateUpdate]. *)
Definition is_battle_action (action : GameAction) : bool :=
  match action with
  | INITIALIZE_BATTLE _ _ | ANSWER_QUESTION _ _ | END_BATTLE _ | RESET_BATTLE => true
  | _ => false
  end.

(** X9. The reducer keeps the battle and the user apart: the four battle
    actions change nothing but [state.battle], and every other action, with
    or without a case of its own in the reducer, leaves [state.battle] as it
    was. *)
Theorem reducer_keeps_battle_and_user_apart
    (now : Z) (calculateQuestProgress : Quest -> User -> Q)
    (s : GameState) (action : GameAction) :
  let s' := gameReducer now calculateQuestProgress s action in
  (is_battle_action action = true ->
     user s' = user s /\ loading s' = loading s /\ error s' = error s)
  /\ (is_battle_action action = false -> battle s' = battle s).
Proof.
  cbv zeta. split; intros H.
  - destruct action; try discriminate H;
      unfold gameReducer, handleBattleStateUpdate; simpl;
      try (destruct (playerAnswers (battle s)); simpl);
      repeat split.
  - destruct action; try discriminate H;
      unfold gameReducer, handleQuestAction; simpl; try reflexivity;
      repeat match goal with
             | |- context [match ?x with _ => _ end] => destruct x; simpl
             end;
      reflexivity.
Qed.

Section Ledger.
Variable now : Z.
Variable calculateQuestProgress : Quest -> User -> Q.

Local Abbreviation reduce := (gameReducer now calculateQuestProgress).

Lemma add_effect_defined (s : GameState) (e : ActiveEffect) (effects : list ActiveEffect) :
  activeEffects (user s) = Some effects ->
  activeEffects (user (reduce s (ADD_EFFECT e))) = Some (effects ++ [e])
  /\ rewardMultipliers (user (reduce s (ADD_EFFECT e))) = rewardMultipliers (user s).
Proof. intros H. simpl. rewrite H. split; reflexivity. Qed.

Lemma remove_effect_defined (s : GameState) (effectId effectType : string)
    (effects : list ActiveEffect) :
  activeEffects (user s) = Some effects ->
  effectType = "xp"%string \/ effectType = "coins"%string ->
  activeEffects (user (reduce s (REMOVE_EFFECT effectId effectType)))
  = Some (filter (fun e => negb (String.eqb (effect_id e) effectId)) effects).
Proof.
  intros H [-> | ->]; simpl; rewrite H; reflexivity.
Qed.

Lemma filter_all (A : Type) (f : A -> bool) (l : list A) :
  Forall (fun x => f x = true) l -> filter f l = l.
Proof.
  induction 1 as [| x l Hx _ IH]; simpl; [reflexivity |].
  rewrite Hx, IH. reflexivity.
Qed.

End Ledger.

(** X10. With [activeEffects] defined, [ADD_EFFECT] appends the entry and
    leaves the multipliers alone; [REMOVE_EFFECT] with type ['xp'] or
    ['coins'] removes exactly the entries that carry the given id and keeps
    the others in order; so adding an entry with a fresh id and removing it
    again restores the list of active effects. *)
Theorem effect_ledger_add_then_remove
    (now : Z) (calculateQuestProgress : Quest -> User -> Q)
    (s : GameState) (e : ActiveEffect) (effects : list ActiveEffect)
    (effectType : string) :
  activeEffects (user s) = Some effects ->
  effectType = "xp"%string \/ effectType = "coins"%string ->
  let added := gameReducer now calculateQuestProgress s (ADD_EFFECT e) in
  let removed := gameReducer now calculateQuestProgress added
                   (REMOVE_EFFECT (effect_id e) effectType) in
  activeEffects (user added) = Some (effects ++ [e])
  /\ rewardMultipliers (user added) = rewardMultipliers (user s)
  /\ (exists rest,
        activeEffects (user removed) = Some rest
        /\ (forall e', In e' rest <->
                       In e' effects /\ effect_id e' <> effect_id e))
  /\ (Forall (fun e' => effect_id e' <> effect_id e) effects ->
        activeEffects (user removed) = Some effects).
Proof.
  intros Hdef Hty. cbv zeta.
  destruct (add_effect_defined now calculateQuestProgress s e effects Hdef)
    as [Hadd Hrm].
  pose proof (remove_effect_defined now calculateQuestProgress _ (effect_id e)
                effectType _ Hadd Hty) as Hrem.
  split; [exact Hadd |]. split; [exact Hrm |].
  rewrite Hrem. rewrite filter_app. simpl.
  rewrite String.eqb_refl. simpl. rewrite app_nil_r. split.
  - eexists. split; [reflexivity |].
    intros e'. rewrite filter_In. rewrite negb_true_iff.
    rewrite String.eqb_neq. reflexivity.
  - intros Hfresh. f_equal. apply filter_all.
    eapply Forall_impl; [| exact Hfresh].
    intros a Ha. apply negb_true_iff. apply String.eqb_neq. exact Ha.
Qed.

Lemma effect_ledger_add_then_remove_witness :
  activeEffects (user GameProps.sampleState) = Some []
  /\ ("xp"%string = "xp"%string \/ "xp"%string = "coins"%string)
  /\ activeEffects
       (user (gameReducer 0 (fun _ _ => 0%Q)
                (gameReducer 0 (fun _ _ => 0%Q) GameProps.sampleState
                   (ADD_EFFECT (mkActiveEffect "e-1" "xp_boost" 2 0 300 ("i"%string, "n"%string))))
                (REMOVE_EFFECT "e-1" "xp")))
     = Some [].
Proof.
  assert (H1 : activeEffects (user GameProps.sampleState) = Some []) by reflexivity.
  assert (H2 : "xp"%string = "xp"%string \/ "xp"%string = "coins"%string)
    by (left; reflexivity).
  split; [exact H1 |]. split; [exact H2 |].
  apply (effect_ledger_add_then_remove 0 (fun _ _ => 0%Q) GameProps.sampleState
           (mkActiveEffect "e-1" "xp_boost" 2 0 300 ("i"%string, "n"%string)) [] "xp" H1 H2).
  constructor.
Defined.

(** *** Coins *)

Lemma Math_round_nonneg (x : Q) : (0 <= x)%Q -> 0 <= Math_round x.
Proof.
  intros H. unfold Math_round.
  apply Z.le_trans with (Qfloor 0%Q); [discriminate |].
  apply Qfloor_resp_le. lra.
Qed.

(** X11. Earning coins (source ['earn']) with a non-negative amount,
    non-negative multipliers and a non-negative balance never throws: the one
    action dispatched sets the balance to
    [coins + round(amount * rewardMultipliers.coins * streakMultiplier)],
    every operation rounded to the nearest double, which is not below the
    old balance.  For an amount of 50 and multipliers 1 and 1.15 the product
    is [57.49999999999999] in doubles, so 57 coins are earned. *)
Theorem earning_coins_never_fails
    (now : Z) (calculateQuestProgress : Quest -> User -> Q)
    (s : GameState) (amount : Q) (w : World) :
  (0 <= amount)%Q -> (0 <= coins (user s))%Q ->
  (0 <= rm_coins (rewardMultipliers (user s)))%Q ->
  (0 <= streakMultiplier (user s))%Q ->
  let earned := Math_round (fmul (fmul amount (rm_coins (rewardMultipliers (user s))))
                              (streakMultiplier (user s))) in
  let result := handleCoinTransaction now calculateQuestProgress s amount "earn" w in
  fst result = Returned tt
  /\ coins (user (store (snd result))) = fadd (coins (user s)) (inject_Z earned)
  /\ 0 <= earned
  /\ (fl (coins (user s)) <= coins (user (store (snd result))))%Q
  /\ timers (snd result) = timers w.
Proof.
  intros Ha Hc Hm Hs. cbv zeta.
  assert (Hprod : (0 <= fmul (fmul amount (rm_coins (rewardMultipliers (user s))))
                        (streakMultiplier (user s)))%Q).
  { apply fmul_nonneg; [apply fmul_nonneg |]; assumption. }
  pose proof (Math_round_nonneg _ Hprod) as Hr.
  unfold handleCoinTransaction. cbv zeta.
  change (String.eqb "earn" "earn") with true. cbv iota.
  set (earned := Math_round (fmul (fmul amount (rm_coins (rewardMultipliers (user s))))
                               (streakMultiplier (user s)))) in *.
  assert (Hq : (0 <= inject_Z earned)%Q).
  { change 0%Q with (inject_Z 0). rewrite <- Zle_Qle. exact Hr. }
  assert (Hnew : (fl (coins (user s)) <= fadd (coins (user s)) (inject_Z earned))%Q).
  { unfold fadd. rewrite <- (fl_idem (coins (user s))) at 1. apply fl_mono.
    pose proof (fl_nonneg _ Hq). lra. }
  assert (E : Qltb (fadd (coins (user s)) (inject_Z earned)) 0 = false).
  { apply GameProps.Qltb_false. pose proof (fl_nonneg _ Hc). lra. }
  rewrite E. simpl. repeat split; assumption.
Qed.

(** A user with 100 coins and a streak multiplier of 1.15. *)
Definition streakState : GameState :=
  set_user GameProps.sampleState
    (set_streakMultiplier GameProps.sampleUser (115 # 100)).

Lemma earning_coins_never_fails_witness :
  (0 <= 50)%Q /\ (0 <= coins (user streakState))%Q
  /\ fst (handleCoinTransaction 0 (fun _ _ => 0%Q) streakState 50 "earn"
            (mkWorld streakState []))
     = Returned tt
  /\ coins (user (store (snd (handleCoinTransaction 0 (fun _ _ => 0%Q) streakState 50
                               "earn" (mkWorld streakState [])))))
     = 157%Q.
Proof.
  assert (H0 : (0 <= 50)%Q) by (unfold Qle; simpl; lia).
  assert (H1 : (0 <= coins (user streakState))%Q) by (unfold Qle; simpl; lia).
  assert (H2 : (0 <= rm_coins (rewardMultipliers (user streakState)))%Q)
    by (unfold Qle; simpl; lia).
  assert (H3 : (0 <= streakMultiplier (user streakState))%Q)
    by (unfold Qle; simpl; lia).
  pose proof (earning_coins_never_fails 0 (fun _ _ => 0%Q) streakState 50
                (mkWorld streakState []) H0 H1 H2 H3) as H.
  cbv zeta in H. destruct H as [Hret [Hcoins _]].
  split; [exact H0 |]. split; [exact H1 |]. split; [exact Hret |].
  rewrite Hcoins. vm_compute. reflexivity.
Defined.

(** *** Items *)

(** X12. [handleItemTransaction] never throws, and the local store only
    changes for a purchase with a positive cost: a reward, a use, a free
    purchase or an invalid item leave the store (the local inventory
    included) and the timers as they were. *)
Theorem item_transaction_is_contained
    (now : Z) (calculateQuestProgress : Quest -> User -> Q)
    (validateGameItem : GameItem -> bool)
    (s : GameState) (item : GameItem) (quantity : Q) (type : string) (cost : Q)
    (w : World) :
  let result := handleItemTransaction now calculateQuestProgress validateGameItem
                  s item quantity type cost w in
  fst result = Returned tt
  /\ (type <> "purchase"%string \/ (cost <= 0)%Q \/ validateGameItem item = false ->
        snd result = w).
Proof.
  cbv zeta. unfold handleItemTransaction.
  destruct (validateGameItem item) eqn:Ev; simpl.
  - destruct (String.eqb type "purchase") eqn:Et; simpl.
    + destruct (Qltb 0 cost) eqn:Ec; simpl.
      * unfold try_catch, bind, handleCoinTransaction. simpl.
        destruct (Qltb (coins (user s) - - cost) 0); simpl; split; try reflexivity;
          intros [H | [H | H]];
          try (apply String.eqb_eq in Et; contradiction);
          try (apply GameProps.Qltb_true in Ec; exfalso; lra);
          discriminate H.
      * split; [reflexivity |]. intros _. destruct w; reflexivity.
    + split; [reflexivity |]. intros _. destruct w; reflexivity.
  - split; [reflexivity |]. intros _. reflexivity.
Qed.

(** X13. A purchase hands [-cost] to [handleCoinTransaction]: for a valid
    item, a positive cost and a non-negative balance the transaction never
    runs into "Insufficient coins", whatever the cost, and the balance in
    the store becomes [coins - (-cost)], the old balance plus the cost. *)
Theorem purchase_adds_the_cost
    (now : Z) (calculateQuestProgress : Quest -> User -> Q)
    (validateGameItem : GameItem -> bool)
    (s : GameState) (item : GameItem) (quantity cost : Q) (w : World) :
  validateGameItem item = true -> (0 < cost)%Q -> (0 <= coins (user s))%Q ->
  let result := handleItemTransaction now calculateQuestProgress validateGameItem
                  s item quantity "purchase" cost w in
  fst result = Returned tt
  /\ coins (user (store (snd result))) = (coins (user s) - - cost)%Q
  /\ (coins (user (store (snd result))) == coins (user s) + cost)%Q.
Proof.
  intros Hv Hc Hb. cbv zeta. unfold handleItemTransaction.
  rewrite Hv. simpl.
  assert (Ec : Qltb 0 cost = true) by (apply GameProps.Qltb_true; exact Hc).
  rewrite Ec. unfold try_catch, bind, handleCoinTransaction. simpl.
  assert (E : Qltb (coins (user s) - - cost) 0 = false)
    by (apply GameProps.Qltb_false; lra).
  rewrite E. simpl. repeat split. lra.
Qed.

Lemma purchase_adds_the_cost_witness :
  (0 < 500)%Q /\ (0 <= coins (user GameProps.sampleState))%Q
  /\ coins (user (store (snd
       (handleItemTransaction 0 (fun _ _ => 0%Q) (fun _ => true)
          GameProps.sampleState (mkGameItem "i" "n" None) 1 "purchase" 500
          (mkWorld GameProps.sampleState [])))))
     = (100 - - 500)%Q.
Proof.
  assert (H0 : (0 < 500)%Q) by (unfold Qlt; simpl; lia).
  assert (H1 : (0 <= coins (user GameProps.sampleState))%Q) by (unfold Qle; simpl; lia).
  split; [exact H0 |]. split; [exact H1 |].
  exact (proj1 (proj2 (purchase_adds_the_cost 0 (fun _ _ => 0%Q) (fun _ => true)
                         GameProps.sampleState (mkGameItem "i" "n" None) 1 500
                         (mkWorld GameProps.sampleState []) eq_refl H0 H1))).
Defined.

End EconomyProps.

(** ** [GameContext]: using an item, checking achievements *)

Module ItemUseProps.
Import JS GameContext.

Section UseItem.
Variable now : Z.
Variable calculateQuestProgress : Quest -> User -> Q.
Variable randomUUID : nat -> string.

Local Abbreviation use := (useItemEffect now calculateQuestProgress randomUUID).

(** The body of the loop over [item.effects]. *)
Definition applyEffect (state : GameState) (item : GameItem) (i : nat)
    (effect : ItemEffect) : Handler unit :=
  let effectId := randomUUID i in
  let duration := or_default (ie_duration effect) 300%Q in
  let value := or_default (ie_value effect) (3 # 2)%Q in
  let entry :=
    mkActiveEffect effectId (ie_type effect) value now duration
      (item_id item, item_name item) in
  let m := rewardMultipliers (user state) in
  setTimeout (REMOVE_EFFECT effectId (ie_type effect)) (duration * 1000)%Q ;;
  if String.eqb (ie_type effect) "xp_boost" then
    dispatch now calculateQuestProgress (ADD_EFFECT entry) ;;
    dispatch now calculateQuestProgress
      (UPDATE_USER_PROFILE
         (mkPartialUser None
            (Some (mkRewardMultipliers (rm_xp m * value)%Q (rm_coins m))) None))
  else if String.eqb (ie_type effect) "coin_boost" then
    dispatch now calculateQuestProgress (ADD_EFFECT entry) ;;
    dispatch now calculateQuestProgress
      (UPDATE_USER_PROFILE
         (mkPartialUser None
            (Some (mkRewardMultipliers (rm_xp m) (rm_coins m * value)%Q)) None))
  else if String.eqb (ie_type effect) "score_boost" then
    dispatch now calculateQuestProgress (ADD_EFFECT entry)
  else if String.eqb (ie_type effect) "time_boost" then
    dispatch now calculateQuestProgress (ADD_EFFECT entry)
  else throw ("Unknown effect type: " ++ ie_type effect).

(** The timers and the ledger entries that the loop is to produce. *)
Fixpoint expiryTimers (i : nat) (effects : list ItemEffect) : list (Q * GameAction) :=
  match effects with
  | [] => []
  | effect :: rest =>
      ((or_default (ie_duration effect) 300 * 1000)%Q,
       REMOVE_EFFECT (randomUUID i) (ie_type effect))
      :: expiryTimers (S i) rest
  end.

Fixpoint ledgerEntries (item : GameItem) (i : nat) (effects : list ItemEffect)
    : list ActiveEffect :=
  match effects with
  | [] => []
  | effect :: rest =>
      mkActiveEffect (randomUUID i) (ie_type effect)
        (or_default (ie_value effect) (3 # 2)) now
        (or_default (ie_duration effect) 300) (item_id item, item_name item)
      :: ledgerEntries item (S i) rest
  end.

Definition knownType (effect : ItemEffect) : Prop :=
  In (ie_type effect) ["xp_boost"; "coin_boost"; "score_boost"; "time_boost"]%string.

Lemma useItemEffect_loop (state : GameState) (itemId : string)
    (it : InventoryItem) (effect : ItemEffect) (rest : list ItemEffect) :
  find (fun item => String.eqb (item_id (inv_item item)) itemId)
       (inventory (user state)) = Some it ->
  inv_isEquipped it = true ->
  item_effects (inv_item it) = Some (effect :: rest) ->
  use state itemId
  = (for_of_indexed 0 (effect :: rest) (applyEffect state (inv_item it)) ;;
     dispatch now calculateQuestProgress (ADD_ACTIVITY "purchase")).
Proof.
  intros Hfind Heq Heff. unfold useItemEffect.
  rewrite Hfind, Heq, Heff. reflexivity.
Qed.

(** One effect of a known type: one timer, one ledger entry. *)
Lemma applyEffect_known (state : GameState) (item : GameItem) (i : nat)
    (effect : ItemEffect) (w : World) :
  knownType effect ->
  exists w',
    applyEffect state item i effect w = (Returned tt, w')
    /\ timers w' = timers w ++ expiryTimers i [effect]
    /\ activeEffects (user (store w'))
       = option_map (fun l => l ++ ledgerEntries item i [effect])
                    (activeEffects (user (store w))).
Proof.
  intros Hk. unfold knownType in Hk. destruct effect as [t v d]. simpl in Hk.
  unfold applyEffect.
  destruct Hk as [H | [H | [H | [H | []]]]]; subst t; simpl;
    unfold bind, setTimeout, dispatch; simpl;
    destruct (activeEffects (user (store w))) eqn:E; simpl;
    eexists; (split; [reflexivity |]); simpl;
    try rewrite E; split; reflexivity.
Qed.

Lemma loop_known (state : GameState) (item : GameItem)
    (effects : list ItemEffect) (i : nat) (w : World) :
  Forall knownType effects ->
  exists w',
    for_of_indexed i effects (applyEffect state item) w = (Returned tt, w')
    /\ timers w' = timers w ++ expiryTimers i effects
    /\ activeEffects (user (store w'))
       = option_map (fun l => l ++ ledgerEntries item i effects)
                    (activeEffects (user (store w))).
Proof.
  intros Hall. revert i w.
  induction Hall as [| effect rest Hk _ IH]; intros i w.
  - exists w. simpl. rewrite app_nil_r. split; [reflexivity |]. split; [reflexivity |].
    destruct (activeEffects (user (store w))); simpl;
      [rewrite app_nil_r |]; reflexivity.
  - destruct (applyEffect_known state item i effect w Hk) as [w1 [H1 [Ht1 Ha1]]].
    destruct (IH (S i) w1) as [w2 [H2 [Ht2 Ha2]]].
    exists w2. split; [| split].
    + simpl. unfold bind at 1. rewrite H1. exact H2.
    + rewrite Ht2, Ht1. simpl. rewrite <- app_assoc. reflexivity.
    + rewrite Ha2, Ha1. simpl.
      destruct (activeEffects (user (store w))); simpl; [| reflexivity].
      rewrite <- app_assoc. reflexivity.
Qed.

End UseItem.

(** X14. [useItemEffect] refuses an item that is not in the inventory, one
    that is not equipped, and one without effects, each with its own error;
    in all three cases nothing is dispatched and no timer is scheduled. *)
Theorem use_item_validation
    (now : Z) (calculateQuestProgress : Quest -> User -> Q)
    (randomUUID : nat -> string) (state : GameState) (itemId : string) (w : World) :
  let use := useItemEffect now calculateQuestProgress randomUUID state itemId w in
  let found := find (fun item => String.eqb (item_id (inv_item item)) itemId)
                    (inventory (user state)) in
  (found = None -> use = (Thrown "Item not found in inventory", w))
  /\ (forall it, found = Some it -> inv_isEquipped it = false ->
        use = (Thrown "Item must be equipped to use its effect", w))
  /\ (forall it, found = Some it -> inv_isEquipped it = true ->
        item_effects (inv_item it) = None \/ item_effects (inv_item it) = Some [] ->
        use = (Thrown "Item has no effects to use", w)).
Proof.
  cbv zeta. unfold useItemEffect. repeat split.
  - intros H. rewrite H. reflexivity.
  - intros it H Heq. rewrite H, Heq. reflexivity.
  - intros it H Heq [He | He]; rewrite H, Heq, He; reflexivity.
Qed.

(** X15. For an equipped item whose effects all carry one of the four known
    types, [useItemEffect] returns normally and schedules exactly one timer
    per effect, in order: the timer of the [i]-th effect fires after
    [duration * 1000] ms (300 s by default) and dispatches [REMOVE_EFFECT]
    with the id of the [i]-th ledger entry and the type tag of the effect;
    when [activeEffects] is defined, one entry per effect is appended to it,
    with the effect's value (1.5 by default). *)
Theorem use_item_schedules_one_timer_per_effect
    (now : Z) (calculateQuestProgress : Quest -> User -> Q)
    (randomUUID : nat -> string) (state : GameState) (itemId : string)
    (it : InventoryItem) (effects : list ItemEffect) (w : World) :
  find (fun item => String.eqb (item_id (inv_item item)) itemId)
       (inventory (user state)) = Some it ->
  inv_isEquipped it = true ->
  item_effects (inv_item it) = Some effects ->
  effects <> [] ->
  Forall knownType effects ->
  let result := useItemEffect now calculateQuestProgress randomUUID state itemId w in
  fst result = Returned tt
  /\ timers (snd result) = timers w ++ expiryTimers randomUUID 0 effects
  /\ List.length (timers (snd result))
     = (List.length (timers w) + List.length effects)%nat
  /\ activeEffects (user (store (snd result)))
     = option_map (fun l => l ++ ledgerEntries now randomUUID (inv_item it) 0 effects)
                  (activeEffects (user (store w))).
Proof.
  intros Hfind Heq Heff Hne Hall. cbv zeta.
  destruct effects as [| effect rest]; [contradiction |].
  rewrite (useItemEffect_loop now calculateQuestProgress randomUUID state itemId
             it effect rest Hfind Heq Heff).
  destruct (loop_known now calculateQuestProgress randomUUID state (inv_item it)
              (effect :: rest) 0 w Hall) as [w' [Hrun [Ht Ha]]].
  unfold bind. rewrite Hrun. simpl fst. simpl snd.
  assert (Hlen : forall i l, List.length (expiryTimers randomUUID i l) = List.length l).
  { intros i l. revert i. induction l as [| a l IH]; intros i; simpl;
      [reflexivity | rewrite IH; reflexivity]. }
  split; [reflexivity |]. split; [exact Ht |]. split.
  - simpl timers. rewrite Ht, length_app, Hlen. reflexivity.
  - exact Ha.
Qed.

Lemma use_item_schedules_one_timer_per_effect_witness :
  timers (snd (useItemEffect 0 (fun _ _ => 0%Q) (fun _ => "id"%string)
                 GameProps.sampleState "item-2" (mkWorld GameProps.sampleState [])))
  = [((300 * 1000)%Q, REMOVE_EFFECT "id" "xp_boost")].
Proof.
  assert (Hk : Forall knownType [mkItemEffect "xp_boost" None None]).
  { constructor; [| constructor]. left. reflexivity. }
  assert (Hne : [mkItemEffect "xp_boost" None None] <> []) by discriminate.
  exact (proj1 (proj2 (use_item_schedules_one_timer_per_effect 0 (fun _ _ => 0%Q)
                         (fun _ => "id"%string) GameProps.sampleState "item-2"
                         GameProps.defaultBoostItem [mkItemEffect "xp_boost" None None]
                         (mkWorld GameProps.sampleState [])
                         eq_refl eq_refl eq_refl Hne Hk))).
Defined.

(** X16. Both boosts of one item are computed from the multipliers of the
    same snapshot: for an item with an [xp_boost] followed by a [coin_boost],
    the second update overwrites the first, so the store ends with the xp
    multiplier of the snapshot (the xp boost is lost, though its ledger entry
    and its timer exist) and the coins multiplier times the coin value. *)
Theorem second_boost_overwrites_first
    (now : Z) (calculateQuestProgress : Quest -> User -> Q)
    (randomUUID : nat -> string) (state : GameState) (itemId : string)
    (it : InventoryItem) (v1 d1 v2 d2 : option Q) :
  find (fun item => String.eqb (item_id (inv_item item)) itemId)
       (inventory (user state)) = Some it ->
  inv_isEquipped it = true ->
  item_effects (inv_item it)
  = Some [mkItemEffect "xp_boost" v1 d1; mkItemEffect "coin_boost" v2 d2] ->
  let result := useItemEffect now calculateQuestProgress randomUUID state itemId
                  (mkWorld state []) in
  fst result = Returned tt
  /\ rewardMultipliers (user (store (snd result)))
     = mkRewardMultipliers
         (rm_xp (rewardMultipliers (user state)))
         (rm_coins (rewardMultipliers (user state)) * or_default v2 (3 # 2))%Q
  /\ List.length (timers (snd result)) = 2%nat.
Proof.
  intros Hfind Heq Heff. cbv zeta.
  rewrite (useItemEffect_loop now calculateQuestProgress randomUUID state itemId
             it _ _ Hfind Heq Heff).
  unfold bind, for_of_indexed, applyEffect, setTimeout, dispatch, ret. simpl.
  destruct (activeEffects (user state)); simpl; repeat split.
Qed.

Definition twoBoostItem : InventoryItem :=
  mkInventoryItem
    (mkGameItem "item-9" "Charm"
       (Some [mkItemEffect "xp_boost" (Some 2%Q) None;
              mkItemEffect "coin_boost" (Some 4%Q) None]))
    1%Q true.

Definition twoBoostState : GameState :=
  set_user GameProps.sampleState (set_inventory GameProps.sampleUser [twoBoostItem]).

Lemma second_boost_overwrites_first_witness :
  rewardMultipliers (user (store (snd
    (useItemEffect 0 (fun _ _ => 0%Q) (fun _ => "id"%string) twoBoostState "item-9"
       (mkWorld twoBoostState [])))))
  = mkRewardMultipliers 1%Q (1 * or_default (Some 4%Q) (3 # 2))%Q.
Proof.
  exact (proj1 (proj2 (second_boost_overwrites_first 0 (fun _ _ => 0%Q)
                         (fun _ => "id"%string) twoBoostState "item-9" twoBoostItem
                         (Some 2%Q) None (Some 4%Q) None eq_refl eq_refl eq_refl))).
Defined.

(** *** Checking achievements *)

(** X17. [checkAchievements] never throws, whatever
    [handleAchievementUnlock] does; it calls [handleAchievementUnlock] only
    for achievements that are still locked and whose trigger conditions all
    hold against the user's statistics, so when the unlock step does nothing
    on those (in particular when every achievement is unlocked) the store is
    left as it was, and with an empty user id nothing is evaluated at all. *)
Theorem check_achievements_is_contained
    (handleAchievementUnlock : Achievement -> Handler unit)
    (state : GameState) (w : World) :
  let result := checkAchievements handleAchievementUnlock state w in
  fst result = Returned tt
  /\ (id (user state) = ""%string -> snd result = w)
  /\ ((forall a w0,
         In a (achievements (user state)) ->
         ach_unlocked a = false ->
         forallb (condition_holds (statistics (user state)))
                 (ach_triggerConditions a) = true ->
         handleAchievementUnlock a w0 = (Returned tt, w0)) ->
      snd result = w).
Proof.
  cbv zeta. unfold checkAchievements.
  destruct (String.eqb (id (user state)) "") eqn:Eid.
  - repeat split.
  - split; [| split].
    + unfold try_catch.
      destruct (for_of _ handleAchievementUnlock w) as [[[] | msg] w']; reflexivity.
    + intros H. apply String.eqb_neq in Eid. contradiction.
    + intros Hnoop. unfold try_catch.
      assert (Hloop : forall l,
                (forall a, In a l ->
                   In a (achievements (user state)) /\ ach_unlocked a = false
                   /\ forallb (condition_holds (statistics (user state)))
                              (ach_triggerConditions a) = true) ->
                for_of l handleAchievementUnlock w = (Returned tt, w)).
      { induction l as [| a l IH]; intros Hl; simpl; [reflexivity |].
        unfold bind. destruct (Hl a (or_introl eq_refl)) as [Hin [Hu Hc]].
        rewrite (Hnoop a w Hin Hu Hc).
        apply IH. intros b Hb. apply Hl. right. exact Hb. }
      rewrite Hloop; [reflexivity |].
      intros a Ha. apply filter_In in Ha. destruct Ha as [Ha Hc].
      apply filter_In in Ha. destruct Ha as [Hin Hu].
      apply negb_true_iff in Hu. repeat split; assumption.
Qed.

End ItemUseProps.

(** ** [GameContext]: completing a quest, achievements as loaded *)

Module QuestCompletionProps.
Import JS GameContext AchievementsLoaded.

Section Completion.
Variable now : Z.
Variable calculateQuestProgress : Quest -> User -> Q.

Local Abbreviation reduce := (gameReducer now calculateQuestProgress).
Local Abbreviation progressQuest := (handleQuestProgress now calculateQuestProgress).

(** The quest that [handleQuestProgress] looks for. *)
Definition isOpenQuest (quest : Quest) (q : Quest) : bool :=
  String.eqb (quest_id q) (quest_id quest) && negb (isCompleted q) && is_active q.

Lemma find_by_id (quest userQuest : Quest) (l : list Quest) :
  find (isOpenQuest quest) l = Some userQuest ->
  exists q, find (fun q => String.eqb (quest_id q) (quest_id quest)) l = Some q.
Proof.
  induction l as [| a l IH]; simpl; [discriminate |].
  unfold isOpenQuest at 1.
  destruct (String.eqb (quest_id a) (quest_id quest)); simpl.
  - intros _. exists a. reflexivity.
  - exact IH.
Qed.

Lemma find_none (A : Type) (f : A -> bool) (l : list A) :
  (forall x, In x l -> f x = false) -> find f l = None.
Proof.
  induction l as [| a l IH]; intros H; simpl; [reflexivity |].
  rewrite (H a) by (left; reflexivity).
  apply IH. intros x Hx. apply H. right. exact Hx.
Qed.

(** The store after the completing run of [handleQuestProgress]. *)
Definition completedStore (s : GameState) (quest : Quest) (requirementType : string)
    : GameState :=
  reduce
    (reduce
       (reduce
          (reduce s (ADD_XP (xp_reward quest)
                       (Some (rm_xp (rewardMultipliers (user s))))))
          (ADD_COINS (coin_reward quest)))
       (COMPLETE_QUEST quest (xp_reward quest) (coin_reward quest)))
    (UPDATE_QUEST_PROGRESS (quest_id quest) requirementType 100%Q).

Lemma completing_run (s : GameState) (quest userQuest : Quest)
    (req : QuestRequirement) (inc : Q) :
  find (isOpenQuest quest) (quests (user s)) = Some userQuest ->
  allCompleted
    (updatedRequirements (requirements userQuest)
       (progressMapFor (requirements userQuest) (req_type req) inc))
    (progressMapFor (requirements userQuest) (req_type req) inc) = true ->
  progressQuest s quest req inc (mkWorld s [])
  = (Returned tt, mkWorld (completedStore s quest (req_type req)) []).
Proof.
  intros Hfind Hall. unfold handleQuestProgress.
  change (fun q : Quest =>
            String.eqb (quest_id q) (quest_id quest) && negb (isCompleted q)
            && is_active q) with (isOpenQuest quest).
  rewrite Hfind, Hall.
  assert (Hopen : isOpenQuest quest userQuest = true)
    by (apply (find_some _ _ Hfind)).
  unfold isOpenQuest in Hopen.
  apply andb_prop in Hopen. destruct Hopen as [Hopen _].
  apply andb_prop in Hopen. destruct Hopen as [_ Hnot].
  rewrite Hnot. reflexivity.
Qed.

Lemma completedStore_user (s : GameState) (quest q0 : Quest) (requirementType : string) :
  find (fun q => String.eqb (quest_id q) (quest_id quest)) (quests (user s)) = Some q0 ->
  let u := user s in
  let u' := user (completedStore s quest requirementType) in
  xp u' = (xp u + xp_reward quest * rm_xp (rewardMultipliers u)
                  * rm_xp (rewardMultipliers u) + xp_reward quest)%Q
  /\ coins u' = (coins u + coin_reward quest * rm_coins (rewardMultipliers u)
                 + coin_reward quest)%Q
  /\ questsCompleted (statistics u') = (questsCompleted (statistics u) + 1)%Q
  /\ List.length (achievements u') = S (List.length (achievements u))
  /\ (forall q, In q (quests u') ->
        quest_id q = quest_id quest -> quest_status q = Some COMPLETED).
Proof.
  intros Hfind. cbv zeta. unfold completedStore.
  cbn [gameReducer handleQuestAction]. cbn [user set_user set_statistics set_xp set_coins
    quests statistics]. rewrite Hfind.
  cbn. repeat split.
  - rewrite length_app. simpl. lia.
  - intros q Hin Hid.
    apply in_map_iff in Hin. destruct Hin as [q1 [Hq1 Hin1]].
    apply in_map_iff in Hin1. destruct Hin1 as [q2 [Hq2 _]].
    subst q1.
    destruct (String.eqb (quest_id q2) (quest_id quest)) eqn:E2; cbn in Hq1.
    + rewrite String.eqb_refl in Hq1 || idtac.
      destruct (negb (String.eqb (quest_id q2) (quest_id quest))) eqn:E3;
        subst q; reflexivity.
    + rewrite E2 in Hq1. cbn in Hq1. subst q.
      apply String.eqb_neq in E2. contradiction.
Qed.

End Completion.

(** X18. The update that brings every requirement of an open quest to its
    target returns normally and pays the rewards twice over: [ADD_XP] adds
    [xp_reward * rewardMultipliers.xp * rewardMultipliers.xp] and
    [ADD_COINS] adds [coin_reward * rewardMultipliers.coins], then
    [COMPLETE_QUEST] adds the plain [xp_reward] and [coin_reward] again; the
    counter of completed quests grows by one, one achievement is appended and
    every quest with that id is marked completed. *)
Theorem quest_completion_grants
    (now : Z) (calculateQuestProgress : Quest -> User -> Q)
    (s : GameState) (quest userQuest : Quest) (req : QuestRequirement) (inc : Q) :
  find (isOpenQuest quest) (quests (user s)) = Some userQuest ->
  allCompleted
    (updatedRequirements (requirements userQuest)
       (progressMapFor (requirements userQuest) (req_type req) inc))
    (progressMapFor (requirements userQuest) (req_type req) inc) = true ->
  let result := handleQuestProgress now calculateQuestProgress s quest req inc
                  (mkWorld s []) in
  let u := user s in
  let u' := user (store (snd result)) in
  fst result = Returned tt
  /\ xp u' = (xp u + xp_reward quest * rm_xp (rewardMultipliers u)
                     * rm_xp (rewardMultipliers u) + xp_reward quest)%Q
  /\ coins u' = (coins u + coin_reward quest * rm_coins (rewardMultipliers u)
                 + coin_reward quest)%Q
  /\ questsCompleted (statistics u') = (questsCompleted (statistics u) + 1)%Q
  /\ List.length (achievements u') = S (List.length (achievements u))
  /\ (forall q, In q (quests u') ->
        quest_id q = quest_id quest -> quest_status q = Some COMPLETED).
Proof.
  intros Hfind Hall. cbv zeta.
  rewrite (completing_run now calculateQuestProgress s quest userQuest req inc Hfind Hall).
  destruct (find_by_id quest userQuest _ Hfind) as [q0 Hq0].
  split; [reflexivity |].
  exact (completedStore_user now calculateQuestProgress s quest q0 (req_type req) Hq0).
Qed.

Lemma quest_completion_grants_witness :
  xp (user (store (snd
       (handleQuestProgress 0 (fun _ _ => 100%Q) QuestProps.questState
          QuestProps.dailyQuest (QuestProps.requirement "battle" (Some 4%Q) 5%Q) 1
          (mkWorld QuestProps.questState [])))))
  = (0 + 50 * 1 * 1 + 50)%Q.
Proof.
  exact (proj1 (proj2 (quest_completion_grants 0 (fun _ _ => 100%Q)
                         QuestProps.questState QuestProps.dailyQuest
                         QuestProps.dailyQuest
                         (QuestProps.requirement "battle" (Some 4%Q) 5%Q) 1
                         eq_refl eq_refl))).
Defined.

(** X19. A quest is completed at most once: after the completing update,
    any further [handleQuestProgress] for that quest, called with the new
    state, dispatches nothing, so no reward is paid again. *)
Theorem quest_completes_only_once
    (now : Z) (calculateQuestProgress : Quest -> User -> Q)
    (s : GameState) (quest userQuest : Quest) (req : QuestRequirement) (inc : Q) :
  find (isOpenQuest quest) (quests (user s)) = Some userQuest ->
  allCompleted
    (updatedRequirements (requirements userQuest)
       (progressMapFor (requirements userQuest) (req_type req) inc))
    (progressMapFor (requirements userQuest) (req_type req) inc) = true ->
  let s' := store (snd (handleQuestProgress now calculateQuestProgress s quest req inc
                          (mkWorld s []))) in
  forall req' inc' w,
    handleQuestProgress now calculateQuestProgress s' quest req' inc' w
    = (Returned tt, w).
Proof.
  intros Hfind Hall. cbv zeta. intros req' inc' w.
  rewrite (completing_run now calculateQuestProgress s quest userQuest req inc Hfind Hall).
  destruct (find_by_id quest userQuest _ Hfind) as [q0 Hq0].
  destruct (completedStore_user now calculateQuestProgress s quest q0 (req_type req) Hq0)
    as [_ [_ [_ [_ Hdone]]]].
  cbn [snd store]. unfold handleQuestProgress.
  rewrite find_none; [reflexivity |].
  intros q Hin.
  destruct (String.eqb (quest_id q) (quest_id quest)) eqn:E; [| reflexivity].
  apply String.eqb_eq in E.
  unfold isCompleted. rewrite (Hdone q Hin E). reflexivity.
Qed.

Lemma quest_completes_only_once_witness :
  handleQuestProgress 0 (fun _ _ => 100%Q)
    (store (snd (handleQuestProgress 0 (fun _ _ => 100%Q) QuestProps.questState
                   QuestProps.dailyQuest
                   (QuestProps.requirement "battle" (Some 4%Q) 5%Q) 1
                   (mkWorld QuestProps.questState []))))
    QuestProps.dailyQuest (QuestProps.requirement "battle" (Some 4%Q) 5%Q) 1
    (mkWorld QuestProps.questState [])
  = (Returned tt, mkWorld QuestProps.questState []).
Proof.
  exact (quest_completes_only_once 0 (fun _ _ => 100%Q) QuestProps.questState
           QuestProps.dailyQuest QuestProps.dailyQuest
           (QuestProps.requirement "battle" (Some 4%Q) 5%Q) 1 eq_refl eq_refl
           (QuestProps.requirement "battle" (Some 4%Q) 5%Q) 1
           (mkWorld QuestProps.questState [])).
Defined.

(** *** Achievements as loaded *)

Lemma isAchievementCompleted_stable (a : Achievement) :
  isAchievementCompleted
    (mkAchievement (ach_id a) (ach_title a) (isAchievementCompleted a)
       (ach_unlockedAt a) (ach_triggerConditions a) (ach_progress a)
       (ach_completed a))
  = isAchievementCompleted a.
Proof.
  unfold isAchievementCompleted at 1. simpl.
  destruct (isAchievementCompleted a) eqn:E; [reflexivity |].
  unfold isAchievementCompleted in E.
  destruct (ach_unlocked a); [discriminate E |]. simpl in *.
  exact E.
Qed.

(** X20. [processAchievements] marks an achievement unlocked when it was
    already unlocked or carries an unlock time, whatever its conditions say;
    it leaves one without trigger conditions and without those marks locked;
    it keeps the number, the order and the ids of the achievements; and
    processing twice gives the same as processing once. *)
Theorem process_achievements_idempotent (achievements : list Achievement) :
  processAchievements (processAchievements achievements)
  = processAchievements achievements
  /\ map ach_id (processAchievements achievements) = map ach_id achievements
  /\ (forall a, In a achievements ->
        ach_unlocked a = true \/ ach_unlockedAt a <> None ->
        isAchievementCompleted a = true)
  /\ (forall a, In a achievements ->
        ach_unlocked a = false -> ach_unlockedAt a = None ->
        ach_triggerConditions a = [] ->
        isAchievementCompleted a = false).
Proof.
  split; [| split; [| split]].
  - unfold processAchievements. rewrite map_map. apply map_ext.
    intros a. cbn [ach_id ach_title ach_unlockedAt ach_triggerConditions ach_progress].
    rewrite isAchievementCompleted_stable. reflexivity.
  - unfold processAchievements. rewrite map_map. reflexivity.
  - intros a _ [H | H]; unfold isAchievementCompleted.
    + rewrite H. reflexivity.
    + destruct (ach_unlockedAt a); [| contradiction].
      rewrite orb_true_r. reflexivity.
  - intros a _ Hu Hat Hc. unfold isAchievementCompleted.
    rewrite Hu, Hat, Hc. reflexivity.
Qed.

End QuestCompletionProps.

(** ** The battle context: runs of ticks, advancing *)

Module TimerProps.
Import BattleContext.

Section Runs.
Variable BATTLE_CONFIG : BattleConfigT.

Local Abbreviation reduce := (battleReducer BATTLE_CONFIG).

(** The state after the ticks with the given payloads, in order. *)
Definition tick_all (payloads : list Z) (s : BattleState) : BattleState :=
  fold_left (fun st p => reduce st (SET_TIME_LEFT p)) payloads s.

Lemma tick_frame (s : BattleState) (p : Z) :
  let s' := reduce s (SET_TIME_LEFT p) in
  status s' = status s /\ inProgress s' = inProgress s
  /\ questions s' = questions s /\ score s' = score s
  /\ playerAnswers s' = playerAnswers s /\ timePerQuestion s' = timePerQuestion s
  /\ rewards s' = rewards s
  /\ currentQuestion s <= currentQuestion s'
  /\ currentQuestion s' <= Z.max (currentQuestion s) (length_Z (questions s) - 1).
Proof.
  cbv zeta. unfold battleReducer.
  destruct (negb (inProgress s) || negb (BattleStatus_eqb (status s) IN_BATTLE)).
  - repeat split; lia.
  - destruct ((Z.max 0 p =? 0)
              && (currentQuestion s <? length_Z (questions s) - 1)) eqn:E; simpl.
    + apply andb_prop in E. destruct E as [_ E]. apply Z.ltb_lt in E.
      repeat split; lia.
    + repeat split; lia.
Qed.

Lemma tick_all_frame (payloads : list Z) (s : BattleState) :
  let s' := tick_all payloads s in
  status s' = status s /\ inProgress s' = inProgress s
  /\ questions s' = questions s /\ score s' = score s
  /\ playerAnswers s' = playerAnswers s /\ timePerQuestion s' = timePerQuestion s
  /\ rewards s' = rewards s
  /\ currentQuestion s <= currentQuestion s'
  /\ currentQuestion s' <= Z.max (currentQuestion s) (length_Z (questions s) - 1).
Proof.
  cbv zeta. revert s. induction payloads as [| p payloads IH]; intros s.
  - unfold tick_all. simpl. repeat split; lia.
  - change (tick_all (p :: payloads) s)
      with (tick_all payloads (reduce s (SET_TIME_LEFT p))).
    pose proof (tick_frame s p) as Hs. cbv zeta in Hs.
    destruct Hs as [H1 [H2 [H3 [H4 [H5 [H6 [H7 [H8 H9]]]]]]]].
    destruct (IH (reduce s (SET_TIME_LEFT p)))
      as [I1 [I2 [I3 [I4 [I5 [I6 [I7 [I8 I9]]]]]]]].
    rewrite I1, I2, I3, I4, I5, I6, I7, H1, H2, H3, H4, H5, H6, H7.
    rewrite H3 in I9. repeat split; lia.
Qed.

Lemma tick_all_ignored (payloads : list Z) (s : BattleState) :
  inProgress s = false \/ status s <> IN_BATTLE -> tick_all payloads s = s.
Proof.
  intros H. induction payloads as [| p payloads IH]; [reflexivity |].
  change (tick_all (p :: payloads) s)
    with (tick_all payloads (reduce s (SET_TIME_LEFT p))).
  rewrite (BattleProps.tick_guard BATTLE_CONFIG s p H). exact IH.
Qed.

(** [k] ticks that each bring the time to 0. *)
Lemma zero_ticks (k : nat) (s : BattleState) :
  inProgress s = true -> status s = IN_BATTLE ->
  currentQuestion s <= length_Z (questions s) - 1 ->
  currentQuestion (tick_all (repeat 0 k) s)
  = Z.min (currentQuestion s + Z.of_nat k) (length_Z (questions s) - 1).
Proof.
  revert s. induction k as [| k IH]; intros s Hp Hs Hq.
  - simpl. lia.
  - change (tick_all (repeat 0 (S k)) s)
      with (tick_all (repeat 0 k) (reduce s (SET_TIME_LEFT 0))).
    destruct (Z_lt_dec (currentQuestion s) (length_Z (questions s) - 1)) as [Hlt | Hge].
    + rewrite (BattleProps.tick_advances BATTLE_CONFIG s 0 Hp Hs (Z.le_refl 0) Hlt).
      rewrite IH; simpl; try assumption; lia.
    + rewrite (BattleProps.tick_on_last_question BATTLE_CONFIG s 0 Hp Hs (Z.le_refl 0))
        by lia.
      rewrite IH; simpl; try assumption; lia.
Qed.

End Runs.

(** X21. Timer ticks alone never end a battle and never score: after any
    sequence of [SET_TIME_LEFT] actions the status, [inProgress], the
    questions, the score, [playerAnswers] and the rewards are what they were;
    the question index never moves back and never moves past the last
    question (unless it was already beyond it); and unless the battle is in
    progress with status ['battle'], the whole state is unchanged. *)
Theorem ticks_never_end_a_battle
    (BATTLE_CONFIG : BattleConfigT) (payloads : list Z) (s : BattleState) :
  let s' := tick_all BATTLE_CONFIG payloads s in
  status s' = status s /\ inProgress s' = inProgress s
  /\ questions s' = questions s /\ score s' = score s
  /\ playerAnswers s' = playerAnswers s /\ rewards s' = rewards s
  /\ currentQuestion s <= currentQuestion s'
  /\ currentQuestion s' <= Z.max (currentQuestion s) (length_Z (questions s) - 1)
  /\ (inProgress s = false \/ status s <> IN_BATTLE -> s' = s).
Proof.
  cbv zeta.
  destruct (tick_all_frame BATTLE_CONFIG payloads s)
    as [H1 [H2 [H3 [H4 [H5 [_ [H7 [H8 H9]]]]]]]].
  repeat split; try assumption.
  apply tick_all_ignored.
Qed.

(** X22. In a battle in progress with status ['battle'] and the index within
    the questions, [k] successive ticks that each bring the time to 0 move
    the index to [min(currentQuestion + k, length - 1)]: the timeouts walk
    through the questions one by one and stop at the last one, with the
    status still ['battle']. *)
Theorem timeouts_stop_at_last_question
    (BATTLE_CONFIG : BattleConfigT) (k : nat) (s : BattleState) :
  inProgress s = true -> status s = IN_BATTLE ->
  currentQuestion s <= length_Z (questions s) - 1 ->
  let s' := tick_all BATTLE_CONFIG (repeat 0 k) s in
  currentQuestion s'
  = Z.min (currentQuestion s + Z.of_nat k) (length_Z (questions s) - 1)
  /\ status s' = IN_BATTLE.
Proof.
  intros Hp Hs Hq. cbv zeta. split.
  - apply zero_ticks; assumption.
  - destruct (tick_all_frame BATTLE_CONFIG (repeat 0 k) s) as [H1 _].
    rewrite H1. exact Hs.
Qed.

Lemma timeouts_stop_at_last_question_witness :
  currentQuestion (tick_all BattleProps.config (repeat 0 5) BattleProps.onFirstQuestion)
  = Z.min (0 + 5) (2 - 1).
Proof.
  exact (proj1 (timeouts_stop_at_last_question BattleProps.config 5
                  BattleProps.onFirstQuestion eq_refl eq_refl
                  ltac:(vm_compute; discriminate))).
Defined.

(** X23. [ADVANCE_QUESTION] never leaves the index past the last question:
    a payload at or beyond the number of questions completes the battle
    (status ['completed'], not in progress, index on the last question), any
    smaller payload becomes the index with status ['battle'] and a fresh
    timer; and once completed this way, further ticks change nothing. *)
Theorem advance_question_bounds
    (BATTLE_CONFIG : BattleConfigT) (s : BattleState) (payload : Z) :
  let s' := battleReducer BATTLE_CONFIG s (ADVANCE_QUESTION payload) in
  currentQuestion s' <= length_Z (questions s') - 1
  /\ (length_Z (questions s) <= payload ->
        status s' = COMPLETED /\ inProgress s' = false
        /\ currentQuestion s' = length_Z (questions s) - 1
        /\ score s' = score s
        /\ forall payloads, tick_all BATTLE_CONFIG payloads s' = s')
  /\ (payload < length_Z (questions s) ->
        status s' = IN_BATTLE /\ currentQuestion s' = payload
        /\ timeLeft s' = cfg_timePerQuestion BATTLE_CONFIG
        /\ score s' = score s /\ playerAnswers s' = playerAnswers s).
Proof.
  cbv zeta. unfold battleReducer at 1 2.
  destruct (length_Z (questions s) <=? payload) eqn:E.
  - apply Z.leb_le in E. split; [simpl; lia |]. split.
    + intros _. unfold battleReducer. apply Z.leb_le in E. rewrite E.
      simpl. repeat split.
      intros payloads. apply tick_all_ignored. left. reflexivity.
    + intros H. lia.
  - apply Z.leb_gt in E. split; [simpl; lia |]. split.
    + intros H. lia.
    + intros _. unfold battleReducer. apply Z.leb_gt in E. rewrite E.
      simpl. repeat split.
Qed.

End TimerProps.

(** ** [BattleService]: saving, clearing, statistics *)

Module BattleStore.
Import JS BattleService.

(** The select of [saveBattleProgress]: [.eq('user_id', userId).single()]
    answers with the row when exactly one row matches and with error
    [PGRST116] when none or several do; [fault] is the error code of a
    request that fails for another reason. *)
Definition select_single_by_user (fault : option string) (userId : string) (db : Table)
    : SaveRow + string :=
  match fault with
  | Some code => inr code
  | None =>
      match filter (fun r => String.eqb (row_user_id r) userId) db with
      | [r] => inl r
      | _ => inr "PGRST116"%string
      end
  end.

(** [battleSaveData.battle_state]: the fields of the state, stamped with the
    time of the save. *)
Definition stamped (battleState : SavedBattle) (now : Z) : SavedBattle :=
  mkSavedBattle (saved_questions battleState) (saved_currentQuestion battleState)
    (saved_playerAnswers battleState) (saved_score battleState)
    (saved_timeLeft battleState) (saved_status battleState)
    (saved_lastError battleState) (Some now).

(** [.update(battleSaveData).eq('id', id)]. *)
Definition update_by_id (rid : Z) (userId : string) (data : SavedBattle) (db : Table)
    : Table :=
  map (fun r =>
         if row_id r =? rid
         then mkSaveRow (row_id r) userId (row_created_at r) (Some data)
         else r)
      db.

(** [saveBattleProgress(battleState)].  [fetchFault] and [saveFault] are the
    failures of the two requests, if any; [freshId] and [now] are the id and
    the creation time that the table gives to an inserted row, [now] also
    being the clock of the client. *)
Definition saveBattleProgress (fetchFault saveFault : option string)
    (now freshId : Z) (userId : string) (battleState : SavedBattle) (db : Table)
    : Outcome unit * Table :=
  let existingSave :=
    match select_single_by_user fetchFault userId db with
    | inl r => inl (Some r)
    | inr code => if String.eqb code "PGRST116" then inl None else inr code
    end in
  match existingSave with
  | inr code => (Thrown code, db)
  | inl existing =>
      let data := stamped battleState now in
      match saveFault with
      | Some code => (Thrown code, db)
      | None =>
          match existing with
          | Some r => (Returned tt, update_by_id (row_id r) userId data db)
          | None => (Returned tt, db ++ [mkSaveRow freshId userId now (Some data)])
          end
      end
  end.

(** [clearBattleSave(userId)]. *)
Definition clearBattleSave (fault : option string) (userId : string) (db : Table)
    : Outcome unit * Table :=
  match fault with
  | Some code => (Thrown code, db)
  | None => (Returned tt, filter (fun r => negb (String.eqb (row_user_id r) userId)) db)
  end.

(** [calculateNewAverageScore(newScore, currentAverage, totalBattles)]. *)
Definition calculateNewAverageScore (newScore currentAverage totalBattles : Q) : Z :=
  Math_round (((currentAverage * totalBattles) + newScore) / (totalBattles + 1))%Q.

End BattleStore.

Module BattleStoreProps.
Import JS BattleService BattleStore.

Lemma filter_none (A : Type) (f : A -> bool) (l : list A) :
  (forall x, In x l -> f x = false) -> filter f l = [].
Proof.
  induction l as [| a l IH]; intros H; simpl; [reflexivity |].
  rewrite (H a) by (left; reflexivity).
  apply IH. intros x Hx. apply H. right. exact Hx.
Qed.

Lemma filter_keep_all (A : Type) (f : A -> bool) (l : list A) :
  (forall x, In x l -> f x = true) -> filter f l = l.
Proof.
  induction l as [| a l IH]; intros H; simpl; [reflexivity |].
  rewrite (H a) by (left; reflexivity).
  rewrite IH; [reflexivity |]. intros x Hx. apply H. right. exact Hx.
Qed.

Section OneUser.
Variable userId : string.
Variable db : Table.
Hypothesis no_save : forall r, In r db -> row_user_id r <> userId.
Variable freshId : Z.
Hypothesis fresh : forall r, In r db -> row_id r <> freshId.

Lemma user_rows_empty :
  filter (fun r => String.eqb (row_user_id r) userId) db = [].
Proof.
  apply filter_none. intros r Hr. apply String.eqb_neq. apply no_save. exact Hr.
Qed.

Lemma first_save (now : Z) (st : SavedBattle) :
  saveBattleProgress None None now freshId userId st db
  = (Returned tt, db ++ [mkSaveRow freshId userId now (Some (stamped st now))]).
Proof.
  unfold saveBattleProgress, select_single_by_user.
  rewrite user_rows_empty. reflexivity.
Qed.

Lemma user_rows_after_save (row : SaveRow) :
  row_user_id row = userId ->
  filter (fun r => String.eqb (row_user_id r) userId) (db ++ [row]) = [row].
Proof.
  intros H. rewrite filter_app, user_rows_empty. simpl.
  rewrite H, String.eqb_refl. reflexivity.
Qed.

Lemma delete_fresh (row : SaveRow) :
  row_id row = freshId -> delete_by_id freshId (db ++ [row]) = db.
Proof.
  intros H. unfold delete_by_id. rewrite filter_app. simpl.
  rewrite H, Z.eqb_refl. simpl. rewrite app_nil_r.
  apply filter_keep_all. intros r Hr.
  apply negb_true_iff. apply Z.eqb_neq. apply fresh. exact Hr.
Qed.

Lemma recover_after_save (row : SaveRow) (saved : SavedBattle) (t currentTime : Z) :
  row_user_id row = userId -> row_id row = freshId ->
  battle_state row = Some saved -> timestamp saved = Some t ->
  currentTime - t <= hourInMs ->
  recoverBattleState None currentTime userId (db ++ [row])
  = (Returned (Some saved), db).
Proof.
  intros Hu Hi Hs Ht Hage.
  unfold recoverBattleState, select_single.
  rewrite (user_rows_after_save row Hu). simpl.
  rewrite Hs, Ht. unfold isStale.
  assert (E : (hourInMs <? currentTime - t) = false) by (apply Z.ltb_ge; lia).
  rewrite E, Hi. rewrite (delete_fresh row Hi). reflexivity.
Qed.

Lemma recover_nothing (currentTime : Z) :
  recoverBattleState None currentTime userId db = (Returned None, db).
Proof.
  unfold recoverBattleState, select_single. rewrite user_rows_empty. reflexivity.
Qed.

End OneUser.

(** X24. Save, then recover: for a user without a save, when both requests
    succeed and the inserted row gets an id that no other row has,
    [saveBattleProgress] followed within the hour by [recoverBattleState]
    returns the saved state stamped with the time of the save and leaves the
    table exactly as it was before the save; a second recovery then returns
    [null]. *)
Theorem save_then_recover
    (userId : string) (db : Table) (freshId now currentTime : Z) (st : SavedBattle) :
  (forall r, In r db -> row_user_id r <> userId) ->
  (forall r, In r db -> row_id r <> freshId) ->
  currentTime - now <= hourInMs ->
  let saved := saveBattleProgress None None now freshId userId st db in
  let recovered := recoverBattleState None currentTime userId (snd saved) in
  fst saved = Returned tt
  /\ fst recovered = Returned (Some (stamped st now))
  /\ snd recovered = db
  /\ recoverBattleState None currentTime userId (snd recovered) = (Returned None, db).
Proof.
  intros Hno Hfresh Hage. cbv zeta.
  rewrite (first_save userId db Hno freshId now st). cbn [fst snd].
  rewrite (recover_after_save userId db Hno freshId Hfresh
             (mkSaveRow freshId userId now (Some (stamped st now)))
             (stamped st now) now currentTime eq_refl eq_refl eq_refl eq_refl Hage).
  cbn [fst snd]. repeat split.
  apply recover_nothing. exact Hno.
Qed.

Lemma save_then_recover_witness :
  fst (recoverBattleState None 7000 "u3"
         (snd (saveBattleProgress None None 5000 9 "u3" (RecoveryProps.savedBattle 0)
                 RecoveryProps.sampleTable)))
  = Returned (Some (stamped (RecoveryProps.savedBattle 0) 5000)).
Proof.
  refine (proj1 (proj2 (save_then_recover "u3" RecoveryProps.sampleTable 9 5000 7000
                          (RecoveryProps.savedBattle 0) _ _ _))).
  - intros r [<- | [<- | []]]; discriminate.
  - intros r [<- | [<- | []]]; discriminate.
  - vm_compute. discriminate.
Defined.

(** X25. The last save wins: for a user without a save, a second
    [saveBattleProgress] finds the row of the first and updates it instead of
    inserting another one, so the table holds one row for the user, and a
    recovery within the hour of the second save returns the second state and
    restores the table. *)
Theorem last_save_wins
    (userId : string) (db : Table) (freshId freshId' now now' currentTime : Z)
    (st st' : SavedBattle) :
  (forall r, In r db -> row_user_id r <> userId) ->
  (forall r, In r db -> row_id r <> freshId) ->
  currentTime - now' <= hourInMs ->
  let once := snd (saveBattleProgress None None now freshId userId st db) in
  let twice := saveBattleProgress None None now' freshId' userId st' once in
  fst twice = Returned tt
  /\ snd twice = db ++ [mkSaveRow freshId userId now (Some (stamped st' now'))]
  /\ recoverBattleState None currentTime userId (snd twice)
     = (Returned (Some (stamped st' now')), db).
Proof.
  intros Hno Hfresh Hage. cbv zeta.
  rewrite (first_save userId db Hno freshId now st). cbn [snd].
  assert (Htwice :
    saveBattleProgress None None now' freshId' userId st'
      (db ++ [mkSaveRow freshId userId now (Some (stamped st now))])
    = (Returned tt, db ++ [mkSaveRow freshId userId now (Some (stamped st' now'))])).
  { unfold saveBattleProgress, select_single_by_user.
    rewrite (user_rows_after_save userId db Hno
               (mkSaveRow freshId userId now (Some (stamped st now))) eq_refl). cbn.
    unfold update_by_id. rewrite map_app. cbn. rewrite Z.eqb_refl.
    f_equal. f_equal.
    rewrite <- (map_id db) at 2. apply map_ext_in.
    intros r Hr. assert (E : (row_id r =? freshId) = false)
      by (apply Z.eqb_neq; apply Hfresh; exact Hr).
    rewrite E. reflexivity. }
  rewrite Htwice. cbn [fst snd]. split; [reflexivity |]. split; [reflexivity |].
  apply (recover_after_save userId db Hno freshId Hfresh
           (mkSaveRow freshId userId now (Some (stamped st' now')))
           (stamped st' now') now' currentTime eq_refl eq_refl eq_refl eq_refl Hage).
Qed.

Lemma last_save_wins_witness :
  snd (saveBattleProgress None None 6000 10 "u3" (RecoveryProps.savedBattle 1)
         (snd (saveBattleProgress None None 5000 9 "u3" (RecoveryProps.savedBattle 0)
                 RecoveryProps.sampleTable)))
  = RecoveryProps.sampleTable
    ++ [mkSaveRow 9 "u3" 5000 (Some (stamped (RecoveryProps.savedBattle 1) 6000))].
Proof.
  refine (proj1 (proj2 (last_save_wins "u3" RecoveryProps.sampleTable 9 10 5000 6000
                          6500 (RecoveryProps.savedBattle 0)
                          (RecoveryProps.savedBattle 1) _ _ _))).
  - intros r [<- | [<- | []]]; discriminate.
  - intros r [<- | [<- | []]]; discriminate.
  - vm_compute. discriminate.
Defined.

Lemma same_id_same_row (l : Table) (x y : SaveRow) :
  NoDup (map row_id l) -> In x l -> In y l -> row_id x = row_id y -> x = y.
Proof.
  induction l as [| a l IH]; intros Hnd Hx Hy Heq; [contradiction |].
  simpl in Hnd. inversion Hnd as [| i m Hnot Hnd']; subst.
  destruct Hx as [-> | Hx]; destruct Hy as [-> | Hy].
  - reflexivity.
  - exfalso. apply Hnot. rewrite Heq. apply in_map. exact Hy.
  - exfalso. apply Hnot. rewrite <- Heq. apply in_map. exact Hx.
  - apply IH; assumption.
Qed.

Lemma delete_removes_at_most_one (rid : Z) (l : Table) :
  NoDup (map row_id l) ->
  (List.length l <= S (List.length (delete_by_id rid l)))%nat.
Proof.
  induction l as [| a l IH]; intros Hnd; simpl; [lia |].
  simpl in Hnd. inversion Hnd as [| i m Hnot Hnd']; subst.
  destruct (row_id a =? rid) eqn:E; simpl.
  - apply Z.eqb_eq in E.
    assert (Hkeep : delete_by_id rid l = l).
    { apply filter_keep_all. intros r Hr. apply negb_true_iff. apply Z.eqb_neq.
      intros Hid. apply Hnot. rewrite E, <- Hid. apply in_map. exact Hr. }
    fold (delete_by_id rid l). rewrite Hkeep. lia.
  - fold (delete_by_id rid l). specialize (IH Hnd'). lia.
Qed.

(** X26. With distinct row ids, [recoverBattleState] touches at most the one
    row it read: whatever it returns or throws, no row is added, every row of
    another user stays in the table, at most one row disappears, and when
    the request fails, when an error is thrown or when nothing is found for
    the user the table is unchanged. *)
Theorem recover_touches_one_row
    (fault : option string) (currentTime : Z) (userId : string) (db : Table) :
  NoDup (map row_id db) ->
  let result := recoverBattleState fault currentTime userId db in
  (forall r, In r (snd result) -> In r db)
  /\ (forall r, In r db -> row_user_id r <> userId -> In r (snd result))
  /\ (List.length db <= S (List.length (snd result)))%nat
  /\ (fst result <> Returned None -> (forall code, fst result <> Thrown code) ->
        exists saved, fst result = Returned (Some saved)
                      /\ exists data, In data db /\ row_user_id data = userId
                                      /\ battle_state data = Some saved
                                      /\ ~ In data (snd result))
  /\ (fault <> None -> snd result = db)
  /\ (forall code, fst result = Thrown code -> snd result = db)
  /\ ((forall r, In r db -> row_user_id r <> userId) -> snd result = db).
Proof.
  intros Hnd. cbv zeta. unfold recoverBattleState.
  destruct (select_single fault userId db) as [data | code] eqn:Esel.
  - assert (Hfault : fault = None).
    { destruct fault as [c |]; [discriminate Esel | reflexivity]. }
    assert (Hdata : In data db /\ row_user_id data = userId).
    { subst fault. apply RecoveryProps.select_single_row. exact Esel. }
    destruct Hdata as [Hin Huser].
    assert (Hsub : forall r, In r (delete_by_id (row_id data) db) -> In r db).
    { intros r Hr. unfold delete_by_id in Hr. apply filter_In in Hr. tauto. }
    assert (Hkeep : forall r, In r db -> row_user_id r <> userId ->
                              In r (delete_by_id (row_id data) db)).
    { intros r Hr Hu. apply RecoveryProps.others_are_kept; [exact Hr |].
      intros Hid. apply Hu. rewrite <- Huser. f_equal.
      apply (same_id_same_row db); assumption. }
    assert (Hgone : ~ In data (delete_by_id (row_id data) db)).
    { intros H. exact (RecoveryProps.deleted_is_gone _ _ _ H eq_refl). }
    pose proof (delete_removes_at_most_one (row_id data) db Hnd) as Hlen.
    assert (Hfound : (forall r, In r db -> row_user_id r <> userId) -> False).
    { intros Hnone. exact (Hnone data Hin Huser). }
    destruct (battle_state data) as [saved |] eqn:Est.
    + destruct (isStale currentTime (timestamp saved)); cbn [fst snd];
        (split; [exact Hsub |]); (split; [exact Hkeep |]); (split; [exact Hlen |]).
      * split; [intros H; contradiction |].
        split; [intros H; contradiction |].
        split; [intros code H; discriminate H | intros H; contradiction].
      * split.
        -- intros _ _. exists saved. split; [reflexivity |].
           exists data. repeat split; assumption.
        -- split; [intros H; contradiction |].
           split; [intros code H; discriminate H | intros H; contradiction].
    + cbn [fst snd]. split; [tauto |]. split; [tauto |]. split; [lia |].
      split; [intros H; contradiction |]. repeat split; reflexivity.
  - destruct (String.eqb code "PGRST116"); cbn [fst snd].
    + split; [tauto |]. split; [tauto |]. split; [lia |].
      split; [intros H; contradiction |]. repeat split; reflexivity.
    + split; [tauto |]. split; [tauto |]. split; [lia |].
      split; [intros _ H; exfalso; exact (H code eq_refl) |].
      repeat split; reflexivity.
Qed.

Lemma recover_touches_one_row_witness :
  NoDup (map row_id RecoveryProps.sampleTable)
  /\ forall r, In r RecoveryProps.sampleTable -> row_user_id r <> "u1"%string ->
               In r (snd (recoverBattleState None 2000 "u1" RecoveryProps.sampleTable)).
Proof.
  assert (Hnd : NoDup (map row_id RecoveryProps.sampleTable)).
  { simpl. constructor.
    - simpl. intros [H | H]; [discriminate H | exact H].
    - constructor; [simpl; tauto | constructor]. }
  split; [exact Hnd |].
  exact (proj1 (proj2 (recover_touches_one_row None 2000 "u1"
                         RecoveryProps.sampleTable Hnd))).
Defined.

(** *** The running average *)

Lemma round_between (v : Q) (lo hi : Z) :
  (inject_Z lo <= v)%Q -> (v <= inject_Z hi)%Q -> lo <= Math_round v <= hi.
Proof.
  intros Hlo Hhi. unfold Math_round.
  pose proof (Qfloor_le (v + (1 # 2))) as Hle.
  pose proof (Qlt_floor (v + (1 # 2))) as Hlt.
  split.
  - assert (H : (inject_Z lo < inject_Z (Qfloor (v + (1 # 2)) + 1))%Q) by lra.
    rewrite <- Zlt_Qlt in H. lia.
  - assert (H : (inject_Z (Qfloor (v + (1 # 2))) < inject_Z (hi + 1))%Q).
    { rewrite inject_Z_plus. change (inject_Z 1) with 1%Q. lra. }
    rewrite <- Zlt_Qlt in H. lia.
Qed.

(** X27. For whole-numbered scores and a non-negative number of battles
    played, the new average that [calculateNewAverageScore] returns lies
    between the smaller and the larger of the old average and the new score;
    with no battle played before it is the new score itself. *)
Theorem new_average_between (newScore currentAverage : Z) (totalBattles : Q) :
  (0 <= totalBattles)%Q ->
  Z.min currentAverage newScore
  <= calculateNewAverageScore (inject_Z newScore) (inject_Z currentAverage) totalBattles
  <= Z.max currentAverage newScore
  /\ calculateNewAverageScore (inject_Z newScore) (inject_Z currentAverage) 0 = newScore.
Proof.
  intros Hn. unfold calculateNewAverageScore. split.
  - assert (Hpos : (0 < totalBattles + 1)%Q) by lra.
    assert (Hmin1 : (inject_Z (Z.min currentAverage newScore) <= inject_Z currentAverage)%Q)
      by (rewrite <- Zle_Qle; lia).
    assert (Hmin2 : (inject_Z (Z.min currentAverage newScore) <= inject_Z newScore)%Q)
      by (rewrite <- Zle_Qle; lia).
    assert (Hmax1 : (inject_Z currentAverage <= inject_Z (Z.max currentAverage newScore))%Q)
      by (rewrite <- Zle_Qle; lia).
    assert (Hmax2 : (inject_Z newScore <= inject_Z (Z.max currentAverage newScore))%Q)
      by (rewrite <- Zle_Qle; lia).
    apply round_between.
    + apply Qle_shift_div_l; [exact Hpos |].
      assert (H : (inject_Z (Z.min currentAverage newScore) * totalBattles
                   <= inject_Z currentAverage * totalBattles)%Q)
        by (apply Qmult_le_compat_r; assumption).
      lra.
    + apply Qle_shift_div_r; [exact Hpos |].
      assert (H : (inject_Z currentAverage * totalBattles
                   <= inject_Z (Z.max currentAverage newScore) * totalBattles)%Q)
        by (apply Qmult_le_compat_r; assumption).
      lra.
  - assert (H : newScore <= Math_round ((inject_Z currentAverage * 0 + inject_Z newScore)
                                         / (0 + 1)) <= newScore).
    { apply round_between.
      - apply Qle_shift_div_l; lra.
      - apply Qle_shift_div_r; lra. }
    lia.
Qed.

Lemma new_average_between_witness :
  (0 <= 3)%Q
  /\ Z.min 70 90 <= calculateNewAverageScore (inject_Z 90) (inject_Z 70) 3 <= Z.max 70 90.
Proof.
  assert (H : (0 <= 3)%Q) by (unfold Qle; simpl; lia).
  split; [exact H |].
  exact (proj1 (new_average_between 90 70 3 H)).
Defined.

Example new_average_example :
  calculateNewAverageScore 90 70 3 = 75.
Proof. reflexivity. Qed.

End BattleStoreProps.

(** ** [BattleService.getQuestions] and [useBattle.initializeBattle] *)

From Stdlib Require Import Permutation.

Module QuestionFetch.
Import JS BattleService.

(** A row of [quiz_questions] with its joined [quiz_answers]. *)
Record QuizAnswer : Type := mkQuizAnswer {
  answer_text : string;
  is_correct : bool
}.

Record QuizRow : Type := mkQuizRow {
  qr_id : string;
  qr_question : string;
  quiz_answers : option (list QuizAnswer);
  category_id : option string;
  qr_difficulty : option Z
}.

(** The question objects that [getQuestions] builds. *)
Record FetchedQuestion : Type := mkFetchedQuestion {
  fq_id : string;
  fq_question : string;
  fq_answers : list string;
  fq_correctAnswer : Z;
  fq_category : option string;
  fq_difficulty : option Z
}.

(** [Array.prototype.findIndex]. *)
Fixpoint findIndex {A : Type} (f : A -> bool) (l : list A) : Z :=
  match l with
  | [] => -1
  | a :: rest =>
      if f a then 0
      else let i := findIndex f rest in if i =? -1 then -1 else i + 1
  end.

(** [l.slice(0, count)]; a negative [count] counts from the end. *)
Definition slice0 {A : Type} (l : list A) (count : Z) : list A :=
  if 0 <=? count then firstn (Z.to_nat count) l
  else firstn (Z.to_nat (Z.of_nat (List.length l) + count)) l.

Definition length_at_least_4 {A : Type} (l : list A) : bool :=
  4 <=? Z.of_nat (List.length l).

(** [validQuestions]. *)
Definition validQuestions (data : list QuizRow) : list FetchedQuestion :=
  filter (fun q => length_at_least_4 (fq_answers q)
                   && negb (fq_correctAnswer q =? -1))
    (map (fun q =>
            let answers := match quiz_answers q with Some a => a | None => [] end in
            mkFetchedQuestion (qr_id q) (qr_question q)
              (map answer_text answers)
              (findIndex is_correct answers)
              (category_id q) (qr_difficulty q))
       (filter (fun q =>
                  match quiz_answers q with
                  | Some a => length_at_least_4 a
                  | None => false
                  end)
               data)).

(** [getQuestions(count, category, difficulty)], from the answer of the
    query on: [data] and [error] are what the request returns (the filters
    on category and difficulty are part of the request), [shuffle] is the
    outcome of [sort(() => Math.random() - 0.5)]. *)
Definition getQuestions (data : option (list QuizRow)) (error : option string)
    (shuffle : list FetchedQuestion -> list FetchedQuestion) (count : Z)
    : Outcome (list FetchedQuestion) :=
  let attempt : Outcome (list FetchedQuestion) :=
    match error with
    | Some message => Thrown ("Failed to fetch questions: " ++ message)
    | None =>
        match data with
        | None | Some [] => Thrown "No questions available"
        | Some rows =>
            let valid := validQuestions rows in
            if Z.of_nat (List.length valid) <? count
            then Thrown "Insufficient valid questions available"
            else Returned (slice0 (shuffle valid) count)
        end
    end in
  match attempt with
  | Returned qs => Returned qs
  | Thrown message => Thrown ("Failed to fetch battle questions: " ++ message)
  end.

End QuestionFetch.

Module QuestionFetchProps.
Import JS BattleService QuestionFetch.

Lemma findIndex_range (A : Type) (f : A -> bool) (l : list A) :
  findIndex f l = -1 \/ 0 <= findIndex f l < Z.of_nat (List.length l).
Proof.
  induction l as [| a l IH]; simpl findIndex.
  - left. reflexivity.
  - destruct (f a).
    + right. simpl List.length. lia.
    + destruct (findIndex f l =? -1) eqn:E.
      * left. reflexivity.
      * right. apply Z.eqb_neq in E. simpl List.length. lia.
Qed.

(** The element at the index that [findIndex] returns satisfies the test. *)
Lemma findIndex_hit (A : Type) (f : A -> bool) (l : list A) :
  findIndex f l <> -1 ->
  exists a, nth_error l (Z.to_nat (findIndex f l)) = Some a /\ f a = true.
Proof.
  induction l as [| a l IH]; simpl findIndex; intros H.
  - contradiction.
  - destruct (f a) eqn:Ef.
    + exists a. split; [reflexivity | exact Ef].
    + destruct (findIndex f l =? -1) eqn:E; [contradiction |].
      apply Z.eqb_neq in E. destruct (IH E) as [b [Hb Hfb]].
      exists b. split; [| exact Hfb].
      destruct (findIndex_range A f l) as [Hr | Hr]; [contradiction |].
      replace (Z.to_nat (findIndex f l + 1)) with (S (Z.to_nat (findIndex f l))) by lia.
      exact Hb.
Qed.

Lemma In_firstn (A : Type) (n : nat) (l : list A) (x : A) :
  In x (firstn n l) -> In x l.
Proof.
  revert l. induction n as [| n IH]; intros l H; simpl in H; [contradiction |].
  destruct l as [| a l]; [contradiction |].
  destruct H as [-> | H]; [left; reflexivity | right; apply IH; exact H].
Qed.

Definition wellFormed (q : FetchedQuestion) : Prop :=
  4 <= Z.of_nat (List.length (fq_answers q))
  /\ 0 <= fq_correctAnswer q < Z.of_nat (List.length (fq_answers q)).

Lemma validQuestions_wellFormed (data : list QuizRow) (q : FetchedQuestion) :
  In q (validQuestions data) ->
  wellFormed q
  /\ exists row answers,
       In row data /\ quiz_answers row = Some answers
       /\ fq_id q = qr_id row /\ fq_answers q = map answer_text answers
       /\ exists a, nth_error answers (Z.to_nat (fq_correctAnswer q)) = Some a
                    /\ is_correct a = true.
Proof.
  unfold validQuestions. intros H.
  apply filter_In in H. destruct H as [Hin Hok].
  apply andb_prop in Hok. destruct Hok as [Hlen Hidx].
  apply negb_true_iff in Hidx. apply Z.eqb_neq in Hidx.
  unfold length_at_least_4 in Hlen. apply Z.leb_le in Hlen.
  apply in_map_iff in Hin. destruct Hin as [row [Hq Hrow]].
  apply filter_In in Hrow. destruct Hrow as [Hrow Hans].
  destruct (quiz_answers row) as [answers |] eqn:Ea; [| discriminate Hans].
  subst q. unfold wellFormed. cbn [fq_answers fq_correctAnswer fq_id] in *.
  split.
  - split; [exact Hlen |].
    destruct (findIndex_range _ is_correct answers) as [Hr | Hr]; [contradiction |].
    rewrite length_map. exact Hr.
  - exists row, answers. repeat split; try assumption.
    apply findIndex_hit. exact Hidx.
Qed.

(** X28. When [getQuestions] returns, for a non-negative [count] and a
    shuffle that permutes its input, it returns exactly [count] questions,
    each built from a fetched row, with at least four answers and a
    [correctAnswer] that is the position of an answer marked correct; rows
    with fewer than four answers or without a correct answer never get
    through.  Without data the call throws "No questions available" (under
    the common prefix). *)
Theorem fetched_questions_are_well_formed
    (data : option (list QuizRow)) (error : option string)
    (shuffle : list FetchedQuestion -> list FetchedQuestion) (count : Z)
    (qs : list FetchedQuestion) :
  (forall l, Permutation l (shuffle l)) ->
  0 <= count ->
  getQuestions data error shuffle count = Returned qs ->
  Z.of_nat (List.length qs) = count
  /\ (forall q, In q qs ->
        wellFormed q
        /\ exists rows row answers,
             data = Some rows /\ In row rows /\ quiz_answers row = Some answers
             /\ fq_id q = qr_id row /\ fq_answers q = map answer_text answers
             /\ exists a, nth_error answers (Z.to_nat (fq_correctAnswer q)) = Some a
                          /\ is_correct a = true)
  /\ (error = None ->
      getQuestions None error shuffle count
      = Thrown "Failed to fetch battle questions: No questions available"
      /\ getQuestions (Some []) error shuffle count
         = Thrown "Failed to fetch battle questions: No questions available").
Proof.
  intros Hperm Hcount Hret. unfold getQuestions in Hret.
  destruct error as [message |]; [discriminate Hret |].
  destruct data as [[| row0 rows] |]; try discriminate Hret.
  set (valid := validQuestions (row0 :: rows)) in *.
  destruct (Z.of_nat (List.length valid) <? count) eqn:E; [discriminate Hret |].
  apply Z.ltb_ge in E. injection Hret as <-.
  unfold slice0. assert (E0 : (0 <=? count) = true) by (apply Z.leb_le; exact Hcount).
  rewrite E0. split; [| split].
  - rewrite firstn_length_le; [lia |].
    rewrite <- (Permutation_length (Hperm valid)). lia.
  - intros q Hq. apply In_firstn in Hq.
    apply (Permutation_in q (Permutation_sym (Hperm valid))) in Hq.
    destruct (validQuestions_wellFormed _ q Hq) as [Hwf [row [answers H]]].
    split; [exact Hwf |].
    exists (row0 :: rows), row, answers.
    destruct H as [H1 [H2 [H3 [H4 H5]]]]. repeat split; assumption.
  - intros _. split; reflexivity.
Qed.

Definition fourAnswers : list QuizAnswer :=
  [mkQuizAnswer "a" false; mkQuizAnswer "b" true;
   mkQuizAnswer "c" false; mkQuizAnswer "d" false].

Definition sampleRows : list QuizRow :=
  [ mkQuizRow "q1" "?" (Some fourAnswers) None None;
    mkQuizRow "q2" "?" (Some [mkQuizAnswer "a" true]) None None;
    mkQuizRow "q3" "?" None None None;
    mkQuizRow "q4" "?"
      (Some [mkQuizAnswer "a" false; mkQuizAnswer "b" false;
             mkQuizAnswer "c" false; mkQuizAnswer "d" false]) None None ].

Lemma fetched_questions_are_well_formed_witness :
  getQuestions (Some sampleRows) None (fun l => l) 1
  = Returned [mkFetchedQuestion "q1" "?" ["a"; "b"; "c"; "d"]%string 1 None None]
  /\ Z.of_nat (List.length
                 [mkFetchedQuestion "q1" "?" ["a"; "b"; "c"; "d"]%string 1 None None])
     = 1.
Proof.
  assert (H : getQuestions (Some sampleRows) None (fun l => l) 1
              = Returned [mkFetchedQuestion "q1" "?" ["a"; "b"; "c"; "d"]%string 1
                            None None]) by reflexivity.
  split; [exact H |].
  exact (proj1 (fetched_questions_are_well_formed (Some sampleRows) None (fun l => l) 1
                  _ (fun l => Permutation_refl l) ltac:(lia) H)).
Defined.

End QuestionFetchProps.

Module BattleInit.
Import JS GameContext.

(** [try { body } finally { cleanup }]. *)
Definition try_finally {A : Type} (body : Handler A) (cleanup : Handler unit)
    : Handler A :=
  fun w =>
    match body w with
    | (r, w') =>
        match cleanup w' with
        | (Returned _, w'') => (r, w'')
        | (Thrown msg, w'') => (Thrown msg, w'')
        end
    end.

(** [dispatch({ type: 'SET_STATUS', payload })]: [gameReducer] has no case
    for this type, and its [default] returns the state. *)
Definition dispatch_SET_STATUS (payload : string) : Handler unit :=
  fun w => (Returned tt, w).

(** [await new Promise(resolve => setTimeout(resolve, ms))]. *)
Definition sleep (ms : Z) : Handler unit := fun w => (Returned tt, w).

Section Hook.

Variable now : Z.
Variable calculateQuestProgress : Quest -> User -> Q.
Variable BATTLE_CONFIG : BattleConfigT.

(** [initializeBattle()] of [useBattle].  [initializing] is
    [initializingRef.current] on entry (the [finally] resets it), [raced]
    the outcome of [Promise.race([fetchPromise, timeoutPromise])]: the
    questions fetched, or the message of the fetch error or of the
    timeout. *)
Definition initializeBattle (mounted initializing : bool)
    (raced : Outcome (option (list BattleQuestion))) (state : GameState)
    : Handler unit :=
  if inProgress (battle state)
     || negb (String.eqb (status (battle state)) "searching")
  then ret tt
  else if initializing then ret tt
  else
    try_finally
      (try_catch
         (dispatch now calculateQuestProgress (SET_LOADING true) ;;
          questions <-
            match raced with
            | Returned qs => ret qs
            | Thrown msg => throw ("Failed to load battle questions: " ++ msg)
            end ;;
          match questions with
          | None => throw "Insufficient questions available for battle"
          | Some qs =>
              if Z.of_nat (List.length qs) <? questionsPerBattle BATTLE_CONFIG
              then throw "Insufficient questions available for battle"
              else
                dispatch now calculateQuestProgress
                  (INITIALIZE_BATTLE
                     (QuestionFetch.slice0 qs (questionsPerBattle BATTLE_CONFIG))
                     (cfg_timePerQuestion BATTLE_CONFIG)) ;;
                sleep 1000 ;;
                dispatch_SET_STATUS "ready" ;;
                sleep (readyDelay BATTLE_CONFIG) ;;
                dispatch_SET_STATUS "battle"
          end)
         (fun msg => UseBattle.handleBattleError now calculateQuestProgress mounted msg))
      (dispatch now calculateQuestProgress (SET_LOADING false)).

End Hook.
End BattleInit.

Module BattleInitProps.
Import JS GameContext BattleInit.

Ltac init_cases :=
  repeat match goal with
  | |- _ /\ _ => split
  | |- forall _, _ => intro
  | H : _ \/ _ |- _ => destruct H
  | H : _ /\ _ |- _ => destruct H
  | H : exists _, _ |- _ => destruct H
  | H : Returned _ = Returned _ |- _ => injection H as H
  | H : Thrown _ = Thrown _ |- _ => injection H as H
  | H : Some _ = Some _ |- _ => injection H as H
  | H : forall qs0, Returned (Some ?qs) = Returned (Some qs0) -> _ |- _ =>
      specialize (H qs eq_refl)
  | H : ?x = ?y |- _ => is_var x; subst x
  | H : ?y = ?x |- _ => is_var x; subst x
  end;
  try discriminate; try lia; try reflexivity.

Section Hook.

Variable now : Z.
Variable calculateQuestProgress : Quest -> User -> Q.
Variable BATTLE_CONFIG : BattleConfigT.

Local Abbreviation init := (initializeBattle now calculateQuestProgress BATTLE_CONFIG).

(** The store after a failed initialisation: the error is recorded under
    [battleStats], the battle is not touched, [loading] is off. *)
Definition failedStore (s : GameState) (message : string) : GameState :=
  mkGameState (set_battleStats_error (user s) (Some (message, None)))
    (battle s) false (error s).

(** X29. [initializeBattle] does nothing at all (no dispatch, no timer, no
    throw) when the battle of its render is in progress, when its status
    is not ['searching'], or when another initialisation is under way. *)
Theorem initialize_battle_guard (mounted initializing : bool)
    (raced : Outcome (option (list BattleQuestion))) (state : GameState) (w : World) :
  inProgress (battle state) = true
  \/ status (battle state) <> "searching"%string
  \/ initializing = true ->
  init mounted initializing raced state w = (Returned tt, w).
Proof.
  intros H. unfold initializeBattle.
  destruct (inProgress (battle state)) eqn:Ep; [reflexivity |].
  destruct (String.eqb (status (battle state)) "searching") eqn:Es.
  - apply String.eqb_eq in Es.
    destruct H as [H | [H | H]]; [discriminate H | contradiction | ].
    subst initializing. reflexivity.
  - reflexivity.
Qed.

(** X30. From a battle that is ['searching'] and not in progress,
    [initializeBattle] never throws and always leaves [loading] off.  With
    at least [questionsPerBattle] questions fetched it seeds the battle
    with the first [questionsPerBattle] of them, status ['battle'], score
    0-0 and the configured time, and leaves the user alone; a second
    initialisation from that store does nothing.  Otherwise the battle is
    not touched and, while mounted, the error message is recorded: the
    wrapped fetch or timeout message, or the one for too few questions. *)
Theorem initialize_battle_outcomes (mounted : bool)
    (raced : Outcome (option (list BattleQuestion))) (state : GameState) (w : World) :
  inProgress (battle state) = false ->
  status (battle state) = "searching"%string ->
  0 <= questionsPerBattle BATTLE_CONFIG ->
  let result := init mounted false raced state w in
  let N := questionsPerBattle BATTLE_CONFIG in
  fst result = Returned tt
  /\ loading (store (snd result)) = false
  /\ timers (snd result) = timers w
  /\ (forall qs, raced = Returned (Some qs) -> N <= Z.of_nat (List.length qs) ->
        store (snd result)
        = mkGameState (user (store w))
            (mkBattleState "battle" true (firstn (Z.to_nat N) qs) 0 (mkBattleScore 0 0)
               (cfg_timePerQuestion BATTLE_CONFIG) (cfg_timePerQuestion BATTLE_CONFIG)
               (Some []) None None)
            false (error (store w))
        /\ forall mounted' raced' w',
             init mounted' false raced' (store (snd result)) w' = (Returned tt, w'))
  /\ (mounted = true ->
      (forall msg, raced = Thrown msg ->
         store (snd result)
         = failedStore (store w) ("Failed to load battle questions: " ++ msg))
      /\ (raced = Returned None
          \/ (exists qs, raced = Returned (Some qs) /\ Z.of_nat (List.length qs) < N) ->
          store (snd result)
          = failedStore (store w) "Insufficient questions available for battle"))
  /\ (mounted = false ->
      (forall qs, raced = Returned (Some qs) -> Z.of_nat (List.length qs) < N) ->
      store (snd result)
      = mkGameState (user (store w)) (battle (store w)) false (error (store w))).
Proof.
  intros Hp Hs HN result N.
  assert (Hguard : inProgress (battle state)
                   || negb (String.eqb (status (battle state)) "searching") = false).
  { rewrite Hp, Hs. reflexivity. }
  assert (Hslice : forall qs : list BattleQuestion,
             QuestionFetch.slice0 qs N = firstn (Z.to_nat N) qs).
  { intros qs. unfold QuestionFetch.slice0.
    destruct (0 <=? N) eqn:E; [reflexivity |]. apply Z.leb_gt in E. unfold N in E. lia. }
  subst result. unfold initializeBattle. rewrite Hguard. fold N.
  destruct w as [s ts].
  unfold try_finally, try_catch, bind, ret, throw, dispatch, sleep, dispatch_SET_STATUS,
    UseBattle.handleBattleError, failedStore.
  destruct raced as [[qs |] | msg]; cbn -[Z.ltb Z.of_nat String.append].
  - (* questions fetched *)
    destruct (Z.of_nat (List.length qs) <? N) eqn:E;
      [apply Z.ltb_lt in E | apply Z.ltb_ge in E];
      destruct mounted; cbn -[Z.ltb Z.of_nat String.append];
      try rewrite Hslice; init_cases.
  - (* no question list *)
    destruct mounted; cbn -[Z.ltb Z.of_nat String.append]; init_cases.
  - (* fetch error or timeout *)
    destruct mounted; cbn -[Z.ltb Z.of_nat String.append]; init_cases.
Qed.

End Hook.

Definition searchingBattle : BattleState :=
  mkBattleState "searching" false [] 0 (mkBattleScore 0 0) 30 30 (Some []) None None.

Definition searchingState : GameState :=
  mkGameState GameProps.sampleUser searchingBattle false None.

Lemma initialize_battle_guard_witness :
  initializeBattle 0 (fun _ _ => 0%Q) BattleProps.config true false
    (Returned (Some [])) GameProps.sampleState (mkWorld GameProps.sampleState [])
  = (Returned tt, mkWorld GameProps.sampleState []).
Proof.
  apply (initialize_battle_guard 0 (fun _ _ => 0%Q) BattleProps.config true false
           (Returned (Some [])) GameProps.sampleState (mkWorld GameProps.sampleState [])).
  right. left. vm_compute. discriminate.
Defined.

Lemma initialize_battle_outcomes_witness :
  store (snd (initializeBattle 0 (fun _ _ => 0%Q) (mkBattleConfig 1 30 3000) true false
                (Returned (Some [BattleProps.question "q1"; BattleProps.question "q2"]))
                searchingState (mkWorld searchingState [])))
  = mkGameState GameProps.sampleUser
      (mkBattleState "battle" true [BattleProps.question "q1"] 0 (mkBattleScore 0 0)
         30 30 (Some []) None None)
      false None.
Proof.
  exact (proj1
           (proj1 (proj2 (proj2 (proj2
              (initialize_battle_outcomes 0 (fun _ _ => 0%Q) (mkBattleConfig 1 30 3000)
                 true (Returned (Some [BattleProps.question "q1"; BattleProps.question "q2"]))
                 searchingState (mkWorld searchingState [])
                 eq_refl eq_refl ltac:(simpl; lia)))))
              _ eq_refl ltac:(simpl; lia))).
Defined.

End BattleInitProps.
